(** * partners.cc: mean-field HIV simulation over a shuffled agent population

  A shallow embedding of [partners.cc]: the [Agent] structure with its
  event methods, the [Prevalence] aggregate, [report] and the driver
  [simulate], followed by the properties of the specification that
  concern them.

  Conventions.
  - [double] values are IEEE-754 binary64 values ([spec_float] with
    precision 53 and maximal exponent 1024), so that [0.0 / 0.0] is a
    NaN and every comparison with a NaN is false, as in the program.
  - [unsigned] values are integers taken modulo [2^32].
  - Agents live in a heap; an [AgentVector] is a list of pointers into
    it, as [std::vector<Agent *>] is.
  - The random engine and the distributions drawn from it are an
    interface, [RandomSource]; properties hold for every
    implementation, some under the distributions' documented ranges. *)

From Stdlib Require Import ZArith Lia.
From Stdlib Require Import Floats.SpecFloat.
From stdpp Require Import base list strings gmap.

(** ** Doubles *)

Module Double.

Definition prec : Z := 53.
Definition emax : Z := 1024.

Definition double : Type := spec_float.

Definition add : double -> double -> double := SFadd prec emax.
Definition sub : double -> double -> double := SFsub prec emax.
Definition mul : double -> double -> double := SFmul prec emax.
Definition div : double -> double -> double := SFdiv prec emax.
Definition ltb : double -> double -> bool := SFltb.
Definition leb : double -> double -> bool := SFleb.

Definition is_nan (x : double) : bool :=
  match x with S754_nan => true | _ => false end.

Definition is_zero (x : double) : bool :=
  match x with S754_zero _ => true | _ => false end.

(** Conversion of an integer to [double]; exact below [2^53]. *)
Definition of_Z (n : Z) : double := binary_normalize prec emax n 0 false.

(** Truncation toward zero, as in a conversion to an integer type;
    nothing for infinities and NaNs. *)
Definition truncate (x : double) : option Z :=
  match x with
  | S754_zero _ => Some 0%Z
  | S754_finite s m e => Some (cond_Zopp s (Z.shiftl (Zpos m) e))
  | S754_infinity _ | S754_nan => None
  end.

Definition zero : double := S754_zero false.
Definition infinity : double := S754_infinity false.
Definition nan : double := S754_nan.

(** The literals of the program; [d0_9] is the double nearest to 0.9,
    the value of the literal [0.9]. *)
Definition d0_5 : double := Eval vm_compute in div (of_Z 1) (of_Z 2).
Definition d0_9 : double := Eval vm_compute in div (of_Z 9) (of_Z 10).
Definition d1 : double := Eval vm_compute in of_Z 1.
Definition d2 : double := Eval vm_compute in of_Z 2.
Definition d15 : double := Eval vm_compute in of_Z 15.
Definition d20 : double := Eval vm_compute in of_Z 20.

End Double.

Import Double.

(** ** Machine integers *)

(** [unsigned] is 32 bits wide; arithmetic on it wraps around. *)
Definition UINT_MODULUS : Z := 2 ^ 32.

Definition to_unsigned (n : Z) : Z := (n mod UINT_MODULUS)%Z.

(** [++n] on an [unsigned]. *)
Definition incr (n : Z) : Z := to_unsigned (n + 1).

(** ** Errors and the state monad *)

(** What stops the program: [std::out_of_range], thrown by
    [unordered_map::at] and never caught, and undefined behaviour (a
    pointer that refers to no agent, an index outside an array, a
    [double] whose truncation does not fit the integer type). *)
Inductive error : Type :=
| out_of_range
| undefined_behaviour.

Inductive result (A : Type) : Type :=
| Ok (a : A)
| Err (e : error).

Arguments Ok {A} a.
Arguments Err {A} e.

Definition St (S A : Type) : Type := S -> result (A * S).

Definition ret {S A : Type} (a : A) : St S A := fun s => Ok (a, s).

Definition bind {S A B : Type} (c : St S A) (k : A -> St S B) : St S B :=
  fun s =>
    match c s with
    | Ok (a, s') => k a s'
    | Err e => Err e
    end.

Definition throw {S A : Type} (e : error) : St S A := fun _ => Err e.

Notation "'do' x <- c ;; k" := (bind c (fun x => k))
  (at level 10, x name, c at level 99, k at level 200).
Notation "'run' c ;; k" := (bind c (fun _ => k))
  (at level 10, c at level 99, k at level 200).

(** [for (auto & x : l) body(x);] *)
Fixpoint for_each {S A : Type} (body : A -> St S unit) (l : list A) : St S unit :=
  match l with
  | [] => ret tt
  | x :: l' => run body x ;; for_each body l'
  end.

(** ** Parameters *)

(** [ParameterMap]; [at_] is [unordered_map::at]. The keys of the
    source are the addresses of string literals; a key is taken here as
    the string it points to. *)
Definition ParameterMap : Type := gmap string double.

Definition at_ {S : Type} (parameters : ParameterMap) (key : string) : St S double :=
  match parameters !! key with
  | Some v => ret v
  | None => throw out_of_range
  end.

(** ** The random engine and its distributions *)

(** A pointer to an [Agent]: its index in the heap. *)
Abbreviation ptr := nat (only parsing).

(** The engine [rng] with the distributions the program draws from it.
    Each operation takes the distribution's parameters and the engine's
    state and returns the draw with the next state.

    Modelled from the spec: [beta_distribution] is [sim::beta_distribution]
    of [stats.hh], which is not part of the sources; the specification
    gives it as a draw from Beta(a, b) with values in [0,1] whose second
    shape is derived so that the mean is the configured target. *)
Class RandomSource : Type := {
  rng_state : Type;
  bernoulli_distribution : double -> rng_state -> bool * rng_state;
  uniform_real_distribution : double -> double -> rng_state -> double * rng_state;
  geometric_distribution : double -> rng_state -> Z * rng_state;
  beta_distribution : double -> double -> rng_state -> double * rng_state;
  shuffle : list ptr -> rng_state -> list ptr * rng_state
}.

(** [std::uniform_real_distribution<double>(0.0, 1.0)] draws from [0,1). *)
Definition uniform_unit_range (R : RandomSource) : Prop :=
  forall s : rng_state,
    leb zero (uniform_real_distribution zero d1 s).1 = true /\
    ltb (uniform_real_distribution zero d1 s).1 d1 = true.

(** [std::geometric_distribution<int>] draws non-negative values. *)
Definition geometric_range (R : RandomSource) : Prop :=
  forall (p : double) (s : rng_state), (0 <= (geometric_distribution p s).1)%Z.

(** [std::shuffle] permutes the elements of the vector. *)
Definition shuffle_permutes (R : RandomSource) : Prop :=
  forall (l : list ptr) (s : rng_state), (shuffle l s).1 ≡ₚ l.

(** Modelled from the spec: [sim::beta_distribution] of [stats.hh], which
    is not part of the sources, at an infinite second shape. The
    specification gives the draws as lying in [0,1] with the mean
    [a / (a + b)] equal to the configured target; for the second shape
    [2.0 / 0.0 - 2.0], which is plus infinity, the target is 0, and a
    draw from [0,1] with mean 0 is 0. *)
Definition beta_zero_target (R : RandomSource) : Prop :=
  forall (a : double) (s : rng_state),
    is_zero (beta_distribution a infinity s).1 = true.

(** ** Agents *)

Inductive Sex : Type :=
| MALE
| FEMALE.

Record Agent : Type := {
  id : Z;
  sex : Sex;
  age : double;
  (* 0 = HIV-, 1 = HIV+ primary infection, 2..5 = HIV+ CDC stage 1..4 *)
  hiv : Z;
  alive : bool;
  partners : list ptr;
  relationship_stickiness_attribute : double;
  partner_forming_attribute : double;
  concurrency_attribute : double;
  sexual_drive_attribute : double;
  preference_fifs_attribute : double;
  force_infection_attribute : double
}.

Definition set_hiv (v : Z) (a : Agent) : Agent :=
  {| id := id a; sex := sex a; age := age a; hiv := v; alive := alive a;
     partners := partners a;
     relationship_stickiness_attribute := relationship_stickiness_attribute a;
     partner_forming_attribute := partner_forming_attribute a;
     concurrency_attribute := concurrency_attribute a;
     sexual_drive_attribute := sexual_drive_attribute a;
     preference_fifs_attribute := preference_fifs_attribute a;
     force_infection_attribute := force_infection_attribute a |}.

Definition set_age (v : double) (a : Agent) : Agent :=
  {| id := id a; sex := sex a; age := v; hiv := hiv a; alive := alive a;
     partners := partners a;
     relationship_stickiness_attribute := relationship_stickiness_attribute a;
     partner_forming_attribute := partner_forming_attribute a;
     concurrency_attribute := concurrency_attribute a;
     sexual_drive_attribute := sexual_drive_attribute a;
     preference_fifs_attribute := preference_fifs_attribute a;
     force_infection_attribute := force_infection_attribute a |}.

(** What [new Agent()] yields: a value-initialized object. *)
Definition new_Agent : Agent :=
  {| id := 0; sex := MALE; age := zero; hiv := 0; alive := false;
     partners := [];
     relationship_stickiness_attribute := zero;
     partner_forming_attribute := zero;
     concurrency_attribute := zero;
     sexual_drive_attribute := zero;
     preference_fifs_attribute := zero;
     force_infection_attribute := zero |}.

Section Simulation.

Context {R : RandomSource}.

(** A draw, which cannot fail, in the monad of the engine's state. *)
Definition draw {A : Type} (d : rng_state -> A * rng_state) : St rng_state A :=
  fun s => Ok (d s).

(** [Agent::init]. The object's members are assigned in the order of the
    source, each draw advancing the engine; [std::min] is taken on [int]
    and its result converted to [unsigned]. *)
Definition init (i : Z) (parameters : ParameterMap) (this : Agent)
  : St rng_state Agent :=
  do b <- draw (bernoulli_distribution d0_5) ;;
  let sex_ := if b then FEMALE else MALE in
  do age_ <- draw (uniform_real_distribution d15 d20) ;;
  do g <- draw (geometric_distribution d0_9) ;;
  let hiv_ := to_unsigned (Z.min g 5) in
  do mean_partnership_time <- at_ parameters "MEAN_PARTNERSHIP_TIME" ;;
  do time_step <- at_ parameters "TIME_STEP" ;;
  do stickiness <- draw (beta_distribution d2
                        (mul (div mean_partnership_time time_step) d2)) ;;
  do mean_time_until_partner <- at_ parameters "MEAN_TIME_UNTIL_PARTNER" ;;
  do time_step <- at_ parameters "TIME_STEP" ;;
  do partner_forming <- draw (beta_distribution d2
                        (mul (div mean_time_until_partner time_step) d2)) ;;
  do mean_time_concurrent <- at_ parameters "MEAN_TIME_CONCURRENT" ;;
  do time_step <- at_ parameters "TIME_STEP" ;;
  do concurrency <- draw (beta_distribution d2
                        (mul (div mean_time_concurrent time_step) d2)) ;;
  do mean_time_sex <- at_ parameters "MEAN_TIME_SEX" ;;
  do time_step <- at_ parameters "TIME_STEP" ;;
  do sexual_drive <- draw (beta_distribution d2
                        (mul (div mean_time_sex time_step) d2)) ;;
  do preference_fifs <- at_ parameters "PREFERENCE_FIFS" ;;
  do fifs <- draw (beta_distribution d2 (sub (div d2 preference_fifs) d2)) ;;
  do force <-
    match sex_ with
    | MALE =>
        do mean_risk <- at_ parameters "MEAN_RISK_HET_MALE_SEX" ;;
        draw (beta_distribution d2 (sub (div d2 mean_risk) d2))
    | FEMALE =>
        do mean_risk <- at_ parameters "MEAN_RISK_HET_FEMALE_SEX" ;;
        draw (beta_distribution d2 (sub (div d2 mean_risk) d2))
    end ;;
  ret {| id := i; sex := sex_; age := age_; hiv := hiv_; alive := true;
         partners := partners this;
         relationship_stickiness_attribute := stickiness;
         partner_forming_attribute := partner_forming;
         concurrency_attribute := concurrency;
         sexual_drive_attribute := sexual_drive;
         preference_fifs_attribute := fifs;
         force_infection_attribute := force |}.

(** [Agent::simple_infection_event]. *)
Definition simple_infection_event (prevalence_males prevalence_females : double)
  (this : Agent) (s : rng_state) : Agent * rng_state :=
  if (hiv this =? 0)%Z then
    let prevalence :=
      match sex this with
      | MALE => prevalence_females
      | FEMALE => prevalence_males
      end in
    let risk_infection :=
      mul (mul (force_infection_attribute this) (partner_forming_attribute this))
          prevalence in
    let (u, s') := uniform_real_distribution zero d1 s in
    if ltb u risk_infection then (set_hiv 1 this, s') else (this, s')
  else (this, s).

(** [Agent::stage_advance_event]; [&&] draws only when [hiv == 1]. *)
Definition stage_advance_event (prob_leave_acute_infection : double)
  (this : Agent) (s : rng_state) : Agent * rng_state :=
  if (hiv this =? 1)%Z then
    let (u, s') := uniform_real_distribution zero d1 s in
    if ltb u prob_leave_acute_infection
    then (set_hiv (incr (hiv this)) this, s')
    else (this, s')
  else (this, s).

(** [Agent::age_event]. *)
Definition age_event (time_elapsed : double) (this : Agent) : Agent :=
  set_age (add (age this) time_elapsed) this.

(** ** The aggregate *)

Record Prevalence : Type := {
  males_alive : Z;
  females_alive : Z;
  males_infected : Z;
  females_infected : Z;
  male_prevalence : double;
  female_prevalence : double
}.

(** The counters of a [Prevalence] start at 0; the two [double] members
    have no initializer and hold nothing meaningful until
    [calc_prevalence] assigns them. *)
Definition Prevalence_default : Prevalence :=
  {| males_alive := 0; females_alive := 0;
     males_infected := 0; females_infected := 0;
     male_prevalence := nan; female_prevalence := nan |}.

(** The body of the loop of [calc_prevalence], for one agent. *)
Definition count_agent (agent : Agent) (p : Prevalence) : Prevalence :=
  if alive agent then
    match sex agent with
    | MALE =>
        {| males_alive := incr (males_alive p);
           females_alive := females_alive p;
           males_infected :=
             if (0 <? hiv agent)%Z then incr (males_infected p)
             else males_infected p;
           females_infected := females_infected p;
           male_prevalence := male_prevalence p;
           female_prevalence := female_prevalence p |}
    | FEMALE =>
        {| males_alive := males_alive p;
           females_alive := incr (females_alive p);
           males_infected := males_infected p;
           females_infected :=
             if (0 <? hiv agent)%Z then incr (females_infected p)
             else females_infected p;
           male_prevalence := male_prevalence p;
           female_prevalence := female_prevalence p |}
    end
  else p.

(** The loop of [calc_prevalence] over the vector; each pointer is
    dereferenced in the heap [h]. *)
Fixpoint count_agents (h : list Agent) (agents : list ptr) (p : Prevalence)
  : result Prevalence :=
  match agents with
  | [] => Ok p
  | agent :: rest =>
      match h !! agent with
      | Some a => count_agents h rest (count_agent a p)
      | None => Err undefined_behaviour
      end
  end.

(** [calc_prevalence]: the counts, then the two quotients, the [unsigned]
    counters converted to [double]. *)
Definition calc_prevalence (h : list Agent) (agents : list ptr)
  : result Prevalence :=
  match count_agents h agents Prevalence_default with
  | Ok p =>
      Ok {| males_alive := males_alive p;
            females_alive := females_alive p;
            males_infected := males_infected p;
            females_infected := females_infected p;
            male_prevalence :=
              div (of_Z (males_infected p)) (of_Z (males_alive p));
            female_prevalence :=
              div (of_Z (females_infected p)) (of_Z (females_alive p)) |}
  | Err e => Err e
  end.

(** ** The world of the driver *)

(** One line of [report], as the values written (their formatting as
    text is not modelled). *)
Record Row : Type := {
  row_date : double;
  row_agents : Z;
  row_alive : Z;
  row_infected : Z;
  row_prevalence : double;
  row_males_alive : Z;
  row_males_infected : Z;
  row_male_prevalence : double;
  row_females_alive : Z;
  row_females_infected : Z;
  row_female_prevalence : double;
  row_hiv : list Z
}.

(** The calls made by the driver, with their arguments; for
    [calc_prevalence], the value returned. *)
Inductive Call : Type :=
| call_shuffle
| call_calc_prevalence (p : Prevalence)
| call_simple_infection_event (agent : ptr) (prevalence_males prevalence_females : double)
| call_stage_advance_event (agent : ptr) (prob_leave_acute_infection : double)
| call_age_event (agent : ptr) (time_elapsed : double)
| call_report (date : double).

(** The state the driver works on: the heap of agents, the engine, the
    rows written to [std::cout], and a log of the calls made (the log is
    only written, never read: it records the order of the calls). *)
Record World : Type := {
  heap : list Agent;
  rng : rng_state;
  cout : list Row;
  calls : list Call
}.

Definition M (A : Type) : Type := St World A.

(** [*agent] *)
Definition deref (agent : ptr) : M Agent :=
  fun w =>
    match heap w !! agent with
    | Some a => Ok (a, w)
    | None => Err undefined_behaviour
    end.

(** [*agent = a] *)
Definition store (agent : ptr) (a : Agent) : M unit :=
  fun w =>
    Ok (tt, {| heap := <[agent := a]> (heap w); rng := rng w;
               cout := cout w; calls := calls w |}).

(** [new Agent()]: a fresh object at the end of the heap. *)
Definition new_ : M ptr :=
  fun w =>
    Ok (length (heap w),
        {| heap := heap w ++ [new_Agent]; rng := rng w;
           cout := cout w; calls := calls w |}).

(** A computation on the engine's state, run on the world's engine. *)
Definition with_rng {A : Type} (c : St rng_state A) : M A :=
  fun w =>
    match c (rng w) with
    | Ok (a, s) =>
        Ok (a, {| heap := heap w; rng := s; cout := cout w; calls := calls w |})
    | Err e => Err e
    end.

Definition log (c : Call) : M unit :=
  fun w =>
    Ok (tt, {| heap := heap w; rng := rng w; cout := cout w;
               calls := calls w ++ [c] |}).

Definition print (r : Row) : M unit :=
  fun w =>
    Ok (tt, {| heap := heap w; rng := rng w; cout := cout w ++ [r];
               calls := calls w |}).

(** [agent->m(...)] for a method [m] that draws from the engine and
    updates the object in place. *)
Definition invoke (agent : ptr) (m : Agent -> St rng_state Agent) : M unit :=
  do a <- deref agent ;;
  do a' <- with_rng (m a) ;;
  store agent a'.

(** [calc_prevalence(agents)], called on the world's heap. *)
Definition do_calc_prevalence (agents : list ptr) : M Prevalence :=
  fun w =>
    match calc_prevalence (heap w) agents with
    | Ok p =>
        Ok (p, {| heap := heap w; rng := rng w; cout := cout w;
                  calls := calls w ++ [call_calc_prevalence p] |})
    | Err e => Err e
    end.

(** [shuffle(agents.begin(), agents.end(), rng)]: the vector of pointers
    is permuted, the agents stay where they are. *)
Definition do_shuffle (agents : list ptr) : M (list ptr) :=
  run log call_shuffle ;;
  with_rng (draw (shuffle agents)).

(** [initialize_agents]: every slot of the vector receives a new agent,
    initialized with the next identifier. What the slots held before is
    not read. *)
Fixpoint initialize_agents_from (i : Z) (agents : list ptr)
  (parameters : ParameterMap) : M (list ptr) :=
  match agents with
  | [] => ret []
  | _ :: rest =>
      do agent <- new_ ;;
      run invoke agent (init i parameters) ;;
      do rest' <- initialize_agents_from (incr i) rest parameters ;;
      ret (agent :: rest')
  end.

Definition initialize_agents (agents : list ptr) (parameters : ParameterMap)
  : M (list ptr) :=
  initialize_agents_from 0 agents parameters.

(** The loop of [report] over the array [hiv[6]]: [++hiv[agent->hiv]]. *)
Definition count_stage (agent : ptr) (hiv_ : list Z) : M (list Z) :=
  do a <- deref agent ;;
  match hiv_ !! Z.to_nat (hiv a) with
  | Some n =>
      if (0 <=? hiv a)%Z then ret (<[Z.to_nat (hiv a) := incr n]> hiv_)
      else throw undefined_behaviour
  | None => throw undefined_behaviour
  end.

Fixpoint count_stages (agents : list ptr) (hiv_ : list Z) : M (list Z) :=
  match agents with
  | [] => ret hiv_
  | agent :: rest =>
      do hiv_' <- count_stage agent hiv_ ;;
      count_stages rest hiv_'
  end.

(** [report]. *)
Definition report (date : double) (agents : list ptr) : M unit :=
  run log (call_report date) ;;
  do p <- do_calc_prevalence agents ;;
  do hiv_ <- count_stages agents [0; 0; 0; 0; 0; 0]%Z ;;
  print {| row_date := date;
           row_agents := Z.of_nat (length agents);
           row_alive := to_unsigned (males_alive p + females_alive p);
           row_infected := to_unsigned (males_infected p + females_infected p);
           row_prevalence :=
             div (of_Z (to_unsigned (males_infected p + females_infected p)))
                 (of_Z (to_unsigned (males_alive p + females_alive p)));
           row_males_alive := males_alive p;
           row_males_infected := males_infected p;
           row_male_prevalence := male_prevalence p;
           row_females_alive := females_alive p;
           row_females_infected := females_infected p;
           row_female_prevalence := female_prevalence p;
           row_hiv := hiv_ |}.

(** The three events of one agent in one iteration of [simulate]. *)
Definition agent_events (p : Prevalence) (prob_leave_acute_infection time_step : double)
  (agent : ptr) : M unit :=
  do a <- deref agent ;;
  if alive a then
    run log (call_simple_infection_event agent (male_prevalence p) (female_prevalence p)) ;;
    run invoke agent (fun this =>
          draw (simple_infection_event (male_prevalence p) (female_prevalence p) this)) ;;
    run log (call_stage_advance_event agent prob_leave_acute_infection) ;;
    run invoke agent (fun this =>
          draw (stage_advance_event prob_leave_acute_infection this)) ;;
    run log (call_age_event agent time_step) ;;
    invoke agent (fun this => ret (age_event time_step this))
  else ret tt.

(** The body of the loop of [simulate], for the iteration [i]. *)
Definition simulate_step (time_step start_date prob_leave_acute_infection : double)
  (i : Z) (agents : list ptr) : M (list ptr) :=
  do agents' <- do_shuffle agents ;;
  do p <- do_calc_prevalence agents' ;;
  run for_each (agent_events p prob_leave_acute_infection time_step) agents' ;;
  run report (add start_date (mul time_step (of_Z i))) agents' ;;
  ret agents'.

(** [for (unsigned i = ...; ...; ++i)], for the [n] iterations that remain. *)
Fixpoint simulate_loop (n : nat) (time_step start_date prob_leave_acute_infection : double)
  (i : Z) (agents : list ptr) : M (list ptr) :=
  match n with
  | O => ret agents
  | S n' =>
      do agents' <- simulate_step time_step start_date prob_leave_acute_infection i agents ;;
      simulate_loop n' time_step start_date prob_leave_acute_infection (incr i) agents'
  end.

(** The conversion of a [double] to [unsigned]: truncation, undefined
    when the truncated value is not an [unsigned]. *)
Definition double_to_unsigned {S : Type} (x : double) : St S Z :=
  match truncate x with
  | Some n =>
      if ((0 <=? n) && (n <? UINT_MODULUS))%Z then ret n
      else throw undefined_behaviour
  | None => throw undefined_behaviour
  end.

(** [simulate]; it returns the vector as the shuffles left it. *)
Definition simulate (agents : list ptr) (parameters : ParameterMap)
  : M (list ptr) :=
  do num_years <- at_ parameters "NUM_YEARS" ;;
  do time_step <- at_ parameters "TIME_STEP" ;;
  do start_date <- at_ parameters "START_DATE" ;;
  do prob_leave_acute_infection <- at_ parameters "LEAVE_ACUTE_INFECTION" ;;
  do num_iterations <- double_to_unsigned (div num_years time_step) ;;
  simulate_loop (Z.to_nat num_iterations) time_step start_date
    prob_leave_acute_infection 0 agents.

End Simulation.

Arguments World R : clear implicits.
Arguments M R A : clear implicits.

(** ** Notions used to state the properties *)

(** An agent is infected when [hiv > 0]; the number of infected agents
    of a heap. *)
Definition infected (a : Agent) : bool := (0 <? hiv a)%Z.

Definition infected_count (h : list Agent) : nat :=
  length (filter (fun a => infected a = true) h).

(** An agent is counted for the sex [x] when it is alive and of that
    sex; the number of entries of a vector that point to an agent
    counted for [x], and to an infected one among those. *)
Definition counted (x : Sex) (a : Agent) : bool :=
  alive a && match x, sex a with MALE, MALE | FEMALE, FEMALE => true | _, _ => false end.

Fixpoint alive_count (x : Sex) (h : list Agent) (agents : list ptr) : nat :=
  match agents with
  | [] => 0
  | agent :: rest =>
      match h !! agent with
      | Some a => (if counted x a then 1 else 0) + alive_count x h rest
      | None => alive_count x h rest
      end
  end.

Fixpoint infected_alive_count (x : Sex) (h : list Agent) (agents : list ptr) : nat :=
  match agents with
  | [] => 0
  | agent :: rest =>
      match h !! agent with
      | Some a =>
          (if counted x a && infected a then 1 else 0) + infected_alive_count x h rest
      | None => infected_alive_count x h rest
      end
  end.

(** Every pointer of the vector refers to an agent of the heap. *)
Definition valid_vector (h : list Agent) (agents : list ptr) : Prop :=
  Forall (fun agent => agent < length h) agents.

(** The calls that one iteration of [simulate] makes for the agent that
    [agent] points to in the heap [h], given the aggregate [p]. *)
Definition agent_calls (h : list Agent) (p : Prevalence)
  (prob_leave_acute_infection time_step : double) (agent : ptr) : list Call :=
  match h !! agent with
  | Some a =>
      if alive a then
        [call_simple_infection_event agent (male_prevalence p) (female_prevalence p);
         call_stage_advance_event agent prob_leave_acute_infection;
         call_age_event agent time_step]
      else []
  | None => []
  end.

(** How many times a log computes the aggregate. *)
Definition is_calc_prevalence (c : Call) : bool :=
  match c with call_calc_prevalence _ => true | _ => false end.

Definition prevalence_computations (cs : list Call) : nat :=
  length (filter (fun c => is_calc_prevalence c = true) cs).

(** A stage either stays or moves up, and a stage that moved is 1 or 2. *)
Definition stage_progress (a a' : Agent) : Prop :=
  hiv a' = hiv a \/ (hiv a < hiv a' /\ hiv a' <= 2)%Z.

Definition stage_not_lower (a a' : Agent) : Prop := (hiv a <= hiv a')%Z.

Definition alive_of (x : Sex) (p : Prevalence) : Z :=
  match x with MALE => males_alive p | FEMALE => females_alive p end.

Definition infected_of (x : Sex) (p : Prevalence) : Z :=
  match x with MALE => males_infected p | FEMALE => females_infected p end.

Definition prevalence_of (x : Sex) (p : Prevalence) : double :=
  match x with MALE => male_prevalence p | FEMALE => female_prevalence p end.

Definition same_alive (a a' : Agent) : Prop := alive a' = alive a.

(** The key of the mean risk that [init] reads for an agent of a sex. *)
Definition mean_risk_key (x : Sex) : string :=
  match x with
  | MALE => "MEAN_RISK_HET_MALE_SEX"
  | FEMALE => "MEAN_RISK_HET_FEMALE_SEX"
  end.

(** The vector of a run: its pointers are distinct and each refers to an
    alive agent. *)
Definition population (h : list Agent) (agents : list ptr) : Prop :=
  NoDup agents /\
  forall agent, agent ∈ agents -> exists a, h !! agent = Some a /\ alive a = true.

Definition hiv_in_range (a : Agent) : Prop := (0 <= hiv a <= 5)%Z.

(** An agent whose force of infection is zero keeps it and keeps its
    status, infected or not. *)
Definition zero_force_keeps_status (a a' : Agent) : Prop :=
  is_zero (force_infection_attribute a) = true ->
  is_zero (force_infection_attribute a') = true /\ infected a' = infected a.

Definition zero_force (a : Agent) : Prop :=
  is_zero (force_infection_attribute a) = true.

(** A relation between agents, taken heap-wise: the two heaps have the
    same length and the agents at each index are related. *)
Definition related {R : RandomSource} (Q : Agent -> Agent -> Prop)
  (w w' : World R) : Prop :=
  Forall2 Q (heap w) (heap w').

(** The timestep as the specification words it, to be compared with
    [simulate_step]: an alive agent undergoes the infection event with
    the two prevalences of the aggregate [p], then the stage-advance
    event, then the age event, the engine passing from one draw to the
    next; the entries of the vector are visited in turn, each visit
    acting on the heap and the engine as the visits before left them,
    with the same [p] for all. *)
Definition events_in_order {R : RandomSource} (p : Prevalence)
  (prob_leave_acute_infection time_step : double) (a : Agent) (s : rng_state)
  : Agent * rng_state :=
  let infected_ := simple_infection_event (male_prevalence p) (female_prevalence p) a s in
  let advanced := stage_advance_event prob_leave_acute_infection infected_.1 infected_.2 in
  (age_event time_step advanced.1, advanced.2).

Definition visit {R : RandomSource} (p : Prevalence)
  (prob_leave_acute_infection time_step : double)
  (state : list Agent * rng_state) (agent : ptr) : list Agent * rng_state :=
  match state.1 !! agent with
  | Some a =>
      if alive a then
        let r := events_in_order p prob_leave_acute_infection time_step a state.2 in
        (<[agent := r.1]> state.1, r.2)
      else state
  | None => state
  end.

(** ** A deterministic engine for the examples *)

(** The state is the list of the numbers still to be drawn; each
    distribution turns the next number into a draw of its range. *)
Definition tape_next (s : list nat) : nat * list nat :=
  match s with
  | [] => (0, [])
  | n :: s' => (n, s')
  end.

Definition quarters (n : nat) : double :=
  match n with
  | 0 => zero
  | 1 => div (of_Z 1) (of_Z 4)
  | 2 => div (of_Z 2) (of_Z 4)
  | _ => div (of_Z 3) (of_Z 4)
  end.

Definition tape_bernoulli (_ : double) (s : list nat) : bool * list nat :=
  (Nat.odd (tape_next s).1, (tape_next s).2).

Definition tape_uniform (lo hi : double) (s : list nat) : double * list nat :=
  (add lo (mul (sub hi lo) (quarters (tape_next s).1)), (tape_next s).2).

Definition tape_geometric (_ : double) (s : list nat) : Z * list nat :=
  (Z.of_nat (Nat.min (tape_next s).1 7), (tape_next s).2).

Definition tape_beta (_ b : double) (s : list nat) : double * list nat :=
  (match b with
   | S754_infinity false => zero
   | _ => quarters (tape_next s).1
   end, (tape_next s).2).

Definition tape_shuffle (l : list ptr) (s : list nat) : list ptr * list nat :=
  (if Nat.odd (tape_next s).1 then rev l else l, (tape_next s).2).

Definition tape : RandomSource :=
  {| rng_state := list nat;
     bernoulli_distribution := tape_bernoulli;
     uniform_real_distribution := tape_uniform;
     geometric_distribution := tape_geometric;
     beta_distribution := tape_beta;
     shuffle := tape_shuffle |}.

Definition tape_world (s : list nat) : World tape :=
  {| heap := []; rng := (s : @rng_state tape); cout := []; calls := [] |}.

(** Parameters for the examples: two iterations of one year. *)
Definition example_parameters (risk_male risk_female : double) : ParameterMap :=
  list_to_map
    [("NUM_YEARS", of_Z 2); ("TIME_STEP", d1); ("START_DATE", of_Z 2015);
     ("MEAN_TIME_UNTIL_PARTNER", d1); ("MEAN_PARTNERSHIP_TIME", d1);
     ("MEAN_TIME_CONCURRENT", d1); ("MEAN_TIME_SEX", d1);
     ("PREFERENCE_FIFS", d0_5);
     ("MEAN_RISK_HET_MALE_SEX", risk_male);
     ("MEAN_RISK_HET_FEMALE_SEX", risk_female);
     ("LEAVE_ACUTE_INFECTION", d0_5)].

Definition example_tape : list nat :=
  [1; 1; 0; 1; 2; 3; 1; 2; 3;
   0; 3; 1; 1; 1; 1; 1; 1; 3;
   1; 3; 1; 0;
   0; 1].

Definition example_agents : list ptr := [0; 1].

(** The world after [initialize_agents] on a vector of two slots, with
    mean risks one half. *)
Definition example_world : World tape :=
  Eval vm_compute in
    match initialize_agents [0; 0] (example_parameters d0_5 d0_5)
            (tape_world example_tape) with
    | Ok (_, w) => w
    | Err _ => tape_world []
    end.

(** The same with both mean risks 0. *)
Definition zero_risk_world : World tape :=
  Eval vm_compute in
    match initialize_agents [0; 0] (example_parameters zero zero)
            (tape_world example_tape) with
    | Ok (_, w) => w
    | Err _ => tape_world []
    end.

(** The first agent, as [init] makes it from the example tape. *)
Definition example_first_agent : Agent :=
  Eval vm_compute in
    match init (R := tape) 0 (example_parameters d0_5 d0_5) new_Agent example_tape with
    | Ok (a, _) => a
    | Err _ => new_Agent
    end.

(** The example world after the first iteration of [simulate], after
    both, and the world of zero risk after both. *)
Definition example_step_world : World tape :=
  Eval vm_compute in
    match simulate_step d1 (of_Z 2015) d0_5 0 example_agents example_world with
    | Ok (_, w) => w
    | Err _ => tape_world []
    end.

Definition example_end_world : World tape :=
  Eval vm_compute in
    match simulate example_agents (example_parameters d0_5 d0_5) example_world with
    | Ok (_, w) => w
    | Err _ => tape_world []
    end.

Definition zero_risk_end_world : World tape :=
  Eval vm_compute in
    match simulate example_agents (example_parameters zero zero) zero_risk_world with
    | Ok (_, w) => w
    | Err _ => tape_world []
    end.

(** ** Further notions, for the properties of the driver as a whole *)

(** What [simulate] leaves alone in an agent: everything but [hiv] and
    [age]. *)
Definition same_identity (a a' : Agent) : Prop :=
  id a' = id a /\ sex a' = sex a /\ alive a' = alive a /\
  partners a' = partners a /\
  relationship_stickiness_attribute a' = relationship_stickiness_attribute a /\
  partner_forming_attribute a' = partner_forming_attribute a /\
  concurrency_attribute a' = concurrency_attribute a /\
  sexual_drive_attribute a' = sexual_drive_attribute a /\
  preference_fifs_attribute a' = preference_fifs_attribute a /\
  force_infection_attribute a' = force_infection_attribute a.

(** The number of entries of a vector that point to an agent at the
    stage [k]. *)
Fixpoint stage_count (k : Z) (h : list Agent) (agents : list ptr) : nat :=
  match agents with
  | [] => 0
  | agent :: rest =>
      match h !! agent with
      | Some a => (if (hiv a =? k)%Z then 1 else 0) + stage_count k h rest
      | None => stage_count k h rest
      end
  end.

(** What [simulate] reads from its parameters before its loop: the
    number of iterations, or the failure of the reading. *)
Definition num_iterations (parameters : ParameterMap) : result Z :=
  match parameters !! "NUM_YEARS", parameters !! "TIME_STEP",
        parameters !! "START_DATE", parameters !! "LEAVE_ACUTE_INFECTION" with
  | Some num_years, Some time_step, Some _, Some _ =>
      match truncate (div num_years time_step) with
      | Some n =>
          if ((0 <=? n) && (n <? UINT_MODULUS))%Z then Ok n
          else Err undefined_behaviour
      | None => Err undefined_behaviour
      end
  | _, _, _, _ => Err out_of_range
  end.

(** The keys that [init] reads for an agent of the sex [x]. *)
Definition init_keys (x : Sex) : list string :=
  ["MEAN_PARTNERSHIP_TIME"; "TIME_STEP"; "MEAN_TIME_UNTIL_PARTNER";
   "MEAN_TIME_CONCURRENT"; "MEAN_TIME_SEX"; "PREFERENCE_FIFS"; mean_risk_key x].

(** A heap without infection. *)
Definition disease_free (h : list Agent) : Prop := Forall (fun a => hiv a = 0%Z) h.

(** An example population without infection, and what [simulate] makes
    of it. *)
Definition healthy_tape : list nat :=
  [1; 1; 0; 1; 2; 3; 1; 2; 3;
   0; 3; 0; 1; 1; 1; 1; 1; 3;
   1; 3; 1; 0;
   0; 1].

Definition healthy_world : World tape :=
  Eval vm_compute in
    match initialize_agents [0; 0] (example_parameters d0_5 d0_5)
            (tape_world healthy_tape) with
    | Ok (_, w) => w
    | Err _ => tape_world []
    end.

Definition healthy_end_world : World tape :=
  Eval vm_compute in
    match simulate example_agents (example_parameters d0_5 d0_5) healthy_world with
    | Ok (_, w) => w
    | Err _ => tape_world []
    end.

(** ** [summary], [destroy_agents] and [main] *)

(** [size_t] values are integers taken modulo [2^64]. *)
Definition SIZE_MODULUS : Z := 2 ^ 64.

Definition to_size_t (n : Z) : Z := (n mod SIZE_MODULUS)%Z.

(** [unordered_map::operator[]] read: the value of the key, the key
    being inserted with the value [0.0] when it is absent. *)
Definition index (m : ParameterMap) (key : string) : double * ParameterMap :=
  match m !! key with
  | Some v => (v, m)
  | None => (zero, <[key := zero]> m)
  end.

(** The variables that the loop of [summary] updates: [males],
    [hiv_males], [hiv_females], the array [hiv[6]], [avg_age],
    [youngest] and [oldest]. *)
Record Tally : Type := {
  tally_males : Z;
  tally_hiv_males : Z;
  tally_hiv_females : Z;
  tally_hiv : list Z;
  tally_avg_age : double;
  tally_youngest : double;
  tally_oldest : double
}.

(** What [summary] writes, as the values of its lines; the incidence
    lines are written only when the outputs hold [HIV_MALES]. The
    number of females written is the [size_t] difference
    [agents.size() - males]. *)
Record Summary : Type := {
  summary_sim_no : Z;
  summary_description : string;
  summary_males : Z;
  summary_females : Z;
  summary_youngest : double;
  summary_oldest : double;
  summary_average_age : double;
  summary_hiv : list Z;
  summary_male_prevalence : double;
  summary_female_prevalence : double;
  summary_incidence : option (double * double * double)
}.

(** What [main] writes and what it has deleted at its end. *)
Record Output : Type := {
  output_begin : Summary;
  output_header : string;
  output_rows : list Row;
  output_end : Summary;
  output_deleted : list ptr
}.

Section Program.

Context {R : RandomSource}.

(** The body of the loop of [summary], for one entry of the vector. *)
Definition tally_agent (agent : ptr) (t : Tally) : M R Tally :=
  do hiv_ <- count_stage agent (tally_hiv t) ;;
  do a <- deref agent ;;
  ret {| tally_males :=
           match sex a with
           | MALE => incr (tally_males t)
           | FEMALE => tally_males t
           end;
         tally_hiv_males :=
           match sex a with
           | MALE =>
               if (0 <? hiv a)%Z then incr (tally_hiv_males t)
               else tally_hiv_males t
           | FEMALE => tally_hiv_males t
           end;
         tally_hiv_females :=
           match sex a with
           | MALE => tally_hiv_females t
           | FEMALE =>
               if (0 <? hiv a)%Z then incr (tally_hiv_females t)
               else tally_hiv_females t
           end;
         tally_hiv := hiv_;
         tally_avg_age := add (tally_avg_age t) (age a);
         tally_youngest :=
           if ltb (age a) (tally_youngest t) then age a else tally_youngest t;
         tally_oldest :=
           if ltb (tally_oldest t) (age a) then age a else tally_oldest t |}.

Fixpoint tally_agents (agents : list ptr) (t : Tally) : M R Tally :=
  match agents with
  | [] => ret t
  | agent :: rest =>
      do t' <- tally_agent agent t ;;
      tally_agents rest t'
  end.

(** The incidence block of [summary]: the two differences with the
    stored counts, each a [double] converted to [unsigned], and the
    three quotients. *)
Definition incidence (t : Tally) (females size : Z) (outputs : ParameterMap)
  : M R (option (double * double * double)) :=
  match outputs !! "HIV_MALES" with
  | Some _ =>
      do stored_males <- at_ outputs "HIV_MALES" ;;
      do diff_hiv_males <-
        double_to_unsigned (sub (of_Z (tally_hiv_males t)) stored_males) ;;
      do stored_females <- at_ outputs "HIV_FEMALES" ;;
      do diff_hiv_females <-
        double_to_unsigned (sub (of_Z (tally_hiv_females t)) stored_females) ;;
      ret (Some (div (of_Z diff_hiv_males) (of_Z (tally_males t)),
                 div (of_Z diff_hiv_females) (of_Z females),
                 div (of_Z (to_unsigned (diff_hiv_males + diff_hiv_females)))
                     (of_Z size)))
  | None => ret None
  end.

(** The variables before the loop: [agents[0]->age] has been read into
    [youngest] and [oldest]. *)
Definition tally_start (first : Agent) : Tally :=
  {| tally_males := 0; tally_hiv_males := 0; tally_hiv_females := 0;
     tally_hiv := [0; 0; 0; 0; 0; 0]%Z;
     tally_avg_age := zero;
     tally_youngest := age first;
     tally_oldest := age first |}.

(** [females = agents.size() - males]: the difference of two [size_t]
    values, converted to [unsigned]. *)
Definition females_of (size : Z) (t : Tally) : Z :=
  to_unsigned (to_size_t (size - tally_males t)).

(** The lines written, from the variables after the loop. *)
Definition summary_lines (sim_no : Z) (description : string) (size : Z) (t : Tally)
  (inc : option (double * double * double)) : Summary :=
  {| summary_sim_no := sim_no;
     summary_description := description;
     summary_males := tally_males t;
     summary_females := to_size_t (size - tally_males t);
     summary_youngest := tally_youngest t;
     summary_oldest := tally_oldest t;
     summary_average_age := div (tally_avg_age t) (of_Z size);
     summary_hiv := tally_hiv t;
     summary_male_prevalence :=
       div (of_Z (tally_hiv_males t)) (of_Z (tally_males t));
     summary_female_prevalence :=
       div (of_Z (tally_hiv_females t)) (of_Z (females_of size t));
     summary_incidence := inc |}.

(** [summary]: the lines written and the outputs as the two assignments
    at its end leave them. [agents[0]] is read before the loop. *)
Definition summary (sim_no : Z) (description : string) (agents : list ptr)
  (outputs : ParameterMap) : M R (Summary * ParameterMap) :=
  do first <-
    match agents with
    | agent :: _ => deref agent
    | [] => throw undefined_behaviour
    end ;;
  do t <- tally_agents agents (tally_start first) ;;
  let size := Z.of_nat (length agents) in
  do inc <- incidence t (females_of size t) size outputs ;;
  ret (summary_lines sim_no description size t inc,
       <["HIV_FEMALES" := of_Z (tally_hiv_females t)]>
         (<["HIV_MALES" := of_Z (tally_hiv_males t)]> outputs)).

(** [destroy_agents]: [delete] on every entry of the vector. Here an
    entry is [None] when it is a null pointer, as the entries of
    [AgentVector agents(n)] are until [initialize_agents] assigns them,
    and [Some agent] otherwise: [delete] of a null pointer does nothing.
    The heap keeps every object; [deleted] records the pointers deleted
    so far, and the list returned those deleted at the end. Deleting a
    pointer that is not null and refers to no agent of the heap, or an
    agent a second time, is undefined. *)
Fixpoint destroy_agents (agents : list (option ptr)) (deleted : list ptr)
  : M R (list ptr) :=
  match agents with
  | [] => ret deleted
  | None :: rest => destroy_agents rest deleted
  | Some agent :: rest =>
      do _ <- deref agent ;;
      if bool_decide (agent ∈ deleted) then throw undefined_behaviour
      else destroy_agents rest (agent :: deleted)
  end.

End Program.

(** The constants of the program. *)
Definition YEAR_IN_DAYS : double := Eval vm_compute in div (of_Z 1461) (of_Z 4).
Definition YEAR : double := d1.
Definition DAY : double := Eval vm_compute in div d1 YEAR_IN_DAYS.

(** The parameters that [main] sets, in the order of its assignments. *)
Definition main_parameters : ParameterMap :=
  <["LEAVE_ACUTE_INFECTION" := div (of_Z 238095238) (of_Z 10000000000)]>
  (<["MEAN_RISK_HET_FEMALE_SEX" := div (of_Z 2) (of_Z 100)]>
  (<["MEAN_RISK_HET_MALE_SEX" := div (of_Z 1) (of_Z 100)]>
  (<["PREFERENCE_FIFS" := d0_5]>
  (<["MEAN_TIME_SEX" := DAY]>
  (<["MEAN_TIME_CONCURRENT" := YEAR]>
  (<["MEAN_PARTNERSHIP_TIME" := div YEAR (of_Z 4)]>
  (<["MEAN_TIME_UNTIL_PARTNER" := div YEAR (of_Z 4)]>
  (<["START_DATE" := of_Z 2015]>
  (<["TIME_STEP" := DAY]>
  (<["NUM_YEARS" := d2]> ∅)))))))))).

Definition header : string :=
  "year, agents, alive, infected, prevalence, males_alive, males_infected, male_prevalence, females_alive, females_infected, female_prevalence, hiv_neg, hiv_p, cdc1, cdc2, cdc3, cdc4".

(** [main], from the state [seeded] in which [rng.seed(23)] leaves the
    engine. The vector is created with 10000 slots, which
    [initialize_agents] assigns without reading them; from then on its
    entries are the pointers that [new] returned, none of them null,
    and as such they are handed to [destroy_agents]. *)
Definition main {R : RandomSource} (seeded : rng_state) : result Output :=
  let parameters := main_parameters in
  let outputs : ParameterMap := ∅ in
  let program : M R Output :=
    do agents <- initialize_agents (replicate (Z.to_nat 10000) 0) parameters ;;
    do begin_ <- summary 0 "begin" agents outputs ;;
    let (start_date, parameters) := index parameters "START_DATE" in
    run report start_date agents ;;
    do agents <- simulate agents parameters ;;
    do end_ <- summary 0 "end" agents begin_.2 ;;
    do deleted <- destroy_agents (Some <$> agents) [] ;;
    fun w =>
      Ok ({| output_begin := begin_.1;
             output_header := header;
             output_rows := cout w;
             output_end := end_.1;
             output_deleted := deleted |}, w) in
  match program {| heap := []; rng := seeded; cout := []; calls := [] |} with
  | Ok (output, _) => Ok output
  | Err e => Err e
  end.

(** The entries of a vector that are not null. *)
Definition non_null (agents : list (option ptr)) : list ptr :=
  omap (fun agent => agent) agents.

(** The number of entries of a vector that point to an agent for which
    [f] holds. *)
Fixpoint count_if (f : Agent -> bool) (h : list Agent) (agents : list ptr) : nat :=
  match agents with
  | [] => 0
  | agent :: rest =>
      match h !! agent with
      | Some a => (if f a then 1 else 0) + count_if f h rest
      | None => count_if f h rest
      end
  end.

Definition is_sex (x : Sex) (a : Agent) : bool :=
  match x, sex a with
  | MALE, MALE | FEMALE, FEMALE => true
  | _, _ => false
  end.

(** The agents that the entries of a vector point to, in the order of
    the vector. *)
Definition entries (h : list Agent) (agents : list ptr) : list Agent :=
  omap (fun agent => h !! agent) agents.

(** The updates of [youngest] and [oldest] by one age. *)
Definition younger (youngest x : double) : double :=
  if ltb x youngest then x else youngest.

Definition older (oldest x : double) : double :=
  if ltb oldest x then x else oldest.

Definition infected_of_sex (x : Sex) (a : Agent) : bool := is_sex x a && infected a.

(** The double of a positive integer below [2^53]: its digits, shifted
    to a mantissa of 53 digits. *)
Definition integer_double (c : positive) : double :=
  S754_finite false
    (Z.to_pos (Zpos c * 2 ^ (52 - Z.log2 (Zpos c))))
    (Z.log2 (Zpos c) - 52).

(** The summaries of the example population, before and after
    [simulate]. *)
Definition summary_default : Summary * ParameterMap :=
  (summary_lines 0 "" 0 (tally_start new_Agent) None, ∅).

Definition example_begin : Summary * ParameterMap :=
  Eval vm_compute in
    match summary (R := tape) 0 "begin" example_agents ∅ example_world with
    | Ok (r, _) => r
    | Err _ => summary_default
    end.

Definition example_end : Summary * ParameterMap :=
  Eval vm_compute in
    match summary (R := tape) 0 "end" [1; 0] example_begin.2 example_end_world with
    | Ok (r, _) => r
    | Err _ => summary_default
    end.




(** * Properties *)

(** ** The monad *)

Lemma bind_Ok {S A B : Type} (c : St S A) (k : A -> St S B) (s s' : S) (b : B) :
  bind c k s = Ok (b, s') <->
  exists a s1, c s = Ok (a, s1) /\ k a s1 = Ok (b, s').
Proof.
  unfold bind. split.
  - destruct (c s) as [[a s1]|e]; [eauto | discriminate].
  - intros (a & s1 & -> & Hk). exact Hk.
Qed.

Lemma bind_Ok_intro {S A B : Type} (c : St S A) (k : A -> St S B) (s s1 : S) (a : A) :
  c s = Ok (a, s1) -> bind c k s = k a s1.
Proof. unfold bind. intros ->. reflexivity. Qed.

Lemma ret_Ok {S A : Type} (a b : A) (s s' : S) :
  ret a s = Ok (b, s') <-> a = b /\ s = s'.
Proof. unfold ret. split; [intros [= -> ->] | intros [-> ->]]; auto. Qed.

(** Takes a successful run of a sequence apart, one [bind] at a time. *)
Ltac inv_run H :=
  match type of H with
  | bind _ _ _ = Ok _ =>
      let a := fresh "a" in
      let w := fresh "w" in
      let H1 := fresh "Hrun" in
      let H2 := fresh "Hrun" in
      apply bind_Ok in H; destruct H as (a & w & H1 & H2);
      inv_run H1; inv_run H2
  | ret _ _ = Ok _ =>
      apply ret_Ok in H; destruct H as [? ?]; subst
  | throw _ _ = Ok _ => discriminate H
  | _ => idtac
  end.

(** ** The events of an agent *)

Section Events.

Context {R : RandomSource}.

Lemma simple_infection_event_infected (pm pf : double) (a : Agent) (s : rng_state) :
  hiv a <> 0%Z -> simple_infection_event pm pf a s = (a, s).
Proof.
  intros Hne. unfold simple_infection_event.
  destruct (Z.eqb_spec (hiv a) 0); [contradiction | reflexivity].
Qed.

Lemma stage_advance_event_other (prob : double) (a : Agent) (s : rng_state) :
  hiv a <> 1%Z -> stage_advance_event prob a s = (a, s).
Proof.
  intros Hne. unfold stage_advance_event.
  destruct (Z.eqb_spec (hiv a) 1); [contradiction | reflexivity].
Qed.

(** What the two random events leave alone. *)
Lemma simple_infection_event_frame (pm pf : double) (a : Agent) (s : rng_state) :
  let a' := (simple_infection_event pm pf a s).1 in
  alive a' = alive a /\ age a' = age a /\ sex a' = sex a /\
  force_infection_attribute a' = force_infection_attribute a /\
  partner_forming_attribute a' = partner_forming_attribute a.
Proof.
  unfold simple_infection_event.
  destruct (hiv a =? 0)%Z; [| simpl; auto].
  destruct (uniform_real_distribution zero d1 s) as [u s'].
  destruct (ltb u _); simpl; auto.
Qed.

Lemma stage_advance_event_frame (prob : double) (a : Agent) (s : rng_state) :
  let a' := (stage_advance_event prob a s).1 in
  alive a' = alive a /\ age a' = age a /\ sex a' = sex a /\
  force_infection_attribute a' = force_infection_attribute a /\
  partner_forming_attribute a' = partner_forming_attribute a.
Proof.
  unfold stage_advance_event.
  destruct (hiv a =? 1)%Z; [| simpl; auto].
  destruct (uniform_real_distribution zero d1 s) as [u s'].
  destruct (ltb u _); simpl; auto.
Qed.

(** The stage after each event, as a function of the stage before. *)
Lemma simple_infection_event_hiv (pm pf : double) (a : Agent) (s : rng_state) :
  hiv (simple_infection_event pm pf a s).1 = hiv a \/
  (hiv a = 0%Z /\ hiv (simple_infection_event pm pf a s).1 = 1%Z).
Proof.
  unfold simple_infection_event.
  destruct (Z.eqb_spec (hiv a) 0); [| left; reflexivity].
  destruct (uniform_real_distribution zero d1 s) as [u s'].
  destruct (ltb u _); simpl; auto.
Qed.

Lemma stage_advance_event_hiv (prob : double) (a : Agent) (s : rng_state) :
  hiv (stage_advance_event prob a s).1 = hiv a \/
  (hiv a = 1%Z /\ hiv (stage_advance_event prob a s).1 = 2%Z).
Proof.
  unfold stage_advance_event.
  destruct (Z.eqb_spec (hiv a) 1) as [E|]; [| left; reflexivity].
  destruct (uniform_real_distribution zero d1 s) as [u s'].
  destruct (ltb u _); simpl; auto. rewrite E. right. split; reflexivity.
Qed.

End Events.

(** ** The primitives of the driver *)

Section Primitives.

Context {R : RandomSource}.

Lemma deref_Ok (agent : ptr) (w w' : World R) (a : Agent) :
  deref agent w = Ok (a, w') <-> heap w !! agent = Some a /\ w' = w.
Proof.
  unfold deref. destruct (heap w !! agent) as [b|]; split.
  - intros [= -> ->]. auto.
  - intros [[= ->] ->]. reflexivity.
  - discriminate.
  - intros [[=] _].
Qed.

Lemma log_Ok (c : Call) (w w' : World R) (u : unit) :
  log c w = Ok (u, w') ->
  heap w' = heap w /\ rng w' = rng w /\ cout w' = cout w /\
  calls w' = calls w ++ [c].
Proof. unfold log. intros [= _ <-]. simpl. auto. Qed.

Lemma invoke_Ok (agent : ptr) (m : Agent -> St rng_state Agent)
  (w w' : World R) (u : unit) :
  invoke agent m w = Ok (u, w') ->
  exists a a', heap w !! agent = Some a /\
    m a (rng w) = Ok (a', rng w') /\
    heap w' = <[agent := a']> (heap w) /\
    cout w' = cout w /\ calls w' = calls w.
Proof.
  unfold invoke. intros H. inv_run H.
  apply deref_Ok in Hrun as [Ha ->].
  unfold with_rng in Hrun1. destruct (m a (rng w)) as [[a' s]|e] eqn:Hm;
    [| discriminate].
  injection Hrun1 as <- <-. unfold store in Hrun2. injection Hrun2 as H.
  exists a, a'. subst w'. simpl. auto.
Qed.

Lemma do_calc_prevalence_Ok (agents : list ptr) (w w' : World R) (p : Prevalence) :
  do_calc_prevalence agents w = Ok (p, w') <->
  calc_prevalence (heap w) agents = Ok p /\
  w' = {| heap := heap w; rng := rng w; cout := cout w;
          calls := calls w ++ [call_calc_prevalence p] |}.
Proof.
  unfold do_calc_prevalence.
  destruct (calc_prevalence (heap w) agents) as [q|e]; split.
  - intros [= -> <-]. auto.
  - intros [[= ->] ->]. reflexivity.
  - discriminate.
  - intros [[=] _].
Qed.

Lemma do_shuffle_Ok (agents agents' : list ptr) (w w' : World R) :
  do_shuffle agents w = Ok (agents', w') <->
  agents' = (shuffle agents (rng w)).1 /\
  w' = {| heap := heap w; rng := (shuffle agents (rng w)).2; cout := cout w;
          calls := calls w ++ [call_shuffle] |}.
Proof.
  unfold do_shuffle, bind, log, with_rng, draw. simpl.
  destruct (shuffle agents (rng w)) as [l s]. simpl.
  split; [intros [= <- <-] | intros [-> ->]]; auto.
Qed.

(** One agent's turn, as a whole: nothing for a dead agent; for an alive
    one the three events in sequence on the same object, the engine
    threaded through the two that draw. *)
Lemma agent_events_Ok (p : Prevalence) (prob ts : double) (agent : ptr)
  (w w' : World R) (u : unit) :
  agent_events p prob ts agent w = Ok (u, w') ->
  exists a, heap w !! agent = Some a /\
    ((alive a = false /\ w' = w) \/
     (alive a = true /\
      exists a1 s1 a2 s2,
        simple_infection_event (male_prevalence p) (female_prevalence p) a (rng w)
          = (a1, s1) /\
        stage_advance_event prob a1 s1 = (a2, s2) /\
        heap w' = <[agent := age_event ts a2]> (heap w) /\
        rng w' = s2 /\ cout w' = cout w /\
        calls w' = calls w ++
          [call_simple_infection_event agent (male_prevalence p) (female_prevalence p);
           call_stage_advance_event agent prob;
           call_age_event agent ts])).
Proof.
  unfold agent_events. intros H.
  apply bind_Ok in H as (a & w0 & Hd & H).
  apply deref_Ok in Hd as [Ha ->]. exists a. split; [exact Ha |].
  destruct (alive a); [right | left; apply ret_Ok in H as [_ ->]; auto].
  split; [reflexivity |].
  apply bind_Ok in H as (? & w1 & Hl1 & H). apply log_Ok in Hl1 as (Hh1 & Hr1 & Ho1 & Hc1).
  apply bind_Ok in H as (? & w2 & Hi2 & H).
  apply invoke_Ok in Hi2 as (b1 & a1 & Hb1 & Hm1 & Hh2 & Ho2 & Hc2).
  apply bind_Ok in H as (? & w3 & Hl3 & H). apply log_Ok in Hl3 as (Hh3 & Hr3 & Ho3 & Hc3).
  apply bind_Ok in H as (? & w4 & Hi4 & H).
  apply invoke_Ok in Hi4 as (b2 & a2 & Hb2 & Hm2 & Hh4 & Ho4 & Hc4).
  apply bind_Ok in H as (? & w5 & Hl5 & H). apply log_Ok in Hl5 as (Hh5 & Hr5 & Ho5 & Hc5).
  apply invoke_Ok in H as (b3 & a3 & Hb3 & Hm3 & Hh6 & Ho6 & Hc6).
  assert (Hlt : agent < length (heap w)) by (eapply lookup_lt_Some; exact Ha).
  rewrite Hh1, Ha in Hb1. injection Hb1 as <-.
  rewrite Hh3, Hh2, list_lookup_insert_eq in Hb2 by (rewrite Hh1; exact Hlt).
  injection Hb2 as <-.
  rewrite Hh5, Hh4, list_lookup_insert_eq in Hb3
    by (rewrite Hh3, Hh2, length_insert, Hh1; exact Hlt).
  injection Hb3 as <-.
  unfold draw in Hm1, Hm2. injection Hm1 as Hm1. injection Hm2 as Hm2.
  unfold ret in Hm3. injection Hm3 as <- Hs3.
  rewrite Hr1 in Hm1. rewrite Hr3 in Hm2. rewrite Hr5 in Hs3.
  exists a1, (rng w2), a2, (rng w4). repeat split.
  - exact Hm1.
  - exact Hm2.
  - rewrite Hh6, Hh5, Hh4, Hh3, Hh2, Hh1. rewrite !list_insert_insert_eq. reflexivity.
  - symmetry. exact Hs3.
  - congruence.
  - rewrite Hc6, Hc5, Hc4, Hc3, Hc2, Hc1. rewrite <- !app_assoc. reflexivity.
Qed.

Lemma count_stages_Ok (agents : list ptr) (hiv_ hiv_' : list Z) (w w' : World R) :
  count_stages agents hiv_ w = Ok (hiv_', w') -> w' = w.
Proof.
  revert hiv_ w. induction agents as [|agent rest IH]; intros hiv_ w H; simpl in H.
  - apply ret_Ok in H as [_ ->]. reflexivity.
  - apply bind_Ok in H as (l & w1 & Hc & H). apply IH in H as ->.
    unfold count_stage in Hc. apply bind_Ok in Hc as (a & w0 & Hd & Hc).
    apply deref_Ok in Hd as [_ ->].
    destruct (hiv_ !! Z.to_nat (hiv a)); [| discriminate].
    destruct (0 <=? hiv a)%Z; [| discriminate].
    apply ret_Ok in Hc as [_ ->]. reflexivity.
Qed.

(** [report] reads the heap and writes one row; it computes the
    aggregate anew. *)
Lemma report_Ok (date : double) (agents : list ptr) (w w' : World R) (u : unit) :
  report date agents w = Ok (u, w') ->
  heap w' = heap w /\ rng w' = rng w /\
  exists p row, calc_prevalence (heap w) agents = Ok p /\
    calls w' = calls w ++ [call_report date; call_calc_prevalence p] /\
    cout w' = cout w ++ [row].
Proof.
  unfold report. intros H.
  apply bind_Ok in H as (? & w1 & Hl & H). apply log_Ok in Hl as (Hh1 & Hr1 & Ho1 & Hc1).
  apply bind_Ok in H as (p & w2 & Hp & H). apply do_calc_prevalence_Ok in Hp as [Hp ->].
  apply bind_Ok in H as (l & w3 & Hs & H). apply count_stages_Ok in Hs as ->.
  unfold print in H. injection H as H. subst w'. simpl.
  rewrite Hh1 in Hp. rewrite ?Hh1, ?Hr1, ?Ho1, ?Hc1, <- ?app_assoc.
  split; [reflexivity |]. split; [reflexivity |].
  exists p. eexists. split; [exact Hp |]. split; reflexivity.
Qed.

(** One iteration of [simulate], stage by stage. *)
Lemma simulate_step_Ok (ts sd prob : double) (i : Z) (agents agents' : list ptr)
  (w w' : World R) :
  simulate_step ts sd prob i agents w = Ok (agents', w') ->
  agents' = (shuffle agents (rng w)).1 /\
  exists p w2,
    calc_prevalence (heap w) agents' = Ok p /\
    for_each (agent_events p prob ts) agents'
      {| heap := heap w; rng := (shuffle agents (rng w)).2; cout := cout w;
         calls := calls w ++ [call_shuffle; call_calc_prevalence p] |}
      = Ok (tt, w2) /\
    report (add sd (mul ts (of_Z i))) agents' w2 = Ok (tt, w').
Proof.
  unfold simulate_step. intros H.
  apply bind_Ok in H as (l & w1 & Hs & H). apply do_shuffle_Ok in Hs as [-> ->].
  apply bind_Ok in H as (p & w2 & Hp & H). apply do_calc_prevalence_Ok in Hp as [Hp ->].
  apply bind_Ok in H as ([] & w3 & Hf & H).
  apply bind_Ok in H as ([] & w4 & Hr & H).
  apply ret_Ok in H as [<- <-]. simpl in *.
  split; [reflexivity |]. exists p, w3. rewrite <- app_assoc in Hf. auto.
Qed.

End Primitives.

(** ** Relations between the heap before and after *)

(** Every change that [simulate] makes to the heap is made by one of the
    three events, on one agent in place. A relation between an agent
    before and after that is reflexive, transitive and respected by the
    three events therefore relates the heap before any part of
    [simulate] to the heap after it, agent by agent. *)
Section HeapRelation.

Context {R : RandomSource}.

Variable Q : Agent -> Agent -> Prop.

Hypothesis Q_refl : forall a, Q a a.
Hypothesis Q_trans : forall a b c, Q a b -> Q b c -> Q a c.
Hypothesis Q_infection : forall pm pf a s, Q a (simple_infection_event pm pf a s).1.
Hypothesis Q_stage : forall prob a s, Q a (stage_advance_event prob a s).1.
Hypothesis Q_age : forall dt a, Q a (age_event dt a).

Lemma related_refl (w : World R) : related Q w w.
Proof. apply Forall_Forall2_diag, Forall_forall. auto. Qed.

Lemma related_trans (w1 w2 w3 : World R) :
  related Q w1 w2 -> related Q w2 w3 -> related Q w1 w3.
Proof. unfold related. apply Forall2_trans. exact Q_trans. Qed.

Lemma related_same_heap (w w' : World R) : heap w' = heap w -> related Q w w'.
Proof. unfold related. intros ->. apply Forall_Forall2_diag, Forall_forall. auto. Qed.

Lemma agent_events_related (p : Prevalence) (prob ts : double) (agent : ptr)
  (w w' : World R) (u : unit) :
  agent_events p prob ts agent w = Ok (u, w') -> related Q w w'.
Proof.
  intros H. apply agent_events_Ok in H as (a & Ha & [[_ ->] | [_ H]]).
  - apply related_refl.
  - destruct H as (a1 & s1 & a2 & s2 & H1 & H2 & Hh & _).
    unfold related. rewrite Hh.
    rewrite <- (list_insert_id (heap w) agent a Ha) at 1.
    apply Forall2_insert.
    + apply Forall_Forall2_diag, Forall_forall. auto.
    + apply Q_trans with a1; [| apply Q_trans with a2].
      * pose proof (Q_infection (male_prevalence p) (female_prevalence p) a (rng w)) as HQ.
        rewrite H1 in HQ. exact HQ.
      * pose proof (Q_stage prob a1 s1) as HQ. rewrite H2 in HQ. exact HQ.
      * apply Q_age.
Qed.

Lemma for_each_agent_events_related (p : Prevalence) (prob ts : double)
  (agents : list ptr) (w w' : World R) (u : unit) :
  for_each (agent_events p prob ts) agents w = Ok (u, w') -> related Q w w'.
Proof.
  revert w. induction agents as [|agent rest IH]; intros w H; simpl in H.
  - inv_run H. apply related_refl.
  - inv_run H. eapply related_trans.
    + eapply agent_events_related. exact Hrun.
    + apply IH. exact Hrun0.
Qed.

Lemma simulate_step_related (ts sd prob : double) (i : Z)
  (agents agents' : list ptr) (w w' : World R) :
  simulate_step ts sd prob i agents w = Ok (agents', w') -> related Q w w'.
Proof.
  intros H. apply simulate_step_Ok in H as (_ & p & w2 & _ & Hf & Hr).
  apply for_each_agent_events_related in Hf.
  apply report_Ok in Hr as (Hh & _).
  eapply related_trans; [exact Hf | apply related_same_heap, Hh].
Qed.

Lemma simulate_loop_related (n : nat) (ts sd prob : double) (i : Z)
  (agents agents' : list ptr) (w w' : World R) :
  simulate_loop n ts sd prob i agents w = Ok (agents', w') -> related Q w w'.
Proof.
  revert i agents w. induction n as [|n IH]; intros i agents w H; simpl in H.
  - apply ret_Ok in H as [_ ->]. apply related_refl.
  - apply bind_Ok in H as (l & w1 & Hs & H).
    eapply related_trans; [eapply simulate_step_related; exact Hs |].
    eapply IH. exact H.
Qed.

End HeapRelation.

(** ** [simulate] as a loop *)

Lemma simulate_Ok {R : RandomSource} (agents agents' : list ptr)
  (parameters : ParameterMap) (w w' : World R) :
  simulate agents parameters w = Ok (agents', w') ->
  exists (n : nat) (ts sd prob : double),
    parameters !! "TIME_STEP" = Some ts /\
    parameters !! "START_DATE" = Some sd /\
    parameters !! "LEAVE_ACUTE_INFECTION" = Some prob /\
    simulate_loop n ts sd prob 0 agents w = Ok (agents', w').
Proof.
  unfold simulate, at_. intros H.
  destruct (parameters !! "NUM_YEARS") as [ny|]; [| discriminate].
  destruct (parameters !! "TIME_STEP") as [ts|]; [| discriminate].
  destruct (parameters !! "START_DATE") as [sd|]; [| discriminate].
  destruct (parameters !! "LEAVE_ACUTE_INFECTION") as [prob|]; [| discriminate].
  unfold bind at 1 2 3 4 in H. simpl in H.
  apply bind_Ok in H as (n & w1 & Hn & H).
  unfold double_to_unsigned in Hn.
  destruct (truncate (div ny ts)) as [k|]; [| discriminate].
  destruct (_ && _); [| discriminate].
  apply ret_Ok in Hn as [-> ->].
  exists (Z.to_nat n), ts, sd, prob. auto.
Qed.


(** ** The infection event (C2) *)

(** C2. For an agent with [hiv == 0], [simple_infection_event] draws one
    uniform [u] and sets [hiv] to 1 exactly when
    [u < force_infection_attribute * partner_forming_attribute * prevalence],
    the prevalence being the females' for a male agent and the males' for
    a female one; otherwise the agent is unchanged. For an agent with
    [hiv > 0] nothing changes and nothing is drawn. *)
Theorem simple_infection_event_spec (R : RandomSource)
  (prevalence_males prevalence_females : double) (a : Agent) (s : rng_state) :
  let u := (uniform_real_distribution zero d1 s).1 in
  let s' := (uniform_real_distribution zero d1 s).2 in
  let prevalence :=
    match sex a with MALE => prevalence_females | FEMALE => prevalence_males end in
  let risk :=
    mul (mul (force_infection_attribute a) (partner_forming_attribute a)) prevalence in
  (hiv a = 0%Z -> ltb u risk = true ->
     simple_infection_event prevalence_males prevalence_females a s = (set_hiv 1 a, s')) /\
  (hiv a = 0%Z -> ltb u risk = false ->
     simple_infection_event prevalence_males prevalence_females a s = (a, s')) /\
  (hiv a = 0%Z ->
     (hiv (simple_infection_event prevalence_males prevalence_females a s).1 = 1%Z
      <-> ltb u risk = true)) /\
  (hiv a <> 0%Z ->
     simple_infection_event prevalence_males prevalence_females a s = (a, s)).
Proof.
  intros u s' prevalence risk. subst u s' prevalence risk.
  unfold simple_infection_event.
  destruct (uniform_real_distribution zero d1 s) as [u s'] eqn:Hu. simpl.
  split; [| split; [| split]].
  - intros -> ->. reflexivity.
  - intros -> ->. reflexivity.
  - intros E. rewrite E. simpl. destruct (ltb u _); simpl.
    + tauto.
    + rewrite E. split; discriminate.
  - intros Hne. destruct (Z.eqb_spec (hiv a) 0); [contradiction | reflexivity].
Qed.

(** ** Stage progression (C3, C7) *)

Lemma stage_progress_events (R : RandomSource) :
  (forall pm pf a s, stage_progress a (simple_infection_event pm pf a s).1) /\
  (forall prob a s, stage_progress a (stage_advance_event prob a s).1) /\
  (forall dt a, stage_progress a (age_event dt a)).
Proof.
  unfold stage_progress. split; [| split].
  - intros pm pf a s. destruct (simple_infection_event_hiv pm pf a s) as [-> | [E ->]];
      [left; reflexivity | right; lia].
  - intros prob a s. destruct (stage_advance_event_hiv prob a s) as [-> | [E ->]];
      [left; reflexivity | right; lia].
  - intros dt a. left. reflexivity.
Qed.

Lemma stage_progress_not_lower (a a' : Agent) :
  stage_progress a a' -> stage_not_lower a a'.
Proof. unfold stage_progress, stage_not_lower. lia. Qed.

Lemma simulate_loop_stage_progress (R : RandomSource) (n : nat) (ts sd prob : double)
  (i : Z) (agents agents' : list ptr) (w w' : World R) :
  simulate_loop n ts sd prob i agents w = Ok (agents', w') ->
  Forall2 stage_progress (heap w) (heap w').
Proof.
  destruct (stage_progress_events R) as (Hi & Hs & Ha).
  apply (simulate_loop_related stage_progress); auto.
  - intros a. left. reflexivity.
  - unfold stage_progress. intros a b c. lia.
Qed.

(** C3. [stage_advance_event] moves [hiv] from 1 to 2 exactly when
    [hiv == 1] and the uniform draw is below [prob_leave_acute_infection]:
    the agent returned then has [hiv = 2] and every other member as it
    was; an agent at any other stage is unchanged and nothing is drawn
    for it. So the stage after the event is 2 when the stage was 1 and
    the draw was below the probability, and the stage before otherwise.
    Over any number of iterations of [simulate], an agent's stage
    either stays what it was or rises to 1 or to 2: an agent at stage 2
    or beyond never moves, and the stages 3 to 5 are never entered. *)
Theorem stage_advance_event_spec (R : RandomSource) :
  (forall (prob : double) (a : Agent) (s : rng_state),
     let u := (uniform_real_distribution zero d1 s).1 in
     let s' := (uniform_real_distribution zero d1 s).2 in
     (hiv a = 1%Z -> ltb u prob = true ->
        stage_advance_event prob a s
          = ({| id := id a; sex := sex a; age := age a; hiv := 2;
                alive := alive a; partners := partners a;
                relationship_stickiness_attribute :=
                  relationship_stickiness_attribute a;
                partner_forming_attribute := partner_forming_attribute a;
                concurrency_attribute := concurrency_attribute a;
                sexual_drive_attribute := sexual_drive_attribute a;
                preference_fifs_attribute := preference_fifs_attribute a;
                force_infection_attribute := force_infection_attribute a |}, s')) /\
     (hiv a = 1%Z -> ltb u prob = false ->
        stage_advance_event prob a s = (a, s')) /\
     (hiv a <> 1%Z -> stage_advance_event prob a s = (a, s)) /\
     hiv (stage_advance_event prob a s).1
       = (if (hiv a =? 1)%Z && ltb u prob then 2%Z else hiv a) /\
     (hiv (stage_advance_event prob a s).1 = 2%Z <->
      hiv a = 2%Z \/ (hiv a = 1%Z /\ ltb u prob = true))) /\
  (forall (n : nat) (ts sd prob : double) (i : Z) (agents agents' : list ptr)
          (w w' : World R),
     simulate_loop n ts sd prob i agents w = Ok (agents', w') ->
     forall (agent : ptr) (a : Agent),
       heap w !! agent = Some a ->
       exists a', heap w' !! agent = Some a' /\
         (hiv a' = hiv a \/ (hiv a < hiv a' /\ hiv a' <= 2)%Z) /\
         ((2 <= hiv a)%Z -> hiv a' = hiv a)).
Proof.
  split.
  - intros prob a s u s'. subst u s'. unfold stage_advance_event.
    destruct (uniform_real_distribution zero d1 s) as [u s']. cbn [fst snd].
    split; [| split; [| split; [| split]]].
    + intros E ->. rewrite E. reflexivity.
    + intros E ->. rewrite E. reflexivity.
    + intros Hne. destruct (Z.eqb_spec (hiv a) 1); [contradiction | reflexivity].
    + destruct (Z.eqb_spec (hiv a) 1) as [E | Hne]; [| reflexivity].
      destruct (ltb u prob); cbn [andb fst]; [rewrite E; reflexivity | reflexivity].
    + destruct (Z.eqb_spec (hiv a) 1) as [E | Hne].
      * destruct (ltb u prob); cbn [fst].
        -- cbn [set_hiv hiv]. rewrite E. split; [auto | reflexivity].
        -- rewrite E. split; [discriminate |]. intros [H | [_ H]]; discriminate.
      * cbn [fst]. split; [auto |]. intros [H | [H _]]; [exact H | contradiction].
  - intros n ts sd prob i agents agents' w w' H agent a Ha.
    apply simulate_loop_stage_progress in H.
    destruct (Forall2_lookup_l _ _ _ _ _ H Ha) as (a' & Ha' & HQ).
    exists a'. split; [exact Ha' |]. split; [exact HQ |].
    unfold stage_progress in HQ. lia.
Qed.

(** C7. The stage of an agent never decreases: none of the three events
    lowers it, and after any number of iterations of [simulate] every
    agent of the heap is still there with a stage at least what it was. *)
Theorem hiv_non_decreasing (R : RandomSource) :
  (forall (pm pf prob dt : double) (a : Agent) (s : rng_state),
     (hiv a <= hiv (simple_infection_event pm pf a s).1)%Z /\
     (hiv a <= hiv (stage_advance_event prob a s).1)%Z /\
     (hiv a <= hiv (age_event dt a))%Z) /\
  (forall (n : nat) (ts sd prob : double) (i : Z) (agents agents' : list ptr)
          (w w' : World R),
     simulate_loop n ts sd prob i agents w = Ok (agents', w') ->
     forall (agent : ptr) (a : Agent),
       heap w !! agent = Some a ->
       exists a', heap w' !! agent = Some a' /\ (hiv a <= hiv a')%Z) /\
  (forall (agents agents' : list ptr) (parameters : ParameterMap) (w w' : World R),
     simulate agents parameters w = Ok (agents', w') ->
     forall (agent : ptr) (a : Agent),
       heap w !! agent = Some a ->
       exists a', heap w' !! agent = Some a' /\ (hiv a <= hiv a')%Z).
Proof.
  destruct (stage_progress_events R) as (Hi & Hs & Ha).
  assert (Hloop : forall n ts sd prob i agents agents' (w w' : World R),
    simulate_loop n ts sd prob i agents w = Ok (agents', w') ->
    forall agent a, heap w !! agent = Some a ->
    exists a', heap w' !! agent = Some a' /\ (hiv a <= hiv a')%Z).
  { intros n ts sd prob i agents agents' w w' H agent a Hl.
    apply simulate_loop_stage_progress in H.
    destruct (Forall2_lookup_l _ _ _ _ _ H Hl) as (a' & Ha' & HQ).
    exists a'. split; [exact Ha' | apply stage_progress_not_lower, HQ]. }
  split; [| split].
  - intros pm pf prob dt a s. split; [| split]; apply stage_progress_not_lower; auto.
  - exact Hloop.
  - intros agents agents' parameters w w' H.
    apply simulate_Ok in H as (n & ts & sd & prob & _ & _ & _ & H).
    eapply Hloop. exact H.
Qed.

(** ** The aggregate (C5, C10) *)

Lemma to_unsigned_range (n : Z) : (0 <= to_unsigned n < UINT_MODULUS)%Z.
Proof. unfold to_unsigned, UINT_MODULUS. apply Z.mod_pos_bound. lia. Qed.

Lemma to_unsigned_small (n : Z) : (0 <= n < UINT_MODULUS)%Z -> to_unsigned n = n.
Proof. unfold to_unsigned. apply Z.mod_small. Qed.

Lemma to_unsigned_incr (n k : Z) : to_unsigned (incr n + k) = to_unsigned (n + 1 + k).
Proof. unfold incr, to_unsigned. apply Zplus_mod_idemp_l. Qed.

(** The counters after one agent, by sex. *)
Lemma count_agent_counts (x : Sex) (a : Agent) (p : Prevalence) :
  alive_of x (count_agent a p)
    = (if counted x a then incr (alive_of x p) else alive_of x p) /\
  infected_of x (count_agent a p)
    = (if counted x a && infected a then incr (infected_of x p) else infected_of x p).
Proof.
  unfold count_agent, counted, infected.
  destruct x, (alive a), (sex a), (0 <? hiv a)%Z; simpl; auto.
Qed.

(** The counters at the end of the loop are the numbers of entries
    counted, modulo [2^32]. *)
Lemma count_agents_counts (x : Sex) (h : list Agent) (agents : list ptr)
  (p0 p : Prevalence) :
  count_agents h agents p0 = Ok p ->
  to_unsigned (alive_of x p)
    = to_unsigned (alive_of x p0 + Z.of_nat (alive_count x h agents)) /\
  to_unsigned (infected_of x p)
    = to_unsigned (infected_of x p0 + Z.of_nat (infected_alive_count x h agents)).
Proof.
  revert p0. induction agents as [|agent rest IH]; intros p0 H;
    cbn [count_agents alive_count infected_alive_count] in *.
  - injection H as ->. simpl. rewrite !Z.add_0_r. auto.
  - destruct (h !! agent) as [a|]; [| discriminate].
    apply IH in H as [Ha Hi]. rewrite Ha, Hi.
    destruct (count_agent_counts x a p0) as [-> ->].
    split.
    + destruct (counted x a).
      * rewrite to_unsigned_incr. f_equal. lia.
      * f_equal.
    + destruct (counted x a && infected a).
      * rewrite to_unsigned_incr. f_equal. lia.
      * f_equal.
Qed.

Lemma count_agent_range (x : Sex) (a : Agent) (p : Prevalence) :
  (0 <= alive_of x p < UINT_MODULUS)%Z /\ (0 <= infected_of x p < UINT_MODULUS)%Z ->
  (0 <= alive_of x (count_agent a p) < UINT_MODULUS)%Z /\
  (0 <= infected_of x (count_agent a p) < UINT_MODULUS)%Z.
Proof.
  intros [Ha Hi]. destruct (count_agent_counts x a p) as [-> ->].
  split; [destruct (counted x a) | destruct (counted x a && infected a)];
    auto; apply to_unsigned_range.
Qed.

Lemma count_agents_range (x : Sex) (h : list Agent) (agents : list ptr)
  (p0 p : Prevalence) :
  count_agents h agents p0 = Ok p ->
  (0 <= alive_of x p0 < UINT_MODULUS)%Z /\ (0 <= infected_of x p0 < UINT_MODULUS)%Z ->
  (0 <= alive_of x p < UINT_MODULUS)%Z /\ (0 <= infected_of x p < UINT_MODULUS)%Z.
Proof.
  revert p0. induction agents as [|agent rest IH]; intros p0 H Hr;
    cbn [count_agents] in H.
  - injection H as <-. exact Hr.
  - destruct (h !! agent) as [a|]; [| discriminate].
    eapply IH; [exact H | apply count_agent_range, Hr].
Qed.

Lemma infected_alive_count_le (x : Sex) (h : list Agent) (agents : list ptr) :
  infected_alive_count x h agents <= alive_count x h agents <= length agents.
Proof.
  induction agents as [|agent rest IH];
    cbn [alive_count infected_alive_count length]; [lia |].
  destruct (h !! agent) as [a|]; [| lia].
  destruct (counted x a), (infected a); simpl; lia.
Qed.

(** The loop returns when every pointer refers to an agent. *)
Lemma count_agents_total (h : list Agent) (agents : list ptr) (p0 : Prevalence) :
  valid_vector h agents -> exists p, count_agents h agents p0 = Ok p.
Proof.
  unfold valid_vector. intros Hv. revert p0.
  induction Hv as [|agent rest Hlt _ IH]; intros p0; cbn [count_agents].
  - eauto.
  - destruct (lookup_lt_is_Some_2 h agent Hlt) as [a ->]. apply IH.
Qed.

Lemma calc_prevalence_total (h : list Agent) (agents : list ptr) :
  valid_vector h agents -> exists p, calc_prevalence h agents = Ok p.
Proof.
  intros Hv. unfold calc_prevalence.
  destruct (count_agents_total h agents Prevalence_default Hv) as [q ->]. eauto.
Qed.

(** [calc_prevalence] in terms of the counts. *)
Lemma calc_prevalence_counts (x : Sex) (h : list Agent) (agents : list ptr)
  (p : Prevalence) :
  calc_prevalence h agents = Ok p ->
  alive_of x p = to_unsigned (Z.of_nat (alive_count x h agents)) /\
  infected_of x p = to_unsigned (Z.of_nat (infected_alive_count x h agents)) /\
  prevalence_of x p = div (of_Z (infected_of x p)) (of_Z (alive_of x p)).
Proof.
  unfold calc_prevalence. intros H.
  destruct (count_agents h agents Prevalence_default) as [q|e] eqn:Hq; [| discriminate].
  injection H as <-.
  destruct (count_agents_counts x _ _ _ _ Hq) as [Ha Hi].
  assert (Hr : (0 <= alive_of x q < UINT_MODULUS)%Z /\
               (0 <= infected_of x q < UINT_MODULUS)%Z).
  { eapply count_agents_range; [exact Hq |].
    destruct x; simpl; unfold UINT_MODULUS; lia. }
  destruct Hr as [Hra Hri].
  rewrite (to_unsigned_small _ Hra) in Ha. rewrite (to_unsigned_small _ Hri) in Hi.
  assert (E0 : forall k, (alive_of x Prevalence_default + k = k)%Z /\
                         (infected_of x Prevalence_default + k = k)%Z)
    by (intros k; destruct x; simpl; auto).
  rewrite (proj1 (E0 _)) in Ha. rewrite (proj2 (E0 _)) in Hi.
  destruct x; simpl in *; auto.
Qed.

Lemma count_agent_comm (a b : Agent) (p : Prevalence) :
  count_agent a (count_agent b p) = count_agent b (count_agent a p).
Proof.
  unfold count_agent.
  destruct (alive a), (sex a), (alive b), (sex b),
    (0 <? hiv a)%Z, (0 <? hiv b)%Z; reflexivity.
Qed.

Lemma count_agents_Permutation (h : list Agent) (agents agents' : list ptr)
  (p : Prevalence) :
  agents ≡ₚ agents' -> count_agents h agents p = count_agents h agents' p.
Proof.
  intros HP. revert p.
  induction HP as [| x l l' _ IH | x y l | l1 l2 l3 _ IH1 _ IH2]; intros p;
    cbn [count_agents].
  - reflexivity.
  - destruct (h !! x); [apply IH | reflexivity].
  - destruct (h !! x) as [a|], (h !! y) as [b|]; try reflexivity.
    rewrite count_agent_comm. reflexivity.
  - rewrite IH1. apply IH2.
Qed.

(** C5. When every pointer of the vector refers to an agent,
    [calc_prevalence] returns; the counters of a sex are the numbers of
    alive and of alive infected agents of that sex modulo [2^32], the
    second number never above the first; and when no alive agent of a
    sex is in the vector, that sex's two counters are 0 and its
    prevalence, the quotient [0.0 / 0.0], is a NaN. *)
Theorem calc_prevalence_degenerate (h : list Agent) (agents : list ptr) :
  valid_vector h agents ->
  exists p, calc_prevalence h agents = Ok p /\
    forall x : Sex,
      infected_alive_count x h agents <= alive_count x h agents /\
      alive_of x p = to_unsigned (Z.of_nat (alive_count x h agents)) /\
      infected_of x p = to_unsigned (Z.of_nat (infected_alive_count x h agents)) /\
      (Z.of_nat (length agents) < UINT_MODULUS -> infected_of x p <= alive_of x p)%Z /\
      (alive_count x h agents = 0 ->
         alive_of x p = 0%Z /\ infected_of x p = 0%Z /\
         is_nan (prevalence_of x p) = true).
Proof.
  intros Hv.
  destruct (calc_prevalence_total h agents Hv) as [p Hp].
  exists p. split; [exact Hp |]. intros x.
  destruct (calc_prevalence_counts x _ _ _ Hp) as (Ha & Hi & Hprev).
  pose proof (infected_alive_count_le x h agents) as Hle.
  split; [lia |]. split; [exact Ha |]. split; [exact Hi |]. split.
  - intros Hlen. rewrite Ha, Hi. rewrite !to_unsigned_small by lia. lia.
  - intros H0. assert (Hi0 : infected_alive_count x h agents = 0) by lia.
    rewrite H0 in Ha. rewrite Hi0 in Hi. change (to_unsigned (Z.of_nat 0)) with 0%Z in *.
    rewrite Hprev, Ha, Hi. auto.
Qed.

(** C10. [calc_prevalence] does not depend on the order of the vector:
    on a permutation of it the result is the same, counters and
    prevalences alike (and so is the failure on a dangling pointer).
    Hence, [std::shuffle] permuting the vector, the aggregate that
    [simulate] computes after the shuffle is the one of the vector
    before it. *)
Theorem calc_prevalence_Permutation (R : RandomSource) :
  (forall (h : list Agent) (agents agents' : list ptr),
     agents ≡ₚ agents' -> calc_prevalence h agents = calc_prevalence h agents') /\
  (shuffle_permutes R ->
   forall (h : list Agent) (agents : list ptr) (s : rng_state),
     calc_prevalence h (shuffle agents s).1 = calc_prevalence h agents).
Proof.
  assert (HP : forall h agents agents',
    agents ≡ₚ agents' -> calc_prevalence h agents = calc_prevalence h agents').
  { intros h agents agents' H. unfold calc_prevalence.
    rewrite (count_agents_Permutation h _ _ _ H). reflexivity. }
  split; [exact HP |].
  intros Hs h agents s. apply HP, Hs.
Qed.

(** ** The order of the calls in one iteration (C4) *)

Lemma same_alive_events (R : RandomSource) :
  (forall pm pf a s, same_alive a (simple_infection_event pm pf a s).1) /\
  (forall prob a s, same_alive a (stage_advance_event prob a s).1) /\
  (forall dt a, same_alive a (age_event dt a)).
Proof.
  unfold same_alive. split; [| split].
  - intros pm pf a s. apply simple_infection_event_frame.
  - intros prob a s. apply stage_advance_event_frame.
  - reflexivity.
Qed.

Lemma agent_calls_same_alive (h h' : list Agent) (p : Prevalence)
  (prob ts : double) (agent : ptr) :
  Forall2 same_alive h h' ->
  agent_calls h' p prob ts agent = agent_calls h p prob ts agent.
Proof.
  intros HF. unfold agent_calls.
  destruct (h !! agent) as [a|] eqn:Ha.
  - destruct (Forall2_lookup_l _ _ _ _ _ HF Ha) as (a' & -> & ->). reflexivity.
  - apply lookup_ge_None in Ha. rewrite (Forall2_length _ _ _ HF) in Ha.
    apply lookup_ge_None in Ha. rewrite Ha. reflexivity.
Qed.

Lemma agent_events_calls (R : RandomSource) (p : Prevalence) (prob ts : double)
  (agent : ptr) (w w' : World R) (u : unit) :
  agent_events p prob ts agent w = Ok (u, w') ->
  calls w' = calls w ++ agent_calls (heap w) p prob ts agent.
Proof.
  intros H. unfold agent_calls.
  apply agent_events_Ok in H as (a & -> & [[-> ->] | [-> H]]).
  - rewrite app_nil_r. reflexivity.
  - destruct H as (a1 & s1 & a2 & s2 & _ & _ & _ & _ & _ & Hc). exact Hc.
Qed.

Lemma for_each_agent_events_calls (R : RandomSource) (p : Prevalence)
  (prob ts : double) (agents : list ptr) (w w' : World R) (u : unit) :
  for_each (agent_events p prob ts) agents w = Ok (u, w') ->
  calls w' = calls w ++ concat (map (agent_calls (heap w) p prob ts) agents).
Proof.
  destruct (same_alive_events R) as (Hi & Hs & Ha).
  revert w. induction agents as [|agent rest IH]; intros w H; simpl in H.
  - apply ret_Ok in H as [_ ->]. simpl. rewrite app_nil_r. reflexivity.
  - apply bind_Ok in H as (? & w1 & Hx & H).
    pose proof (agent_events_calls R _ _ _ _ _ _ _ Hx) as Hc.
    apply (agent_events_related same_alive) in Hx;
      [| reflexivity | unfold same_alive; congruence | auto ..].
    apply IH in H. rewrite H, Hc. simpl. rewrite <- app_assoc. do 2 f_equal.
    f_equal. apply map_ext. intros agent'. apply agent_calls_same_alive, Hx.
Qed.

(** What the visits of one iteration make of the heap and the engine:
    what the specification's timestep makes of them. *)
Lemma for_each_agent_events_visit_all (R : RandomSource) (p : Prevalence)
  (prob ts : double) (agents : list ptr) (w w' : World R) (u : unit) :
  for_each (agent_events p prob ts) agents w = Ok (u, w') ->
  (heap w', rng w') = foldl (visit p prob ts) (heap w, rng w) agents.
Proof.
  revert w. induction agents as [|agent rest IH]; intros w H; cbn [for_each foldl] in *.
  - apply ret_Ok in H as [_ ->]. reflexivity.
  - apply bind_Ok in H as (? & w1 & Hx & H).
    apply IH in H. rewrite H. f_equal.
    apply agent_events_Ok in Hx as (a & Ha & [(Hd & ->) | (Hal & a1 & s1 & a2 & s2 & H1 & H2 & Hh & Hr & _)]).
    + unfold visit. cbn [fst snd]. rewrite Ha, Hd. reflexivity.
    + unfold visit, events_in_order. cbn [fst snd]. rewrite Ha, Hal, H1. cbn [fst snd].
      rewrite H2. cbn [fst snd]. rewrite Hh, Hr. reflexivity.
Qed.

(** C4, as the code has it. In one iteration of [simulate] the calls are,
    in this order: the shuffle; [calc_prevalence] on the shuffled vector
    and the heap as the iteration found it, returning [p]; for each
    entry of the vector in turn that points to an alive agent, the
    infection event with the two prevalences of [p], the stage-advance
    event and the age event; then [report], which calls
    [calc_prevalence] a second time, on the heap as the events left it.
    And the calls have their effect: the heap and the engine at the end
    of the iteration are those that the visits of the entries in turn
    make of the heap of the start and of the engine after the shuffle,
    every alive agent undergoing the infection event with the
    prevalences of that one [p], then the stage-advance event, then the
    age event. *)
Theorem simulate_step_calls (R : RandomSource) (ts sd prob : double) (i : Z)
  (agents agents' : list ptr) (w w' : World R) :
  simulate_step ts sd prob i agents w = Ok (agents', w') ->
  agents' = (shuffle agents (rng w)).1 /\
  exists p p',
    calc_prevalence (heap w) agents' = Ok p /\
    calc_prevalence (heap w') agents' = Ok p' /\
    calls w' =
      calls w ++
      [call_shuffle; call_calc_prevalence p] ++
      concat (map (agent_calls (heap w) p prob ts) agents') ++
      [call_report (add sd (mul ts (of_Z i))); call_calc_prevalence p'] /\
    (heap w', rng w')
      = foldl (visit p prob ts) (heap w, (shuffle agents (rng w)).2) agents'.
Proof.
  intros H. apply simulate_step_Ok in H as (Hs & p & w2 & Hp & Hf & Hr).
  split; [exact Hs |].
  pose proof (for_each_agent_events_visit_all R _ _ _ _ _ _ _ Hf) as Hv.
  apply for_each_agent_events_calls in Hf. simpl in Hf.
  apply report_Ok in Hr as (Hh & Hrng & p' & row & Hp' & Hc & _).
  exists p, p'. rewrite Hh. split; [exact Hp |]. split; [exact Hp' |].
  split.
  - rewrite Hc, Hf. rewrite <- !app_assoc. reflexivity.
  - rewrite Hrng, Hv. reflexivity.
Qed.

(** ** Initialization (C1, C8) *)

(** What a successful [init] assigns, in terms of the draws: the first
    three draws give the sex, the age and the stage, the fourth, a draw
    from Beta(2, MEAN_PARTNERSHIP_TIME / TIME_STEP * 2), is stored as it
    is in [relationship_stickiness_attribute], and the last gives the
    force of infection from the mean risk of the agent's sex. *)
Lemma init_Ok (R : RandomSource) (i : Z) (parameters : ParameterMap)
  (this a' : Agent) (s s' : rng_state) :
  init i parameters this s = Ok (a', s') ->
  let b := bernoulli_distribution d0_5 s in
  let u := uniform_real_distribution d15 d20 b.2 in
  let g := geometric_distribution d0_9 u.2 in
  exists (mpt ts mr : double) (sf : rng_state),
    parameters !! "MEAN_PARTNERSHIP_TIME" = Some mpt /\
    parameters !! "TIME_STEP" = Some ts /\
    parameters !! mean_risk_key (sex a') = Some mr /\
    id a' = i /\
    sex a' = (if b.1 then FEMALE else MALE) /\
    age a' = u.1 /\
    hiv a' = to_unsigned (Z.min g.1 5) /\
    alive a' = true /\
    relationship_stickiness_attribute a'
      = (beta_distribution d2 (mul (div mpt ts) d2) g.2).1 /\
    force_infection_attribute a'
      = (beta_distribution d2 (sub (div d2 mr) d2) sf).1.
Proof.
  intros H b u g. subst b u g. unfold init, at_ in H.
  unfold bind at 1, draw at 1 in H.
  destruct (bernoulli_distribution d0_5 s) as [b s1]. simpl.
  unfold bind at 1, draw at 1 in H.
  destruct (uniform_real_distribution d15 d20 s1) as [u s2]. simpl.
  unfold bind at 1, draw at 1 in H.
  destruct (geometric_distribution d0_9 s2) as [g s3]. simpl.
  destruct (parameters !! "MEAN_PARTNERSHIP_TIME") as [mpt|]; [| discriminate].
  destruct (parameters !! "TIME_STEP") as [ts|]; [| discriminate].
  unfold bind at 1 2 3, ret at 1 2, draw at 1 in H.
  destruct (beta_distribution d2 (mul (div mpt ts) d2) s3) as [x1 s4] eqn:Hx1.
  destruct (parameters !! "MEAN_TIME_UNTIL_PARTNER") as [m2|]; [| discriminate].
  unfold bind at 1 2 3, ret at 1 2, draw at 1 in H.
  destruct (beta_distribution d2 (mul (div m2 ts) d2) s4) as [x2 s5].
  destruct (parameters !! "MEAN_TIME_CONCURRENT") as [m3|]; [| discriminate].
  unfold bind at 1 2 3, ret at 1 2, draw at 1 in H.
  destruct (beta_distribution d2 (mul (div m3 ts) d2) s5) as [x3 s6].
  destruct (parameters !! "MEAN_TIME_SEX") as [m4|]; [| discriminate].
  unfold bind at 1 2 3, ret at 1 2, draw at 1 in H.
  destruct (beta_distribution d2 (mul (div m4 ts) d2) s6) as [x4 s7].
  destruct (parameters !! "PREFERENCE_FIFS") as [m5|]; [| discriminate].
  unfold bind at 1 2, ret at 1, draw at 1 in H.
  destruct (beta_distribution d2 (sub (div d2 m5) d2) s7) as [x5 s8].
  apply bind_Ok in H as (force & s9 & Hf & H). apply ret_Ok in H as [<- <-].
  simpl.
  assert (Hforce : exists mr,
    parameters !! mean_risk_key (if b then FEMALE else MALE) = Some mr /\
    force = (beta_distribution d2 (sub (div d2 mr) d2) s8).1).
  { destruct b; simpl.
    - destruct (parameters !! "MEAN_RISK_HET_FEMALE_SEX") as [mr|]; [| discriminate].
      unfold bind, ret, draw in Hf. injection Hf as Hf. exists mr.
      rewrite Hf. auto.
    - destruct (parameters !! "MEAN_RISK_HET_MALE_SEX") as [mr|]; [| discriminate].
      unfold bind, ret, draw in Hf. injection Hf as Hf. exists mr.
      rewrite Hf. auto. }
  destruct Hforce as (mr & Hmr & ->).
  exists mpt, ts, mr, s8. rewrite Hx1. simpl. repeat split; auto.
Qed.

(** [initialize_agents] appends one agent per slot to the heap and fills
    the vector with the pointers to them, in order; each new agent is as
    [init] left it. *)
Lemma initialize_agents_from_Ok (R : RandomSource) (P : Agent -> Prop)
  (parameters : ParameterMap) :
  (forall i this s a' s', init i parameters this s = Ok (a', s') -> P a') ->
  forall (agents : list ptr) (i : Z) (agents' : list ptr) (w w' : World R),
    initialize_agents_from i agents parameters w = Ok (agents', w') ->
    agents' = seq (length (heap w)) (length agents) /\
    exists new, heap w' = heap w ++ new /\ length new = length agents /\ Forall P new.
Proof.
  intros HP agents. induction agents as [|x rest IH]; intros i agents' w w' H;
    cbn [initialize_agents_from] in H.
  - apply ret_Ok in H as [<- <-]. split; [reflexivity |].
    exists []. rewrite app_nil_r. auto.
  - apply bind_Ok in H as (agent & w1 & Hn & H).
    unfold new_ in Hn. injection Hn as <- <-.
    apply bind_Ok in H as (? & w2 & Hi & H).
    apply invoke_Ok in Hi as (a & a1 & Ha & Hinit & Hh & _). simpl in Hh, Hinit.
    rewrite insert_app_r_alt, Nat.sub_diag in Hh by lia. simpl in Hh.
    apply bind_Ok in H as (rest' & w3 & Hrest & H). apply ret_Ok in H as [<- <-].
    apply IH in Hrest as (-> & new & Hnew & Hlen & HF).
    rewrite Hh in Hnew. rewrite Hh, length_app. simpl.
    rewrite Nat.add_1_r. split; [reflexivity |].
    exists (a1 :: new). rewrite Hnew, <- app_assoc. simpl.
    split; [reflexivity |]. split; [lia |].
    constructor; [eapply HP; exact Hinit | exact HF].
Qed.

(** ** The population of a run *)

Lemma population_valid (h : list Agent) (agents : list ptr) :
  population h agents -> valid_vector h agents.
Proof.
  intros [_ H]. apply Forall_forall. intros agent Hin.
  destruct (H agent Hin) as (a & Ha & _). eapply lookup_lt_Some. exact Ha.
Qed.

Lemma initialize_agents_population (R : RandomSource) (P : Agent -> Prop)
  (parameters : ParameterMap) (agents agents' : list ptr) (w w' : World R) :
  (forall i this s a' s', init i parameters this s = Ok (a', s') -> P a') ->
  initialize_agents agents parameters w = Ok (agents', w') ->
  population (heap w') agents' /\
  length agents' = length agents /\
  (forall agent, agent ∈ agents' ->
     exists a, heap w' !! agent = Some a /\ P a) /\
  (Forall P (heap w) -> Forall P (heap w')).
Proof.
  intros HP H. unfold initialize_agents in H.
  apply (initialize_agents_from_Ok R (fun a => alive a = true /\ P a)) in H.
  - destruct H as (-> & new & Hh & Hlen & HF).
    assert (Hlook : forall agent, agent ∈ seq (length (heap w)) (length agents) ->
      exists a, heap w' !! agent = Some a /\ alive a = true /\ P a).
    { intros agent Hin. apply elem_of_seq in Hin.
      rewrite Hh, lookup_app_r by lia.
      destruct (lookup_lt_is_Some_2 new (agent - length (heap w))) as [a Ha]; [lia |].
      exists a. split; [exact Ha |]. eapply Forall_lookup_1 in HF; eauto. }
    split; [split |]; [apply NoDup_seq | | split; [apply length_seq | split]].
    + intros agent Hin. destruct (Hlook agent Hin) as (a & Ha & Hal & _). eauto.
    + intros agent Hin. destruct (Hlook agent Hin) as (a & Ha & _ & HPa). eauto.
    + intros HF0. rewrite Hh. apply Forall_app. split; [exact HF0 |].
      eapply Forall_impl; [exact HF | intros a [_ HPa]; exact HPa].
  - intros i this s a' s' Hinit. split; [| eapply HP; exact Hinit].
    apply init_Ok in Hinit. simpl in Hinit.
    destruct Hinit as (? & ? & ? & ? & ? & ? & ? & ? & ? & ? & ? & Hal & ?). exact Hal.
Qed.

(** ** Ageing (C9) *)

(** After the loop over a vector without repetition, an agent that the
    vector points to and that is alive has aged once; an agent that the
    vector does not point to is as it was. *)
Lemma for_each_agent_events_visit (R : RandomSource) (p : Prevalence)
  (prob ts : double) (agents : list ptr) (w w' : World R) (u : unit) :
  NoDup agents ->
  for_each (agent_events p prob ts) agents w = Ok (u, w') ->
  forall (agent : ptr) (a : Agent),
    heap w !! agent = Some a ->
    exists a', heap w' !! agent = Some a' /\ alive a' = alive a /\
      (agent ∈ agents -> alive a = true -> age a' = add (age a) ts) /\
      (agent ∉ agents -> a' = a).
Proof.
  intros HND. revert w.
  induction agents as [|x rest IH]; intros w H agent a Ha; simpl in H.
  - apply ret_Ok in H as [_ <-]. exists a. repeat split; auto.
    intros Hin. apply elem_of_nil in Hin. contradiction.
  - apply NoDup_cons in HND as [Hx HND].
    apply bind_Ok in H as (? & w1 & Hev & H).
    specialize (IH HND w1 H).
    apply agent_events_Ok in Hev as (ax & Hax & Hev).
    destruct (decide (agent = x)) as [-> | Hne].
    + rewrite Hax in Ha. injection Ha as ->.
      destruct Hev as [[Hdead ->] | [Hal Hev]].
      * destruct (IH x a Hax) as (a' & Ha' & Hal' & _ & Hsame).
        exists a'. split; [exact Ha' |]. split; [exact Hal' |]. split.
        -- intros _ Habs. congruence.
        -- intros Hnot. exfalso. apply Hnot. left.
      * destruct Hev as (a1 & s1 & a2 & s2 & H1 & H2 & Hh & _).
        assert (Hx1 : heap w1 !! x = Some (age_event ts a2)).
        { rewrite Hh. apply list_lookup_insert_eq. eapply lookup_lt_Some. exact Hax. }
        destruct (IH x _ Hx1) as (a' & Ha' & Hal' & _ & Hsame).
        specialize (Hsame Hx). subst a'.
        pose proof (simple_infection_event_frame
                      (male_prevalence p) (female_prevalence p) a (rng w)) as F1.
        rewrite H1 in F1. simpl in F1. destruct F1 as (F1a & F1g & _).
        pose proof (stage_advance_event_frame prob a1 s1) as F2.
        rewrite H2 in F2. simpl in F2. destruct F2 as (F2a & F2g & _).
        exists (age_event ts a2). split; [exact Ha' |]. split.
        -- simpl. congruence.
        -- split.
           ++ intros _ _. simpl. congruence.
           ++ intros Hnot. exfalso. apply Hnot. left.
    + assert (Ha1 : heap w1 !! agent = Some a).
      { destruct Hev as [[_ ->] | [_ Hev]]; [exact Ha |].
        destruct Hev as (a1 & s1 & a2 & s2 & _ & _ & Hh & _).
        rewrite Hh, list_lookup_insert_ne by congruence. exact Ha. }
      destruct (IH agent a Ha1) as (a' & Ha' & Hal' & Hin' & Hout').
      exists a'. split; [exact Ha' |]. split; [exact Hal' |]. split.
      * intros Hin. apply elem_of_cons in Hin as [-> | Hin]; [contradiction |].
        auto.
      * intros Hnot. apply Hout'. intros Hin. apply Hnot. right. exact Hin.
Qed.

(** One iteration keeps the population a population and ages each of its
    agents once. *)
Lemma simulate_step_population (R : RandomSource) (ts sd prob : double) (i : Z)
  (agents agents' : list ptr) (w w' : World R) :
  shuffle_permutes R ->
  population (heap w) agents ->
  simulate_step ts sd prob i agents w = Ok (agents', w') ->
  population (heap w') agents' /\ agents' ≡ₚ agents /\
  forall agent, agent ∈ agents ->
    exists a a', heap w !! agent = Some a /\ heap w' !! agent = Some a' /\
      alive a' = true /\ age a' = add (age a) ts.
Proof.
  intros Hsh [HND Hpop] H.
  apply simulate_step_Ok in H as (Hs & p & w2 & _ & Hf & Hr).
  assert (HP : agents' ≡ₚ agents) by (rewrite Hs; apply Hsh).
  apply report_Ok in Hr as (Hh & _).
  assert (HND' : NoDup agents') by (rewrite HP; exact HND).
  pose proof (for_each_agent_events_visit R _ _ _ _ _ _ _ HND' Hf) as Hvisit.
  simpl in Hvisit.
  assert (Hall : forall agent, agent ∈ agents ->
    exists a a', heap w !! agent = Some a /\ heap w' !! agent = Some a' /\
      alive a' = true /\ age a' = add (age a) ts).
  { intros agent Hin. destruct (Hpop agent Hin) as (a & Ha & Hal).
    destruct (Hvisit agent a Ha) as (a' & Ha' & Hal' & Hage & _).
    exists a, a'. rewrite Hh. split; [exact Ha |]. split; [exact Ha' |].
    split; [congruence |]. apply Hage; [rewrite HP; exact Hin | exact Hal]. }
  split; [split |]; [exact HND' | | split; [exact HP | exact Hall]].
  intros agent Hin. rewrite HP in Hin.
  destruct (Hall agent Hin) as (a & a' & _ & Ha' & Hal' & _). eauto.
Qed.



(** ** The run never leaves the defined behaviour (C8) *)

Lemma invoke_total (R : RandomSource) (agent : ptr)
  (m : Agent -> St rng_state Agent) (w : World R) (a : Agent)
  (r : Agent * rng_state) :
  heap w !! agent = Some a ->
  m a (rng w) = Ok r ->
  invoke agent m w
    = Ok (tt, {| heap := <[agent := r.1]> (heap w); rng := r.2;
                 cout := cout w; calls := calls w |}).
Proof.
  intros Ha Hm. unfold invoke, bind, deref, with_rng, store.
  rewrite Ha, Hm. destruct r as [a' s']. reflexivity.
Qed.

Lemma agent_events_total (R : RandomSource) (p : Prevalence) (prob ts : double)
  (agent : ptr) (w : World R) :
  agent < length (heap w) ->
  exists w', agent_events p prob ts agent w = Ok (tt, w').
Proof.
  intros Hlt. destruct (lookup_lt_is_Some_2 _ _ Hlt) as [a Ha].
  unfold agent_events.
  rewrite (bind_Ok_intro _ _ w w a) by (apply deref_Ok; auto).
  destruct (alive a); [| unfold ret; eauto].
  erewrite bind_Ok_intro by reflexivity.
  erewrite bind_Ok_intro
    by (eapply invoke_total; [exact Ha | reflexivity]).
  erewrite bind_Ok_intro by reflexivity.
  erewrite bind_Ok_intro
    by (eapply invoke_total;
        [cbn [heap]; apply list_lookup_insert_eq; exact Hlt | reflexivity]).
  erewrite bind_Ok_intro by reflexivity.
  erewrite invoke_total;
    [eauto
    | cbn [heap]; apply list_lookup_insert_eq; rewrite length_insert; exact Hlt
    | reflexivity].
Qed.

Lemma agent_events_length (R : RandomSource) (p : Prevalence) (prob ts : double)
  (agent : ptr) (w w' : World R) (u : unit) :
  agent_events p prob ts agent w = Ok (u, w') ->
  length (heap w') = length (heap w).
Proof.
  intros H. apply (agent_events_related (fun _ _ => True)) in H; auto.
  symmetry. eapply Forall2_length. exact H.
Qed.

Lemma for_each_agent_events_total (R : RandomSource) (p : Prevalence)
  (prob ts : double) (agents : list ptr) (w : World R) :
  valid_vector (heap w) agents ->
  exists w', for_each (agent_events p prob ts) agents w = Ok (tt, w').
Proof.
  unfold valid_vector. revert w.
  induction agents as [|agent rest IH]; intros w Hv; simpl.
  - unfold ret. eauto.
  - apply Forall_cons in Hv as [Hlt Hv].
    destruct (agent_events_total R p prob ts agent w Hlt) as [w1 H1].
    rewrite (bind_Ok_intro _ _ _ _ _ H1).
    apply IH. rewrite (agent_events_length R _ _ _ _ _ _ _ H1). exact Hv.
Qed.

(** The loop of [report] stays inside [hiv[6]] when the stages are in
    range. *)
Lemma count_stages_total (R : RandomSource) (agents : list ptr) (hiv_ : list Z)
  (w : World R) :
  Forall (fun agent => exists a, heap w !! agent = Some a /\ hiv_in_range a) agents ->
  length hiv_ = 6 ->
  exists hiv_', count_stages agents hiv_ w = Ok (hiv_', w).
Proof.
  intros Hv. revert hiv_.
  induction Hv as [|agent rest (a & Ha & Hr) _ IH]; intros hiv_ Hlen; simpl.
  - unfold ret. eauto.
  - unfold count_stage, bind at 1 2, deref. rewrite Ha.
    unfold hiv_in_range in Hr.
    destruct (lookup_lt_is_Some_2 hiv_ (Z.to_nat (hiv a))) as [k Hk]; [lia |].
    rewrite Hk. destruct (Z.leb_spec 0 (hiv a)); [| lia].
    unfold ret. apply IH. rewrite length_insert. exact Hlen.
Qed.

Lemma report_total (R : RandomSource) (date : double) (agents : list ptr)
  (w : World R) :
  Forall (fun agent => exists a, heap w !! agent = Some a /\ hiv_in_range a) agents ->
  exists w', report date agents w = Ok (tt, w').
Proof.
  intros Hv.
  assert (Hvalid : valid_vector (heap w) agents).
  { eapply Forall_impl; [exact Hv |]. intros agent (a & Ha & _).
    eapply lookup_lt_Some. exact Ha. }
  destruct (calc_prevalence_total (heap w) agents Hvalid) as (p & Hp).
  unfold report.
  erewrite bind_Ok_intro by reflexivity.
  erewrite bind_Ok_intro by (apply do_calc_prevalence_Ok; split; [exact Hp | reflexivity]).
  match goal with
  | |- context [bind (count_stages agents ?l) _ ?w1] =>
      destruct (count_stages_total R agents l w1) as [l' Hl']; [exact Hv | reflexivity |];
      rewrite (bind_Ok_intro _ _ _ _ _ Hl')
  end.
  unfold print. eauto.
Qed.

Lemma stage_progress_in_range (h h' : list Agent) :
  Forall2 stage_progress h h' -> Forall hiv_in_range h -> Forall hiv_in_range h'.
Proof.
  intros HF. induction HF as [|a a' h h' HQ _ IH]; intros Hr.
  - constructor.
  - apply Forall_cons in Hr as [Ha Hr]. constructor; [| apply IH, Hr].
    unfold stage_progress in HQ. unfold hiv_in_range in *. lia.
Qed.

Lemma population_in_range (h : list Agent) (agents : list ptr) :
  population h agents -> Forall hiv_in_range h ->
  Forall (fun agent => exists a, h !! agent = Some a /\ hiv_in_range a) agents.
Proof.
  intros [_ Hpop] Hr. apply Forall_forall. intros agent Hin.
  destruct (Hpop agent Hin) as (a & Ha & _). exists a. split; [exact Ha |].
  eapply Forall_lookup_1; eauto.
Qed.

Lemma population_Forall2 (Q : Agent -> Agent -> Prop) (h h' : list Agent)
  (agents : list ptr) :
  (forall a a', Q a a' -> alive a' = alive a) ->
  Forall2 Q h h' -> population h agents -> population h' agents.
Proof.
  intros HQ HF [HND Hpop]. split; [exact HND |].
  intros agent Hin. destruct (Hpop agent Hin) as (a & Ha & Hal).
  destruct (Forall2_lookup_l _ _ _ _ _ HF Ha) as (a' & Ha' & Haa').
  exists a'. split; [exact Ha' |]. rewrite (HQ _ _ Haa'). exact Hal.
Qed.

Lemma simulate_step_total (R : RandomSource) (ts sd prob : double) (i : Z)
  (agents : list ptr) (w : World R) :
  shuffle_permutes R ->
  population (heap w) agents -> Forall hiv_in_range (heap w) ->
  exists agents' w', simulate_step ts sd prob i agents w = Ok (agents', w').
Proof.
  intros Hsh Hpop Hr.
  pose (agents' := (shuffle agents (rng w)).1).
  assert (Hs : agents' = (shuffle agents (rng w)).1) by reflexivity.
  unfold simulate_step.
  erewrite bind_Ok_intro by (apply do_shuffle_Ok; split; reflexivity).
  fold agents'. clearbody agents'.
  assert (Hpop' : population (heap w) agents').
  { destruct Hpop as [HND Hpop]. assert (HP : agents' ≡ₚ agents) by (rewrite Hs; apply Hsh).
    split; [rewrite HP; exact HND |]. intros agent Hin. apply Hpop. rewrite <- HP. exact Hin. }
  destruct (calc_prevalence_total (heap w) agents' (population_valid _ _ Hpop'))
    as (p & Hp).
  match goal with
  | |- context [bind (do_calc_prevalence agents') _ ?w1] =>
      assert (Hc : do_calc_prevalence agents' w1
                   = Ok (p, {| heap := heap w1; rng := rng w1; cout := cout w1;
                               calls := calls w1 ++ [call_calc_prevalence p] |}))
        by (apply do_calc_prevalence_Ok; auto);
      rewrite (bind_Ok_intro _ _ _ _ _ Hc)
  end.
  cbn [heap rng cout calls].
  match goal with
  | |- context [bind (for_each ?f agents') _ ?w2] =>
      destruct (for_each_agent_events_total R p prob ts agents' w2) as [w3 Hf];
        [apply population_valid, Hpop' |];
      rewrite (bind_Ok_intro _ _ _ _ _ Hf)
  end.
  pose proof (for_each_agent_events_related stage_progress) as Hrel.
  destruct (stage_progress_events R) as (Qi & Qs & Qa).
  specialize (Hrel ltac:(intros a; left; reflexivity)
                   ltac:(unfold stage_progress; intros a b c; lia) Qi Qs Qa
                   _ _ _ _ _ _ _ Hf).
  unfold related in Hrel. cbn [heap] in Hrel.
  assert (Hr3 : Forall hiv_in_range (heap w3))
    by (eapply stage_progress_in_range; eauto).
  pose proof (for_each_agent_events_related same_alive) as Hrel'.
  destruct (same_alive_events R) as (Ai & As & Aa).
  specialize (Hrel' ltac:(reflexivity) ltac:(unfold same_alive; congruence) Ai As Aa
                    _ _ _ _ _ _ _ Hf).
  unfold related in Hrel'. cbn [heap] in Hrel'.
  assert (Hpop3 : population (heap w3) agents')
    by (eapply (population_Forall2 same_alive); eauto).
  destruct (report_total R (add sd (mul ts (of_Z i))) agents' w3) as [w4 Hrep];
    [apply population_in_range; assumption |].
  rewrite (bind_Ok_intro _ _ _ _ _ Hrep). unfold ret. eauto.
Qed.

Lemma simulate_step_in_range (R : RandomSource) (ts sd prob : double) (i : Z)
  (agents agents' : list ptr) (w w' : World R) :
  simulate_step ts sd prob i agents w = Ok (agents', w') ->
  Forall hiv_in_range (heap w) -> Forall hiv_in_range (heap w').
Proof.
  intros H. apply stage_progress_in_range.
  apply (simulate_loop_stage_progress R 1 ts sd prob i agents agents').
  simpl. rewrite (bind_Ok_intro _ _ _ _ _ H). reflexivity.
Qed.

Lemma simulate_loop_total (R : RandomSource) (n : nat) (ts sd prob : double)
  (i : Z) (agents : list ptr) (w : World R) :
  shuffle_permutes R ->
  population (heap w) agents -> Forall hiv_in_range (heap w) ->
  exists agents' w',
    simulate_loop n ts sd prob i agents w = Ok (agents', w') /\
    population (heap w') agents' /\ Forall hiv_in_range (heap w').
Proof.
  intros Hsh. revert i agents w.
  induction n as [|n IH]; intros i agents w Hpop Hr; simpl.
  - unfold ret. eauto.
  - destruct (simulate_step_total R ts sd prob i agents w Hsh Hpop Hr)
      as (agents1 & w1 & Hs).
    rewrite (bind_Ok_intro _ _ _ _ _ Hs).
    apply IH.
    + apply (simulate_step_population R _ _ _ _ _ _ _ _ Hsh Hpop Hs).
    + eapply simulate_step_in_range; eauto.
Qed.

Lemma init_hiv (R : RandomSource) (i : Z) (parameters : ParameterMap)
  (this a' : Agent) (s s' : rng_state) :
  geometric_range R ->
  init i parameters this s = Ok (a', s') ->
  hiv a' = Z.min (geometric_distribution d0_9
                    (uniform_real_distribution d15 d20
                       (bernoulli_distribution d0_5 s).2).2).1 5 /\
  hiv_in_range a'.
Proof.
  intros Hg H. apply init_Ok in H. simpl in H.
  destruct H as (? & ? & ? & ? & _ & _ & _ & _ & _ & _ & Hh & _).
  match type of Hh with
  | _ = to_unsigned (Z.min (geometric_distribution ?p ?t).1 5) =>
      pose proof (Hg p t) as Hrange
  end.
  rewrite to_unsigned_small in Hh by (unfold UINT_MODULUS; lia).
  split; [exact Hh |]. unfold hiv_in_range. lia.
Qed.

(** C8. [std::geometric_distribution<int>] drawing non-negative values
    and [std::shuffle] permuting the vector: [init] sets [hiv] to the
    minimum of the geometric draw and 5, a value in [0,5]; each of the
    three events keeps a stage in [0,5]; after [initialize_agents] every
    agent of the heap has its stage in [0,5] (those that were there
    before having it); from there the loop of [simulate] completes any
    number of iterations, each with its call of [report], without an
    index outside [hiv[6]] or any other undefined behaviour, every stage
    is in [0,5] afterwards, and a further [report] returns as well. *)
Theorem hiv_stays_in_range (R : RandomSource) :
  geometric_range R ->
  shuffle_permutes R ->
  (forall (i : Z) (parameters : ParameterMap) (this a' : Agent) (s s' : rng_state),
     init i parameters this s = Ok (a', s') ->
     hiv a' = Z.min (geometric_distribution d0_9
                       (uniform_real_distribution d15 d20
                          (bernoulli_distribution d0_5 s).2).2).1 5 /\
     (0 <= hiv a' <= 5)%Z) /\
  (forall (pm pf prob dt : double) (a : Agent) (s : rng_state),
     hiv_in_range a ->
     hiv_in_range (simple_infection_event pm pf a s).1 /\
     hiv_in_range (stage_advance_event prob a s).1 /\
     hiv_in_range (age_event dt a)) /\
  (forall (agents0 agents1 : list ptr) (parameters : ParameterMap) (w0 w1 : World R),
     Forall hiv_in_range (heap w0) ->
     initialize_agents agents0 parameters w0 = Ok (agents1, w1) ->
     Forall hiv_in_range (heap w1) /\
     forall (n : nat) (ts sd prob : double) (i : Z),
       exists (agents2 : list ptr) (w2 : World R),
         simulate_loop n ts sd prob i agents1 w1 = Ok (agents2, w2) /\
         Forall hiv_in_range (heap w2) /\
         forall date, exists w3, report date agents2 w2 = Ok (tt, w3)).
Proof.
  intros Hg Hsh. split; [| split].
  - intros i parameters this a' s s' H. apply (init_hiv R _ _ _ _ _ _ Hg H).
  - intros pm pf prob dt a s Hr.
    destruct (stage_progress_events R) as (Qi & Qs & Qa).
    specialize (Qi pm pf a s). specialize (Qs prob a s). specialize (Qa dt a).
    unfold stage_progress in Qi, Qs, Qa. unfold hiv_in_range in *.
    repeat split; lia.
  - intros agents0 agents1 parameters w0 w1 Hr0 Hinit.
    destruct (initialize_agents_population R hiv_in_range _ _ _ _ _
                (fun i this s a' s' H => proj2 (init_hiv R i _ this a' s s' Hg H)) Hinit)
      as (Hpop & _ & _ & Hr1).
    specialize (Hr1 Hr0). split; [exact Hr1 |].
    intros n ts sd prob i.
    destruct (simulate_loop_total R n ts sd prob i agents1 w1 Hsh Hpop Hr1)
      as (agents2 & w2 & Hl & Hpop2 & Hr2).
    exists agents2, w2. split; [exact Hl |]. split; [exact Hr2 |].
    intros date. apply report_total, population_in_range; assumption.
Qed.

(** ** No transmission at zero risk (C6) *)

(** A uniform draw from [0,1) is not below a product whose first factor
    is zero, whatever the other factors (the product is a zero or a NaN). *)
Lemma zero_risk_no_infection (u force forming prevalence : double) :
  leb zero u = true -> is_zero force = true ->
  ltb u (mul (mul force forming) prevalence) = false.
Proof.
  intros Hu Hf. destruct force as [sf| | |]; try discriminate.
  destruct forming as [s1|s1| |s1 m1 e1], prevalence as [s2|s2| |s2 m2 e2],
    u as [su|su| |su mu eu]; try discriminate; try reflexivity;
    try (destruct su; try discriminate; reflexivity).
Qed.

Lemma zero_force_events (R : RandomSource) :
  uniform_unit_range R ->
  (forall pm pf a s, zero_force_keeps_status a (simple_infection_event pm pf a s).1) /\
  (forall prob a s, zero_force_keeps_status a (stage_advance_event prob a s).1) /\
  (forall dt a, zero_force_keeps_status a (age_event dt a)).
Proof.
  intros Hu. unfold zero_force_keeps_status. split; [| split].
  - intros pm pf a s Hz. unfold simple_infection_event.
    destruct (hiv a =? 0)%Z; [| simpl; auto].
    destruct (Hu s) as [Hu0 _].
    destruct (uniform_real_distribution zero d1 s) as [u s']. simpl in Hu0.
    rewrite (zero_risk_no_infection _ _ _ _ Hu0 Hz). simpl. auto.
  - intros prob a s Hz.
    destruct (stage_advance_event_frame prob a s) as (_ & _ & _ & -> & _).
    split; [exact Hz |]. unfold infected.
    destruct (stage_advance_event_hiv prob a s) as [-> | [-> ->]]; reflexivity.
  - intros dt a Hz. simpl. auto.
Qed.

Lemma infected_count_Forall2 (h h' : list Agent) :
  Forall2 (fun a a' => infected a' = infected a) h h' ->
  infected_count h' = infected_count h.
Proof.
  unfold infected_count. intros HF.
  induction HF as [|a a' h h' E _ IH]; [reflexivity |].
  rewrite !filter_cons. rewrite E.
  destruct (decide (infected a = true)); simpl; rewrite ?IH; reflexivity.
Qed.

Lemma init_zero_force (R : RandomSource) (i : Z) (parameters : ParameterMap)
  (this a' : Agent) (s s' : rng_state) :
  beta_zero_target R ->
  parameters !! "MEAN_RISK_HET_MALE_SEX" = Some zero ->
  parameters !! "MEAN_RISK_HET_FEMALE_SEX" = Some zero ->
  init i parameters this s = Ok (a', s') ->
  is_zero (force_infection_attribute a') = true.
Proof.
  intros Hb Hm Hf H. apply init_Ok in H. simpl in H.
  destruct H as (mpt & ts & mr & sf & _ & _ & Hmr & _ & _ & _ & _ & _ & _ & ->).
  assert (mr = zero) as ->
    by (destruct (sex a'); simpl in Hmr; congruence).
  change (sub (div d2 zero) d2) with infinity. apply Hb.
Qed.

Lemma zero_force_same_status (h h' : list Agent) :
  Forall2 zero_force_keeps_status h h' -> Forall zero_force h ->
  Forall2 (fun a a' => infected a' = infected a) h h'.
Proof.
  intros H. induction H as [|a a' h h' HQ _ IH]; intros Hz; constructor.
  - apply Forall_cons in Hz as [Hza _]. apply (HQ Hza).
  - apply Forall_cons in Hz as [_ Hz]. apply IH, Hz.
Qed.

Lemma simulate_loop_zero_force (R : RandomSource) (n : nat) (ts sd prob : double)
  (i : Z) (agents agents' : list ptr) (w w' : World R) :
  uniform_unit_range R ->
  Forall zero_force (heap w) ->
  simulate_loop n ts sd prob i agents w = Ok (agents', w') ->
  infected_count (heap w') = infected_count (heap w).
Proof.
  intros Hu Hz H. destruct (zero_force_events R Hu) as (Qi & Qs & Qa).
  apply (simulate_loop_related zero_force_keeps_status) in H; auto.
  - apply infected_count_Forall2. unfold related in H.
    eapply zero_force_same_status; eauto.
  - unfold zero_force_keeps_status. auto.
  - unfold zero_force_keeps_status. intros a b c Hab Hbc Hza.
    destruct (Hab Hza) as [Hzb Eb]. destruct (Hbc Hzb) as [Hzc Ec].
    split; [exact Hzc | congruence].
Qed.

(** C6. With [MEAN_RISK_HET_MALE_SEX] and [MEAN_RISK_HET_FEMALE_SEX] both
    0, uniform draws lying in [0,1) and a Beta draw of target mean 0
    being 0: after [initialize_agents] every agent has force of
    infection zero, and after any number of iterations of the loop of
    [simulate], and after [simulate] itself, the number of agents with
    [hiv > 0] is not above what it was after the initialization (it is
    the same). *)
Theorem zero_risk_no_new_infection (R : RandomSource)
  (agents0 agents1 : list ptr) (parameters : ParameterMap) (w0 w1 : World R) :
  uniform_unit_range R ->
  beta_zero_target R ->
  parameters !! "MEAN_RISK_HET_MALE_SEX" = Some zero ->
  parameters !! "MEAN_RISK_HET_FEMALE_SEX" = Some zero ->
  Forall zero_force (heap w0) ->
  initialize_agents agents0 parameters w0 = Ok (agents1, w1) ->
  (forall (n : nat) (ts sd prob : double) (i : Z) (agents2 : list ptr) (w2 : World R),
     simulate_loop n ts sd prob i agents1 w1 = Ok (agents2, w2) ->
     infected_count (heap w2) <= infected_count (heap w1)) /\
  (forall (agents2 : list ptr) (w2 : World R),
     simulate agents1 parameters w1 = Ok (agents2, w2) ->
     infected_count (heap w2) <= infected_count (heap w1)).
Proof.
  intros Hu Hb Hm Hf Hz0 Hinit.
  destruct (initialize_agents_population R zero_force _ _ _ _ _
              (fun i this s a' s' H => init_zero_force R i _ this a' s s' Hb Hm Hf H)
              Hinit) as (_ & _ & _ & Hz1).
  specialize (Hz1 Hz0).
  assert (Hloop : forall n ts sd prob i agents2 (w2 : World R),
    simulate_loop n ts sd prob i agents1 w1 = Ok (agents2, w2) ->
    infected_count (heap w2) <= infected_count (heap w1)).
  { intros n ts sd prob i agents2 w2 H.
    rewrite (simulate_loop_zero_force R _ _ _ _ _ _ _ _ _ Hu Hz1 H). lia. }
  split; [exact Hloop |].
  intros agents2 w2 H. apply simulate_Ok in H as (n & ts & sd & prob & _ & _ & _ & H).
  eapply Hloop. exact H.
Qed.

(** ** The example engine meets the ranges of the distributions *)

Lemma tape_uniform_unit_range : uniform_unit_range tape.
Proof.
  intros s. destruct s as [|[|[|[|n]]] s']; split; vm_compute; reflexivity.
Qed.

Lemma tape_geometric_range : geometric_range tape.
Proof.
  intros p s. unfold geometric_distribution, tape, tape_geometric. simpl. lia.
Qed.

Lemma tape_shuffle_permutes : shuffle_permutes tape.
Proof.
  intros l s. unfold shuffle, tape, tape_shuffle. simpl.
  destruct (Nat.odd _); [symmetry; apply Permutation_rev | reflexivity].
Qed.

Lemma tape_beta_zero_target : beta_zero_target tape.
Proof. intros a s. reflexivity. Qed.

(** ** The properties on the example run *)

Lemma example_world_initialized :
  initialize_agents [0; 0] (example_parameters d0_5 d0_5) (tape_world example_tape)
    = Ok (example_agents, example_world).
Proof. reflexivity. Qed.

Lemma zero_risk_world_initialized :
  initialize_agents [0; 0] (example_parameters zero zero) (tape_world example_tape)
    = Ok (example_agents, zero_risk_world).
Proof. reflexivity. Qed.

Lemma example_first_step :
  simulate_step d1 (of_Z 2015) d0_5 0 example_agents example_world
    = Ok ([1; 0], example_step_world).
Proof. reflexivity. Qed.


Lemma example_simulate :
  simulate example_agents (example_parameters d0_5 d0_5) example_world
    = Ok ([1; 0], example_end_world).
Proof. reflexivity. Qed.

Lemma zero_risk_simulate :
  simulate example_agents (example_parameters zero zero) zero_risk_world
    = Ok ([1; 0], zero_risk_end_world).
Proof. reflexivity. Qed.

(** C1, on the code. [init] stores the draw from
    Beta(2, MEAN_PARTNERSHIP_TIME / TIME_STEP * 2) in
    [relationship_stickiness_attribute] as it is: on the example engine
    the draw is a quarter and so is the attribute, not the three
    quarters that 1 minus the draw would be. *)
Theorem init_stickiness_is_the_beta_draw :
  init (R := tape) 0 (example_parameters d0_5 d0_5) new_Agent example_tape
    = Ok (example_first_agent, drop 9 example_tape) /\
  (beta_distribution (RandomSource := tape) d2 (mul (div d1 d1) d2) (drop 3 example_tape)).1
    = quarters 1 /\
  relationship_stickiness_attribute example_first_agent = quarters 1 /\
  relationship_stickiness_attribute example_first_agent <> sub d1 (quarters 1).
Proof.
  split; [reflexivity |]. split; [reflexivity |]. split; [reflexivity |].
  intros H. vm_compute in H. discriminate H.
Qed.

Lemma simple_infection_event_spec_witness :
  hiv (set_hiv 0 new_Agent) = 0%Z /\
  (hiv (simple_infection_event (R := tape) d1 d1 (set_hiv 0 new_Agent) [1]).1 = 1%Z
   <-> ltb (uniform_real_distribution (RandomSource := tape) zero d1 [1]).1
         (mul (mul (force_infection_attribute (set_hiv 0 new_Agent))
                   (partner_forming_attribute (set_hiv 0 new_Agent))) d1) = true).
Proof.
  split; [reflexivity |].
  apply (simple_infection_event_spec tape d1 d1 (set_hiv 0 new_Agent) [1]).
  reflexivity.
Defined.

Lemma stage_advance_event_spec_witness :
  hiv (set_hiv 1 new_Agent) = 1%Z /\
  ltb (uniform_real_distribution (RandomSource := tape) zero d1 [1]).1 d0_5 = true /\
  stage_advance_event (R := tape) d0_5 (set_hiv 1 new_Agent) [1]
    = ({| id := 0; sex := MALE; age := zero; hiv := 2; alive := false;
          partners := [];
          relationship_stickiness_attribute := zero;
          partner_forming_attribute := zero;
          concurrency_attribute := zero;
          sexual_drive_attribute := zero;
          preference_fifs_attribute := zero;
          force_infection_attribute := zero |}, []) /\
  hiv (stage_advance_event (R := tape) d0_5 (set_hiv 1 new_Agent) [1]).1 = 2%Z /\
  exists a a' : Agent,
    heap example_world !! 1 = Some a /\ hiv a = 1%Z /\
    heap example_end_world !! 1 = Some a' /\ hiv a' = 2%Z.
Proof.
  split; [reflexivity |]. split; [reflexivity |].
  destruct (proj1 (stage_advance_event_spec tape) d0_5 (set_hiv 1 new_Agent) [1])
    as (Hup & _ & _ & _ & Hiff).
  split; [apply Hup; reflexivity |].
  split; [apply Hiff; right; split; reflexivity |].
  eexists _, _. split; [reflexivity |]. split; [reflexivity |].
  split; reflexivity.
Defined.

Lemma hiv_non_decreasing_witness :
  simulate example_agents (example_parameters d0_5 d0_5) example_world
    = Ok ([1; 0], example_end_world) /\
  exists a a' : Agent,
    heap example_world !! 0 = Some a /\
    heap example_end_world !! 0 = Some a' /\ (hiv a <= hiv a')%Z.
Proof.
  split; [exact example_simulate |].
  destruct (proj2 (proj2 (hiv_non_decreasing tape)) _ _ _ _ _ example_simulate
              0 _ eq_refl) as (a' & Ha' & Hle).
  eexists _, a'. split; [reflexivity |]. split; [exact Ha' | exact Hle].
Defined.

(** C4 as the claim has it, refuted: in one iteration on the example
    world the aggregate is computed twice, not exactly once; the second
    computation is the one of [report], after the events. *)
Lemma prevalence_computed_twice :
  simulate_step d1 (of_Z 2015) d0_5 0 example_agents example_world
    = Ok ([1; 0], example_step_world) /\
  calls example_world = [] /\
  prevalence_computations (calls example_step_world) = 2 /\
  prevalence_computations (calls example_step_world) <> 1.
Proof.
  split; [exact example_first_step |].
  split; [reflexivity |]. split; [reflexivity |].
  intros H. vm_compute in H. discriminate H.
Qed.

Lemma simulate_step_calls_witness :
  simulate_step d1 (of_Z 2015) d0_5 0 example_agents example_world
    = Ok ([1; 0], example_step_world) /\
  exists p p' : Prevalence,
    calc_prevalence (heap example_world) [1; 0] = Ok p /\
    calc_prevalence (heap example_step_world) [1; 0] = Ok p' /\
    calls example_step_world =
      calls example_world ++
      [call_shuffle; call_calc_prevalence p] ++
      concat (map (agent_calls (heap example_world) p d0_5 d1) [1; 0]) ++
      [call_report (add (of_Z 2015) (mul d1 (of_Z 0))); call_calc_prevalence p'] /\
    (heap example_step_world, rng example_step_world)
      = foldl (visit p d0_5 d1)
          (heap example_world, (shuffle example_agents (rng example_world)).2) [1; 0].
Proof.
  split; [exact example_first_step |].
  destruct (simulate_step_calls tape _ _ _ _ _ _ _ _ example_first_step)
    as (_ & p & p' & Hp & Hp' & Hc & Hv).
  exists p, p'. auto.
Defined.

Lemma calc_prevalence_degenerate_witness :
  valid_vector (heap example_world) [1] /\
  alive_count FEMALE (heap example_world) [1] = 0 /\
  exists p, calc_prevalence (heap example_world) [1] = Ok p /\
    alive_of FEMALE p = 0%Z /\ infected_of FEMALE p = 0%Z /\
    is_nan (prevalence_of FEMALE p) = true.
Proof.
  assert (Hv : valid_vector (heap example_world) [1])
    by (constructor; [simpl; lia | constructor]).
  split; [exact Hv |]. split; [reflexivity |].
  destruct (calc_prevalence_degenerate (heap example_world) [1] Hv) as (p & Hp & H).
  exists p. split; [exact Hp |].
  destruct (H FEMALE) as (_ & _ & _ & _ & H0). apply H0. reflexivity.
Defined.

Lemma calc_prevalence_Permutation_witness :
  [0; 1] ≡ₚ [1; 0] /\
  calc_prevalence (heap example_world) [0; 1]
    = calc_prevalence (heap example_world) [1; 0] /\
  shuffle_permutes tape /\
  calc_prevalence (heap example_world)
      (shuffle (RandomSource := tape) [0; 1] [1]).1
    = calc_prevalence (heap example_world) [0; 1].
Proof.
  assert (HP : [0; 1] ≡ₚ [1; 0]) by apply perm_swap.
  split; [exact HP |].
  split; [apply (proj1 (calc_prevalence_Permutation tape)), HP |].
  split; [exact tape_shuffle_permutes |].
  apply (proj2 (calc_prevalence_Permutation tape) tape_shuffle_permutes).
Defined.

Lemma zero_risk_no_new_infection_witness :
  uniform_unit_range tape /\ beta_zero_target tape /\
  example_parameters zero zero !! "MEAN_RISK_HET_MALE_SEX" = Some zero /\
  example_parameters zero zero !! "MEAN_RISK_HET_FEMALE_SEX" = Some zero /\
  Forall zero_force (heap (tape_world example_tape)) /\
  initialize_agents [0; 0] (example_parameters zero zero) (tape_world example_tape)
    = Ok (example_agents, zero_risk_world) /\
  simulate example_agents (example_parameters zero zero) zero_risk_world
    = Ok ([1; 0], zero_risk_end_world) /\
  infected_count (heap zero_risk_end_world) <= infected_count (heap zero_risk_world).
Proof.
  assert (Hm : example_parameters zero zero !! "MEAN_RISK_HET_MALE_SEX" = Some zero)
    by reflexivity.
  assert (Hf : example_parameters zero zero !! "MEAN_RISK_HET_FEMALE_SEX" = Some zero)
    by reflexivity.
  assert (Hz : Forall zero_force (heap (tape_world example_tape))) by constructor.
  split; [exact tape_uniform_unit_range |]. split; [exact tape_beta_zero_target |].
  split; [exact Hm |]. split; [exact Hf |]. split; [exact Hz |].
  split; [exact zero_risk_world_initialized |]. split; [exact zero_risk_simulate |].
  apply (proj2 (zero_risk_no_new_infection tape _ _ _ _ _
                  tape_uniform_unit_range tape_beta_zero_target Hm Hf Hz
                  zero_risk_world_initialized) _ _ zero_risk_simulate).
Defined.

Lemma hiv_stays_in_range_witness :
  geometric_range tape /\ shuffle_permutes tape /\
  Forall hiv_in_range (heap (tape_world example_tape)) /\
  initialize_agents [0; 0] (example_parameters d0_5 d0_5) (tape_world example_tape)
    = Ok (example_agents, example_world) /\
  Forall hiv_in_range (heap example_world) /\
  exists (agents2 : list ptr) (w2 : World tape),
    simulate_loop 2 d1 (of_Z 2015) d0_5 0 example_agents example_world
      = Ok (agents2, w2) /\
    Forall hiv_in_range (heap w2) /\
    forall date, exists w3, report date agents2 w2 = Ok (tt, w3).
Proof.
  assert (Hz : Forall hiv_in_range (heap (tape_world example_tape))) by constructor.
  split; [exact tape_geometric_range |]. split; [exact tape_shuffle_permutes |].
  split; [exact Hz |]. split; [exact example_world_initialized |].
  destruct (proj2 (proj2 (hiv_stays_in_range tape tape_geometric_range
                            tape_shuffle_permutes))
              _ _ _ _ _ Hz example_world_initialized) as [Hr Hloop].
  split; [exact Hr |]. apply Hloop.
Defined.



(** * Further properties of the driver *)

(** ** What [simulate] leaves alone *)

Lemma same_identity_events (R : RandomSource) :
  (forall pm pf a s, same_identity a (simple_infection_event pm pf a s).1) /\
  (forall prob a s, same_identity a (stage_advance_event prob a s).1) /\
  (forall dt a, same_identity a (age_event dt a)).
Proof.
  unfold same_identity. split; [| split].
  - intros pm pf a s. unfold simple_infection_event.
    destruct (hiv a =? 0)%Z; [| simpl; tauto].
    destruct (uniform_real_distribution zero d1 s) as [u s'].
    destruct (ltb u _); simpl; tauto.
  - intros prob a s. unfold stage_advance_event.
    destruct (hiv a =? 1)%Z; [| simpl; tauto].
    destruct (uniform_real_distribution zero d1 s) as [u s'].
    destruct (ltb u _); simpl; tauto.
  - intros dt a. simpl. tauto.
Qed.

Lemma simulate_loop_same_identity (R : RandomSource) (n : nat) (ts sd prob : double)
  (i : Z) (agents agents' : list ptr) (w w' : World R) :
  simulate_loop n ts sd prob i agents w = Ok (agents', w') ->
  Forall2 same_identity (heap w) (heap w').
Proof.
  destruct (same_identity_events R) as (Hi & Hs & Ha).
  apply (simulate_loop_related same_identity); auto.
  - intros a. unfold same_identity. tauto.
  - unfold same_identity. intros a b c Hab Hbc.
    destruct Hab as (?&?&?&?&?&?&?&?&?&?), Hbc as (?&?&?&?&?&?&?&?&?&?).
    repeat split; congruence.
Qed.

Lemma simulate_loop_Permutation (R : RandomSource) (n : nat) (ts sd prob : double)
  (i : Z) (agents agents' : list ptr) (w w' : World R) :
  shuffle_permutes R ->
  simulate_loop n ts sd prob i agents w = Ok (agents', w') ->
  agents' ≡ₚ agents.
Proof.
  intros Hsh. revert i agents w.
  induction n as [|n IH]; intros i agents w H; simpl in H.
  - apply ret_Ok in H as [-> _]. reflexivity.
  - apply bind_Ok in H as (agents1 & w1 & Hs & H).
    apply IH in H. rewrite H.
    apply simulate_step_Ok in Hs as (-> & _). apply Hsh.
Qed.

(** X1. [simulate] changes nothing of an agent but [hiv] and [age]: the
    heap keeps its length, and every agent keeps its identifier, sex,
    alive flag, partners and six attributes. [std::shuffle] permuting
    the vector, the vector returned is a permutation of the one given. *)
Theorem simulate_changes_only_hiv_and_age (R : RandomSource)
  (agents agents' : list ptr) (parameters : ParameterMap) (w w' : World R) :
  simulate agents parameters w = Ok (agents', w') ->
  length (heap w') = length (heap w) /\
  (forall (agent : ptr) (a : Agent),
     heap w !! agent = Some a ->
     exists a', heap w' !! agent = Some a' /\ same_identity a a') /\
  (shuffle_permutes R -> agents' ≡ₚ agents).
Proof.
  intros H. apply simulate_Ok in H as (n & ts & sd & prob & _ & _ & _ & H).
  pose proof (simulate_loop_same_identity R _ _ _ _ _ _ _ _ _ H) as HF.
  split; [symmetry; eapply Forall2_length; exact HF |]. split.
  - intros agent a Ha. destruct (Forall2_lookup_l _ _ _ _ _ HF Ha) as (a' & Ha' & HQ).
    eauto.
  - intros Hsh. eapply simulate_loop_Permutation; eauto.
Qed.

Lemma simulate_changes_only_hiv_and_age_witness :
  simulate example_agents (example_parameters d0_5 d0_5) example_world
    = Ok ([1; 0], example_end_world) /\
  length (heap example_end_world) = length (heap example_world) /\
  exists a a' : Agent,
    heap example_world !! 1 = Some a /\ heap example_end_world !! 1 = Some a' /\
    same_identity a a'.
Proof.
  split; [exact example_simulate |].
  destruct (simulate_changes_only_hiv_and_age tape _ _ _ _ _ example_simulate)
    as (Hlen & Hsame & _).
  split; [exact Hlen |].
  destruct (Hsame 1 _ eq_refl) as (a' & Ha' & HQ).
  eexists _, a'. split; [reflexivity |]. split; [exact Ha' | exact HQ].
Defined.

(** ** The rows that [report] writes *)

Lemma count_stage_Ok (R : RandomSource) (agent : ptr) (l l' : list Z) (w w' : World R) :
  count_stage agent l w = Ok (l', w') ->
  w' = w /\
  exists a n, heap w !! agent = Some a /\ (0 <= hiv a)%Z /\
    l !! Z.to_nat (hiv a) = Some n /\
    l' = <[Z.to_nat (hiv a) := incr n]> l.
Proof.
  unfold count_stage. intros H.
  apply bind_Ok in H as (a & w0 & Hd & H). apply deref_Ok in Hd as [Ha ->].
  destruct (l !! Z.to_nat (hiv a)) as [n|] eqn:Hn; [| discriminate].
  destruct (Z.leb_spec 0 (hiv a)); [| discriminate].
  apply ret_Ok in H as [<- <-]. split; [reflexivity |]. exists a, n. auto.
Qed.

(** After the loop of [report], each entry of the array has grown by the
    number of agents at its stage, modulo [2^32]. *)
Lemma count_stages_counts (R : RandomSource) (agents : list ptr) (l l' : list Z)
  (w w' : World R) :
  count_stages agents l w = Ok (l', w') ->
  length l' = length l /\
  forall (j : nat) (n : Z),
    l !! j = Some n ->
    exists n', l' !! j = Some n' /\
      to_unsigned n' = to_unsigned (n + Z.of_nat (stage_count (Z.of_nat j) (heap w) agents)) /\
      ((0 <= n < UINT_MODULUS)%Z -> (0 <= n' < UINT_MODULUS)%Z).
Proof.
  revert l w. induction agents as [|agent rest IH]; intros l w H;
    cbn [count_stages stage_count] in *.
  - apply ret_Ok in H as [<- <-]. split; [reflexivity |].
    intros j n Hj. exists n. rewrite Z.add_0_r. auto.
  - apply bind_Ok in H as (l1 & w1 & Hc & H).
    apply count_stage_Ok in Hc as (-> & a & n0 & Ha & Hpos & Hn0 & ->).
    apply IH in H as [Hlen H]. rewrite length_insert in Hlen.
    split; [exact Hlen |]. intros j n Hj. rewrite Ha.
    destruct (decide (j = Z.to_nat (hiv a))) as [-> | Hne].
    + rewrite Hn0 in Hj. injection Hj as <-.
      destruct (H (Z.to_nat (hiv a)) (incr n0)) as (n' & Hn' & E & Hr).
      { apply list_lookup_insert_eq. eapply lookup_lt_Some. exact Hn0. }
      exists n'. split; [exact Hn' |]. split.
      * rewrite E, Z2Nat.id, Z.eqb_refl by exact Hpos.
        rewrite to_unsigned_incr. f_equal. lia.
      * intros _. apply Hr. apply to_unsigned_range.
    + destruct (H j n) as (n' & Hn' & E & Hr).
      { rewrite list_lookup_insert_ne by congruence. exact Hj. }
      exists n'. split; [exact Hn' |]. split; [| exact Hr].
      rewrite E. destruct (Z.eqb_spec (hiv a) (Z.of_nat j)) as [E' |]; [| f_equal].
      exfalso. apply Hne. rewrite E'. symmetry. apply Nat2Z.id.
Qed.

(** The loop of [report] returns only when every agent has its stage
    inside the array. *)
Lemma count_stages_in_range (R : RandomSource) (agents : list ptr) (l l' : list Z)
  (w w' : World R) :
  count_stages agents l w = Ok (l', w') ->
  Forall (fun agent => exists a, heap w !! agent = Some a /\
                       (0 <= hiv a < Z.of_nat (length l))%Z) agents.
Proof.
  revert l w. induction agents as [|agent rest IH]; intros l w H;
    cbn [count_stages] in H.
  - constructor.
  - apply bind_Ok in H as (l1 & w1 & Hc & H).
    apply count_stage_Ok in Hc as (-> & a & n0 & Ha & Hpos & Hn0 & ->).
    apply IH in H. rewrite length_insert in H.
    constructor; [| exact H].
    exists a. split; [exact Ha |]. apply lookup_lt_Some in Hn0. lia.
Qed.

Lemma stage_count_sum (h : list Agent) (agents : list ptr) :
  Forall (fun agent => exists a, h !! agent = Some a /\ (0 <= hiv a < 6)%Z) agents ->
  stage_count 0 h agents + stage_count 1 h agents + stage_count 2 h agents +
  stage_count 3 h agents + stage_count 4 h agents + stage_count 5 h agents
    = length agents.
Proof.
  intros HF. induction HF as [|agent rest (a & Ha & Hr) _ IH];
    cbn [stage_count length]; [reflexivity |].
  rewrite Ha.
  assert (Hc : (hiv a = 0 \/ hiv a = 1 \/ hiv a = 2 \/ hiv a = 3 \/ hiv a = 4 \/ hiv a = 5)%Z)
    by lia.
  destruct Hc as [E | [E | [E | [E | [E | E]]]]]; rewrite E; simpl; lia.
Qed.

(** What a [report] that returns has done, in full. *)
Lemma report_Ok_row (R : RandomSource) (date : double) (agents : list ptr)
  (w w' : World R) (u : unit) :
  report date agents w = Ok (u, w') ->
  heap w' = heap w /\ rng w' = rng w /\
  exists (row : Row) (p : Prevalence),
    cout w' = cout w ++ [row] /\
    calc_prevalence (heap w) agents = Ok p /\
    row_date row = date /\
    row_agents row = Z.of_nat (length agents) /\
    row_males_alive row = males_alive p /\
    row_males_infected row = males_infected p /\
    row_male_prevalence row = male_prevalence p /\
    row_females_alive row = females_alive p /\
    row_females_infected row = females_infected p /\
    row_female_prevalence row = female_prevalence p /\
    length (row_hiv row) = 6 /\
    (forall j, j < 6 ->
       row_hiv row !! j
         = Some (to_unsigned (Z.of_nat (stage_count (Z.of_nat j) (heap w) agents)))) /\
    stage_count 0 (heap w) agents + stage_count 1 (heap w) agents +
    stage_count 2 (heap w) agents + stage_count 3 (heap w) agents +
    stage_count 4 (heap w) agents + stage_count 5 (heap w) agents
      = length agents.
Proof.
  unfold report. intros H.
  apply bind_Ok in H as (? & w1 & Hl & H). apply log_Ok in Hl as (Hh1 & Hr1 & Ho1 & Hc1).
  apply bind_Ok in H as (p & w2 & Hp & H). apply do_calc_prevalence_Ok in Hp as [Hp ->].
  apply bind_Ok in H as (l & w3 & Hs & H).
  pose proof (count_stages_Ok _ _ _ _ _ Hs) as ->.
  pose proof (count_stages_counts R _ _ _ _ _ Hs) as [Hlen Hcount].
  pose proof (count_stages_in_range R _ _ _ _ _ Hs) as Hrange.
  cbn [heap length] in Hcount, Hrange.
  unfold print in H. injection H as H. subst w'. cbn [heap rng cout calls].
  rewrite Hh1 in *. rewrite Hr1, Ho1.
  split; [reflexivity |]. split; [reflexivity |].
  eexists _, p. split; [reflexivity |]. split; [exact Hp |].
  cbn [row_date row_agents row_males_alive row_males_infected row_male_prevalence
       row_females_alive row_females_infected row_female_prevalence row_hiv].
  repeat (split; [reflexivity |]).
  split; [exact Hlen |]. split.
  - intros j Hj.
    destruct (lookup_lt_is_Some_2 [0; 0; 0; 0; 0; 0]%Z j) as [n Hn]; [simpl; lia |].
    assert (n = 0%Z) as ->.
    { do 6 (destruct j as [|j]; [injection Hn as <-; reflexivity |]). simpl in Hj. lia. }
    destruct (Hcount j 0%Z Hn) as (n' & Hn' & E & Hr).
    rewrite Hn'. f_equal. rewrite Z.add_0_l in E. rewrite <- E.
    symmetry. apply to_unsigned_small. apply Hr. unfold UINT_MODULUS. lia.
  - apply stage_count_sum. exact Hrange.
Qed.

(** X2. A [report] that returns has left the agents and the engine as
    they were and has written one row: its date is the one given, its
    number of agents the size of the vector, its counters and
    prevalences those of [calc_prevalence] on the vector, and its six
    stage entries the numbers of agents at the stages 0 to 5 (modulo
    [2^32]), which add up to the size of the vector. *)
Theorem report_row (R : RandomSource) (date : double) (agents : list ptr)
  (w w' : World R) (u : unit) :
  report date agents w = Ok (u, w') ->
  heap w' = heap w /\ rng w' = rng w /\
  exists (row : Row) (p : Prevalence),
    cout w' = cout w ++ [row] /\
    calc_prevalence (heap w) agents = Ok p /\
    row_date row = date /\
    row_agents row = Z.of_nat (length agents) /\
    row_males_alive row = males_alive p /\
    row_males_infected row = males_infected p /\
    row_male_prevalence row = male_prevalence p /\
    row_females_alive row = females_alive p /\
    row_females_infected row = females_infected p /\
    row_female_prevalence row = female_prevalence p /\
    length (row_hiv row) = 6 /\
    (forall j, j < 6 ->
       row_hiv row !! j
         = Some (to_unsigned (Z.of_nat (stage_count (Z.of_nat j) (heap w) agents)))) /\
    stage_count 0 (heap w) agents + stage_count 1 (heap w) agents +
    stage_count 2 (heap w) agents + stage_count 3 (heap w) agents +
    stage_count 4 (heap w) agents + stage_count 5 (heap w) agents
      = length agents.
Proof. apply report_Ok_row. Qed.

Lemma report_row_witness :
  report (of_Z 2015) example_agents example_world
    = Ok (tt, {| heap := heap example_world; rng := rng example_world;
                 cout := [{| row_date := of_Z 2015; row_agents := 2;
                             row_alive := 2; row_infected := 1;
                             row_prevalence := d0_5;
                             row_males_alive := 1; row_males_infected := 1;
                             row_male_prevalence := d1;
                             row_females_alive := 1; row_females_infected := 0;
                             row_female_prevalence := zero;
                             row_hiv := [1; 1; 0; 0; 0; 0]%Z |}];
                 calls := [call_report (of_Z 2015);
                           call_calc_prevalence
                             {| males_alive := 1; females_alive := 1;
                                males_infected := 1; females_infected := 0;
                                male_prevalence := d1;
                                female_prevalence := zero |}] |}) /\
  stage_count 0 (heap example_world) example_agents +
  stage_count 1 (heap example_world) example_agents +
  stage_count 2 (heap example_world) example_agents +
  stage_count 3 (heap example_world) example_agents +
  stage_count 4 (heap example_world) example_agents +
  stage_count 5 (heap example_world) example_agents = length example_agents.
Proof.
  assert (H : report (of_Z 2015) example_agents example_world = Ok (tt, _))
    by reflexivity.
  split; [exact H |].
  destruct (report_row tape _ _ _ _ _ H) as (_ & _ & row & p & Hrow).
  apply Hrow.
Defined.

(** ** The outcome of [simulate] *)

Lemma for_each_agent_events_cout (R : RandomSource) (p : Prevalence)
  (prob ts : double) (agents : list ptr) (w w' : World R) (u : unit) :
  for_each (agent_events p prob ts) agents w = Ok (u, w') -> cout w' = cout w.
Proof.
  revert w. induction agents as [|agent rest IH]; intros w H; simpl in H.
  - apply ret_Ok in H as [_ ->]. reflexivity.
  - apply bind_Ok in H as (? & w1 & Hx & H). apply IH in H. rewrite H.
    apply agent_events_Ok in Hx as (a & _ & [[_ ->] | [_ Hx]]); [reflexivity |].
    destruct Hx as (a1 & s1 & a2 & s2 & _ & _ & _ & _ & Hc & _). exact Hc.
Qed.

Lemma simulate_step_row (R : RandomSource) (ts sd prob : double) (i : Z)
  (agents agents' : list ptr) (w w' : World R) :
  simulate_step ts sd prob i agents w = Ok (agents', w') ->
  exists row, cout w' = cout w ++ [row] /\
    row_date row = add sd (mul ts (of_Z i)) /\
    row_agents row = Z.of_nat (length agents').
Proof.
  intros H. apply simulate_step_Ok in H as (_ & p & w2 & _ & Hf & Hr).
  apply for_each_agent_events_cout in Hf. cbn [cout] in Hf.
  apply report_Ok_row in Hr as (_ & _ & row & q & Hc & _ & Hd & Ha & _).
  exists row. rewrite Hc, Hf. auto.
Qed.

Lemma simulate_loop_rows (R : RandomSource) (n : nat) (ts sd prob : double) (i : Z)
  (agents agents' : list ptr) (w w' : World R) :
  simulate_loop n ts sd prob i agents w = Ok (agents', w') ->
  exists rows, cout w' = cout w ++ rows /\ length rows = n /\
    forall (k : nat) (row : Row),
      rows !! k = Some row ->
      row_date row = add sd (mul ts (of_Z (Nat.iter k incr i))).
Proof.
  revert i agents w. induction n as [|n IH]; intros i agents w H; simpl in H.
  - apply ret_Ok in H as [_ <-]. exists []. rewrite app_nil_r.
    split; [reflexivity |]. split; [reflexivity |]. intros k row Hk. discriminate.
  - apply bind_Ok in H as (agents1 & w1 & Hs & H).
    apply simulate_step_row in Hs as (row & Hc & Hd & _).
    apply IH in H as (rows & Hc' & Hlen & Hrows).
    exists (row :: rows). rewrite Hc', Hc, <- app_assoc.
    split; [reflexivity |]. split; [simpl; lia |].
    intros [|k] r Hk.
    + injection Hk as <-. exact Hd.
    + rewrite (Hrows k r Hk). do 3 f_equal.
      clear. induction k as [|k IHk]; [reflexivity |]. simpl. rewrite IHk. reflexivity.
Qed.

Lemma iter_incr (k : nat) :
  (Z.of_nat k < UINT_MODULUS)%Z -> Nat.iter k incr 0%Z = Z.of_nat k.
Proof.
  induction k as [|k IH]; intros Hk; [reflexivity |].
  simpl Nat.iter. rewrite IH by lia. unfold incr.
  rewrite to_unsigned_small by lia. lia.
Qed.

(** [simulate] is the reading of its parameters followed by its loop. *)
Lemma simulate_num_iterations (R : RandomSource) (agents : list ptr)
  (parameters : ParameterMap) (w : World R) :
  match num_iterations parameters with
  | Err e => simulate agents parameters w = Err e
  | Ok n =>
      (0 <= n < UINT_MODULUS)%Z /\
      exists ts sd prob,
        parameters !! "TIME_STEP" = Some ts /\
        parameters !! "START_DATE" = Some sd /\
        parameters !! "LEAVE_ACUTE_INFECTION" = Some prob /\
        simulate agents parameters w
          = simulate_loop (Z.to_nat n) ts sd prob 0 agents w
  end.
Proof.
  unfold num_iterations, simulate, at_, double_to_unsigned.
  destruct (parameters !! "NUM_YEARS") as [ny|]; [| reflexivity].
  destruct (parameters !! "TIME_STEP") as [ts|]; [| reflexivity].
  destruct (parameters !! "START_DATE") as [sd|]; [| reflexivity].
  destruct (parameters !! "LEAVE_ACUTE_INFECTION") as [prob|]; [| reflexivity].
  cbv beta iota delta [bind ret throw].
  destruct (truncate (div ny ts)) as [n|]; [| reflexivity].
  destruct ((0 <=? n)%Z && (n <? UINT_MODULUS)%Z) eqn:Hn; [| reflexivity].
  split; [lia |]. exists ts, sd, prob. auto.
Qed.

(** X3. A [simulate] that returns has read a number of iterations [n]
    from its parameters (the truncation of [NUM_YEARS / TIME_STEP]) and
    has written exactly [n] rows, the row of the iteration [k] dated
    [START_DATE + TIME_STEP * k]. *)
Theorem simulate_rows (R : RandomSource) (agents agents' : list ptr)
  (parameters : ParameterMap) (w w' : World R) :
  simulate agents parameters w = Ok (agents', w') ->
  exists (n : Z) (ts sd : double) (rows : list Row),
    num_iterations parameters = Ok n /\
    parameters !! "TIME_STEP" = Some ts /\
    parameters !! "START_DATE" = Some sd /\
    cout w' = cout w ++ rows /\
    Z.of_nat (length rows) = n /\
    forall (k : nat) (row : Row),
      rows !! k = Some row ->
      row_date row = add sd (mul ts (of_Z (Z.of_nat k))).
Proof.
  intros H. pose proof (simulate_num_iterations R agents parameters w) as Hn.
  destruct (num_iterations parameters) as [n|e]; [| congruence].
  destruct Hn as (Hrange & ts & sd & prob & Hts & Hsd & _ & E).
  rewrite E in H. apply simulate_loop_rows in H as (rows & Hc & Hlen & Hrows).
  exists n, ts, sd, rows. split; [reflexivity |].
  split; [exact Hts |]. split; [exact Hsd |]. split; [exact Hc |].
  split; [lia |]. intros k row Hk. rewrite (Hrows k row Hk).
  rewrite iter_incr; [reflexivity |].
  apply lookup_lt_Some in Hk. lia.
Qed.

Lemma simulate_rows_witness :
  simulate example_agents (example_parameters d0_5 d0_5) example_world
    = Ok ([1; 0], example_end_world) /\
  exists (ts sd : double) (rows : list Row),
    num_iterations (example_parameters d0_5 d0_5) = Ok 2%Z /\
    example_parameters d0_5 d0_5 !! "TIME_STEP" = Some ts /\
    example_parameters d0_5 d0_5 !! "START_DATE" = Some sd /\
    cout example_end_world = cout example_world ++ rows /\
    Z.of_nat (length rows) = 2%Z /\
    forall (k : nat) (row : Row),
      rows !! k = Some row ->
      row_date row = add sd (mul ts (of_Z (Z.of_nat k))).
Proof.
  split; [exact example_simulate |].
  destruct (simulate_rows tape _ _ _ _ _ example_simulate)
    as (n & ts & sd & rows & Hn & H).
  assert (H2 : num_iterations (example_parameters d0_5 d0_5) = Ok 2%Z) by reflexivity.
  assert (n = 2%Z) as -> by congruence.
  exists ts, sd, rows. split; [reflexivity | exact H].
Defined.

(** X4. [simulate] fails exactly as the reading of its parameters
    fails: with [std::out_of_range] when one of [NUM_YEARS],
    [TIME_STEP], [START_DATE], [LEAVE_ACUTE_INFECTION] is missing, with
    undefined behaviour when [NUM_YEARS / TIME_STEP] does not truncate
    to an [unsigned], as for every [NUM_YEARS] when [TIME_STEP] is a
    zero. When the reading succeeds, on a population whose stages are
    in [0,5] and with [std::shuffle] permuting the vector, [simulate]
    returns. *)
Theorem simulate_outcome (R : RandomSource) (agents : list ptr)
  (parameters : ParameterMap) (w : World R) :
  (forall e, num_iterations parameters = Err e ->
     simulate agents parameters w = Err e) /\
  (parameters !! "NUM_YEARS" = None \/ parameters !! "TIME_STEP" = None \/
   parameters !! "START_DATE" = None \/ parameters !! "LEAVE_ACUTE_INFECTION" = None ->
     simulate agents parameters w = Err out_of_range) /\
  (forall ny ts sd prob,
     parameters !! "NUM_YEARS" = Some ny -> parameters !! "TIME_STEP" = Some ts ->
     parameters !! "START_DATE" = Some sd ->
     parameters !! "LEAVE_ACUTE_INFECTION" = Some prob ->
     is_zero ts = true ->
     simulate agents parameters w = Err undefined_behaviour) /\
  (forall n, num_iterations parameters = Ok n ->
     shuffle_permutes R ->
     population (heap w) agents -> Forall hiv_in_range (heap w) ->
     exists agents' w', simulate agents parameters w = Ok (agents', w')).
Proof.
  pose proof (simulate_num_iterations R agents parameters w) as Hn.
  assert (Herr : forall e, num_iterations parameters = Err e ->
                      simulate agents parameters w = Err e).
  { intros e He. rewrite He in Hn. exact Hn. }
  split; [exact Herr |]. split; [| split].
  - intros Hmiss. apply Herr. unfold num_iterations.
    destruct (parameters !! "NUM_YEARS"), (parameters !! "TIME_STEP"),
      (parameters !! "START_DATE"), (parameters !! "LEAVE_ACUTE_INFECTION");
      try reflexivity.
    destruct Hmiss as [? | [? | [? | ?]]]; discriminate.
  - intros ny ts sd prob Hny Hts Hsd Hprob Hz. apply Herr.
    unfold num_iterations. rewrite Hny, Hts, Hsd, Hprob.
    destruct ts as [s| | |]; try discriminate.
    destruct ny as [s'|s'| |s' m e]; reflexivity.
  - intros n Hok Hsh Hpop Hr. rewrite Hok in Hn.
    destruct Hn as (_ & ts & sd & prob & _ & _ & _ & ->).
    destruct (simulate_loop_total R (Z.to_nat n) ts sd prob 0 agents w Hsh Hpop Hr)
      as (agents' & w' & H & _).
    eauto.
Qed.

Lemma simulate_outcome_witness :
  num_iterations (<["TIME_STEP" := zero]> (example_parameters d0_5 d0_5))
    = Err undefined_behaviour /\
  simulate example_agents (<["TIME_STEP" := zero]> (example_parameters d0_5 d0_5))
    example_world = Err undefined_behaviour /\
  simulate example_agents (delete "START_DATE" (example_parameters d0_5 d0_5))
    example_world = Err out_of_range /\
  num_iterations (example_parameters d0_5 d0_5) = Ok 2%Z /\
  shuffle_permutes tape /\
  exists agents' w',
    simulate example_agents (example_parameters d0_5 d0_5) example_world
      = Ok (agents', w').
Proof.
  assert (H0 : num_iterations (<["TIME_STEP" := zero]> (example_parameters d0_5 d0_5))
               = Err undefined_behaviour) by reflexivity.
  assert (H2 : num_iterations (example_parameters d0_5 d0_5) = Ok 2%Z) by reflexivity.
  split; [exact H0 |].
  split; [apply (proj1 (simulate_outcome tape _ _ _) _ H0) |].
  split.
  { apply (proj1 (proj2 (simulate_outcome tape _ _ _))). right. right. left.
    reflexivity. }
  split; [exact H2 |]. split; [exact tape_shuffle_permutes |].
  apply (proj2 (proj2 (proj2 (simulate_outcome tape example_agents _ example_world)))
           _ H2 tape_shuffle_permutes).
  - destruct (initialize_agents_population tape (fun _ => True) _ _ _ _ _
                (fun _ _ _ _ _ _ => I) example_world_initialized) as (Hpop & _).
    exact Hpop.
  - repeat constructor; unfold hiv_in_range; simpl; lia.
Defined.

(** ** Infection needs infection *)

Lemma div_zero_numerator (x y : double) :
  is_zero x = true -> is_zero (div x y) = true \/ is_nan (div x y) = true.
Proof.
  destruct x as [s| | |]; try discriminate. intros _.
  destruct y as [s'|s'| |s' m e]; simpl; auto.
Qed.

(** A uniform draw from [0,1) is not below a product whose last factor
    is a zero or a NaN. *)
Lemma degenerate_prevalence_no_infection (u force forming prevalence : double) :
  leb zero u = true ->
  is_zero prevalence = true \/ is_nan prevalence = true ->
  ltb u (mul (mul force forming) prevalence) = false.
Proof.
  intros Hu Hp.
  assert (Hr : is_zero (mul (mul force forming) prevalence) = true \/
               is_nan (mul (mul force forming) prevalence) = true).
  { destruct (mul force forming) as [s| s| |s m e],
      prevalence as [s'|s'| |s' m' e']; simpl in *;
      destruct Hp as [Hp | Hp]; try discriminate; auto. }
  destruct (mul (mul force forming) prevalence) as [s| s| |s m e];
    simpl in Hr; destruct Hr as [Hr | Hr]; try discriminate.
  - destruct u as [su|su| |su mu eu]; try discriminate; try reflexivity;
      destruct su; try discriminate; reflexivity.
  - destruct u; reflexivity.
Qed.

Lemma disease_free_counts (x : Sex) (h : list Agent) (agents : list ptr) :
  disease_free h -> infected_alive_count x h agents = 0.
Proof.
  intros Hd. induction agents as [|agent rest IH]; cbn [infected_alive_count];
    [reflexivity |].
  destruct (h !! agent) as [a|] eqn:Ha; [| exact IH].
  rewrite IH. unfold infected.
  rewrite (Forall_lookup_1 _ _ _ _ Hd Ha). simpl.
  rewrite andb_false_r. reflexivity.
Qed.

Lemma disease_free_prevalence (x : Sex) (h : list Agent) (agents : list ptr)
  (p : Prevalence) :
  disease_free h -> calc_prevalence h agents = Ok p ->
  is_zero (prevalence_of x p) = true \/ is_nan (prevalence_of x p) = true.
Proof.
  intros Hd Hp. destruct (calc_prevalence_counts x _ _ _ Hp) as (_ & Hi & ->).
  rewrite Hi, (disease_free_counts x h agents Hd).
  apply div_zero_numerator. reflexivity.
Qed.

Lemma agent_events_disease_free (R : RandomSource) (p : Prevalence)
  (prob ts : double) (agent : ptr) (w w' : World R) (u : unit) :
  uniform_unit_range R ->
  (forall x, is_zero (prevalence_of x p) = true \/ is_nan (prevalence_of x p) = true) ->
  agent_events p prob ts agent w = Ok (u, w') ->
  disease_free (heap w) -> disease_free (heap w').
Proof.
  intros Hu Hp H Hd.
  apply agent_events_Ok in H as (a & Ha & [[_ ->] | [_ H]]); [exact Hd |].
  destruct H as (a1 & s1 & a2 & s2 & H1 & H2 & -> & _).
  pose proof (Forall_lookup_1 _ _ _ _ Hd Ha) as E. simpl in E.
  assert (E1 : a1 = a).
  { unfold simple_infection_event in H1. rewrite E in H1. simpl in H1.
    destruct (Hu (rng w)) as [Hu0 _].
    destruct (uniform_real_distribution zero d1 (rng w)) as [v s']. simpl in Hu0.
    rewrite degenerate_prevalence_no_infection in H1.
    - congruence.
    - exact Hu0.
    - destruct (sex a); [apply (Hp FEMALE) | apply (Hp MALE)]. }
  subst a1.
  assert (E2 : a2 = a).
  { rewrite stage_advance_event_other in H2 by (rewrite E; discriminate). congruence. }
  subst a2. apply Forall_insert; [exact Hd | exact E].
Qed.

Lemma simulate_loop_disease_free (R : RandomSource) (n : nat) (ts sd prob : double)
  (i : Z) (agents agents' : list ptr) (w w' : World R) :
  uniform_unit_range R ->
  simulate_loop n ts sd prob i agents w = Ok (agents', w') ->
  disease_free (heap w) -> disease_free (heap w').
Proof.
  intros Hu. revert i agents w.
  induction n as [|n IH]; intros i agents w H Hd; simpl in H.
  - apply ret_Ok in H as [_ <-]. exact Hd.
  - apply bind_Ok in H as (agents1 & w1 & Hs & H).
    apply (IH _ _ _ H). clear H IH.
    apply simulate_step_Ok in Hs as (_ & p & w2 & Hp & Hf & Hr).
    apply report_Ok in Hr as (-> & _).
    assert (Hdeg : forall x, is_zero (prevalence_of x p) = true \/
                             is_nan (prevalence_of x p) = true)
      by (intros x; eapply disease_free_prevalence; eauto).
    clear Hp.
    assert (Hgen : forall l (w0 w3 : World R),
      for_each (agent_events p prob ts) l w0 = Ok (tt, w3) ->
      disease_free (heap w0) -> disease_free (heap w3)).
    { induction l as [|agent rest IHl]; intros w0 w3 H H0; simpl in H.
      - apply ret_Ok in H as [_ <-]. exact H0.
      - apply bind_Ok in H as (? & w4 & Hx & H).
        apply (IHl _ _ H). eapply agent_events_disease_free; eauto. }
    apply (Hgen _ _ _ Hf). exact Hd.
Qed.

(** X5. Infection needs infection: with uniform draws in [0,1), a heap
    in which every agent has [hiv == 0] is still so after any number of
    iterations of the loop of [simulate], and after [simulate]; the
    prevalences are then zeros or NaNs and no draw is below the risk. *)
Theorem disease_free_stays (R : RandomSource) :
  uniform_unit_range R ->
  (forall (n : nat) (ts sd prob : double) (i : Z) (agents agents' : list ptr)
          (w w' : World R),
     simulate_loop n ts sd prob i agents w = Ok (agents', w') ->
     disease_free (heap w) -> disease_free (heap w')) /\
  (forall (agents agents' : list ptr) (parameters : ParameterMap) (w w' : World R),
     simulate agents parameters w = Ok (agents', w') ->
     disease_free (heap w) -> disease_free (heap w')).
Proof.
  intros Hu. split.
  - intros n ts sd prob i agents agents' w w'. apply simulate_loop_disease_free, Hu.
  - intros agents agents' parameters w w' H.
    apply simulate_Ok in H as (n & ts & sd & prob & _ & _ & _ & H).
    eapply simulate_loop_disease_free; eauto.
Qed.

Lemma healthy_simulate :
  simulate example_agents (example_parameters d0_5 d0_5) healthy_world
    = Ok ([1; 0], healthy_end_world).
Proof. reflexivity. Qed.

Lemma disease_free_stays_witness :
  uniform_unit_range tape /\
  simulate example_agents (example_parameters d0_5 d0_5) healthy_world
    = Ok ([1; 0], healthy_end_world) /\
  disease_free (heap healthy_world) /\
  disease_free (heap healthy_end_world).
Proof.
  assert (Hd : disease_free (heap healthy_world)) by (repeat constructor).
  split; [exact tape_uniform_unit_range |]. split; [exact healthy_simulate |].
  split; [exact Hd |].
  apply (proj2 (disease_free_stays tape tape_uniform_unit_range) _ _ _ _ _
           healthy_simulate Hd).
Defined.

(** ** No recovery *)

Lemma infected_count_le_Forall2 (h h' : list Agent) :
  Forall2 stage_progress h h' -> infected_count h <= infected_count h'.
Proof.
  unfold infected_count. intros HF.
  induction HF as [|a a' h h' HQ _ IH]; [reflexivity |].
  rewrite !filter_cons.
  assert (Hi : infected a = true -> infected a' = true).
  { unfold infected, stage_progress in *. intros Ha.
    apply Z.ltb_lt in Ha. apply Z.ltb_lt. lia. }
  destruct (decide (infected a = true)) as [Ha|Ha], (decide (infected a' = true));
    simpl; try lia.
  exfalso. auto.
Qed.

(** X6. No recovery: after [simulate], as after any number of iterations
    of its loop, the number of agents with [hiv > 0] is at least what it
    was, and every agent that was infected still is. *)
Theorem infected_count_never_decreases (R : RandomSource) :
  (forall (n : nat) (ts sd prob : double) (i : Z) (agents agents' : list ptr)
          (w w' : World R),
     simulate_loop n ts sd prob i agents w = Ok (agents', w') ->
     infected_count (heap w) <= infected_count (heap w') /\
     forall agent a, heap w !! agent = Some a -> infected a = true ->
       exists a', heap w' !! agent = Some a' /\ infected a' = true) /\
  (forall (agents agents' : list ptr) (parameters : ParameterMap) (w w' : World R),
     simulate agents parameters w = Ok (agents', w') ->
     infected_count (heap w) <= infected_count (heap w')).
Proof.
  assert (Hloop : forall n ts sd prob i agents agents' (w w' : World R),
    simulate_loop n ts sd prob i agents w = Ok (agents', w') ->
    infected_count (heap w) <= infected_count (heap w') /\
    forall agent a, heap w !! agent = Some a -> infected a = true ->
      exists a', heap w' !! agent = Some a' /\ infected a' = true).
  { intros n ts sd prob i agents agents' w w' H.
    apply simulate_loop_stage_progress in H.
    split; [apply infected_count_le_Forall2, H |].
    intros agent a Ha Hi.
    destruct (Forall2_lookup_l _ _ _ _ _ H Ha) as (a' & Ha' & HQ).
    exists a'. split; [exact Ha' |].
    unfold infected, stage_progress in *. apply Z.ltb_lt in Hi. apply Z.ltb_lt. lia. }
  split; [exact Hloop |].
  intros agents agents' parameters w w' H.
  apply simulate_Ok in H as (n & ts & sd & prob & _ & _ & _ & H).
  apply (Hloop _ _ _ _ _ _ _ _ _ H).
Qed.

Lemma infected_count_never_decreases_witness :
  simulate example_agents (example_parameters d0_5 d0_5) example_world
    = Ok ([1; 0], example_end_world) /\
  infected_count (heap example_world) <= infected_count (heap example_end_world).
Proof.
  split; [exact example_simulate |].
  apply (proj2 (infected_count_never_decreases tape) _ _ _ _ _ example_simulate).
Defined.

(** ** The failures of [init] and the identifiers of [initialize_agents] *)

(** Exposes the next draw of a sequence and names its result. *)
Ltac next_draw H :=
  cbv beta iota delta [bind ret draw throw] in H;
  match type of H with
  | context [let (_, _) := ?d ?s in _] => destruct (d s)
  end.

(** A key that is missing, in the course of a case analysis of [init]. *)
Ltac missing_key H E :=
  cbv beta iota delta [bind ret draw throw] in H;
  split;
  [ apply Exists_exists; eexists; split; [| exact E]; repeat constructor
  | congruence ].

Lemma init_outcome_cases (R : RandomSource) (i : Z) (parameters : ParameterMap)
  (this : Agent) (s : rng_state) :
  let x := if (bernoulli_distribution d0_5 s).1 then FEMALE else MALE in
  (Forall (fun key => is_Some (parameters !! key)) (init_keys x) /\
   exists a' s', init i parameters this s = Ok (a', s')) \/
  (Exists (fun key => parameters !! key = None) (init_keys x) /\
   init i parameters this s = Err out_of_range).
Proof.
  intros x. subst x.
  destruct (init i parameters this s) as [[a' s']|e] eqn:H.
  - left. split; [| eauto].
    unfold init, at_ in H. next_draw H. next_draw H. next_draw H. simpl.
    destruct (parameters !! "MEAN_PARTNERSHIP_TIME") eqn:E1; [| discriminate].
    destruct (parameters !! "TIME_STEP") eqn:E2; [| discriminate].
    next_draw H.
    destruct (parameters !! "MEAN_TIME_UNTIL_PARTNER") eqn:E3; [| discriminate].
    next_draw H.
    destruct (parameters !! "MEAN_TIME_CONCURRENT") eqn:E4; [| discriminate].
    next_draw H.
    destruct (parameters !! "MEAN_TIME_SEX") eqn:E5; [| discriminate].
    next_draw H.
    destruct (parameters !! "PREFERENCE_FIFS") eqn:E6; [| discriminate].
    next_draw H.
    assert (E7 : is_Some (parameters !! mean_risk_key (if b then FEMALE else MALE))).
    { destruct b; simpl;
        [destruct (parameters !! "MEAN_RISK_HET_FEMALE_SEX")
        | destruct (parameters !! "MEAN_RISK_HET_MALE_SEX")];
        first [discriminate | eauto]. }
    unfold init_keys. repeat constructor; unfold is_Some; eauto.
  - right.
    unfold init, at_ in H. next_draw H. next_draw H. next_draw H. simpl.
    unfold init_keys.
    destruct (parameters !! "MEAN_PARTNERSHIP_TIME") eqn:E1; [| missing_key H E1].
    destruct (parameters !! "TIME_STEP") eqn:E2; [| missing_key H E2].
    next_draw H.
    destruct (parameters !! "MEAN_TIME_UNTIL_PARTNER") eqn:E3; [| missing_key H E3].
    next_draw H.
    destruct (parameters !! "MEAN_TIME_CONCURRENT") eqn:E4; [| missing_key H E4].
    next_draw H.
    destruct (parameters !! "MEAN_TIME_SEX") eqn:E5; [| missing_key H E5].
    next_draw H.
    destruct (parameters !! "PREFERENCE_FIFS") eqn:E6; [| missing_key H E6].
    next_draw H.
    destruct b; simpl in *.
    + destruct (parameters !! "MEAN_RISK_HET_FEMALE_SEX") eqn:E7; [| missing_key H E7].
      exfalso. next_draw H. discriminate.
    + destruct (parameters !! "MEAN_RISK_HET_MALE_SEX") eqn:E7; [| missing_key H E7].
      exfalso. next_draw H. discriminate.
Qed.

(** X7. [init] fails only through a missing key, and then with
    [std::out_of_range]: it returns exactly when the six keys it reads
    for every agent and the mean-risk key of the sex it has drawn are
    present; the mean-risk key of the other sex is not read. It is never
    undefined. *)
Theorem init_outcome (R : RandomSource) (i : Z) (parameters : ParameterMap)
  (this : Agent) (s : rng_state) :
  let x := if (bernoulli_distribution d0_5 s).1 then FEMALE else MALE in
  ((exists a' s', init i parameters this s = Ok (a', s')) <->
   Forall (fun key => is_Some (parameters !! key)) (init_keys x)) /\
  (init i parameters this s = Err out_of_range <->
   Exists (fun key => parameters !! key = None) (init_keys x)) /\
  init i parameters this s <> Err undefined_behaviour.
Proof.
  intros x.
  destruct (init_outcome_cases R i parameters this s) as [[HF HOk] | [HE HErr]];
    fold x in HF || fold x in HE.
  - assert (Hno : ~ Exists (fun key => parameters !! key = None) (init_keys x)).
    { intros HE. apply Exists_exists in HE as (key & Hin & Hnone).
      rewrite Forall_forall in HF. destruct (HF key Hin) as [v Hv]. congruence. }
    destruct HOk as (a' & s' & HOk). split; [| split].
    + split; [intros _; exact HF | intros _; eauto].
    + split; [rewrite HOk; discriminate | intros HE; contradiction].
    + rewrite HOk. discriminate.
  - split; [| split].
    + split.
      * intros (a' & s' & HOk). rewrite HErr in HOk. discriminate.
      * intros HF. exfalso. apply Exists_exists in HE as (key & Hin & Hnone).
        rewrite Forall_forall in HF. destruct (HF key Hin) as [v Hv]. congruence.
    + split; [intros _; exact HE | intros _; exact HErr].
    + rewrite HErr. discriminate.
Qed.

Lemma iter_incr_swap (k : nat) (i : Z) :
  Nat.iter k incr (incr i) = Nat.iter (S k) incr i.
Proof. induction k as [|k IH]; [reflexivity |]. simpl. rewrite IH. reflexivity. Qed.

Lemma iter_incr_unsigned (k : nat) :
  Nat.iter k incr 0%Z = to_unsigned (Z.of_nat k).
Proof.
  induction k as [|k IH]; [reflexivity |].
  simpl Nat.iter. rewrite IH. unfold incr, to_unsigned.
  rewrite Zplus_mod_idemp_l. f_equal. lia.
Qed.

Lemma init_partners (R : RandomSource) (i : Z) (parameters : ParameterMap)
  (this a' : Agent) (s s' : rng_state) :
  init i parameters this s = Ok (a', s') -> partners a' = partners this.
Proof.
  intros H. unfold init, at_ in H. next_draw H. next_draw H. next_draw H.
  destruct (parameters !! "MEAN_PARTNERSHIP_TIME"); [| discriminate].
  destruct (parameters !! "TIME_STEP"); [| discriminate].
  next_draw H.
  destruct (parameters !! "MEAN_TIME_UNTIL_PARTNER"); [| discriminate].
  next_draw H.
  destruct (parameters !! "MEAN_TIME_CONCURRENT"); [| discriminate].
  next_draw H.
  destruct (parameters !! "MEAN_TIME_SEX"); [| discriminate].
  next_draw H.
  destruct (parameters !! "PREFERENCE_FIFS"); [| discriminate].
  next_draw H.
  destruct b;
    [destruct (parameters !! "MEAN_RISK_HET_FEMALE_SEX")
    | destruct (parameters !! "MEAN_RISK_HET_MALE_SEX")];
    try discriminate; next_draw H; injection H as <- _; reflexivity.
Qed.

(** The agents that [initialize_agents] adds, one by one. *)
Lemma initialize_agents_from_ids (R : RandomSource) (parameters : ParameterMap)
  (agents : list ptr) (i : Z) (agents' : list ptr) (w w' : World R) :
  initialize_agents_from i agents parameters w = Ok (agents', w') ->
  cout w' = cout w /\ calls w' = calls w /\
  exists new, heap w' = heap w ++ new /\ length new = length agents /\
    forall (k : nat) (a : Agent),
      new !! k = Some a ->
      id a = Nat.iter k incr i /\ alive a = true /\ partners a = [].
Proof.
  revert i agents' w. induction agents as [|x rest IH]; intros i agents' w H;
    cbn [initialize_agents_from] in H.
  - apply ret_Ok in H as [<- <-]. split; [reflexivity |]. split; [reflexivity |].
    exists []. rewrite app_nil_r. split; [reflexivity |]. split; [reflexivity |].
    intros k a Hk. discriminate.
  - apply bind_Ok in H as (agent & w1 & Hn & H).
    unfold new_ in Hn. injection Hn as <- <-.
    apply bind_Ok in H as (? & w2 & Hi & H).
    apply invoke_Ok in Hi as (a0 & a1 & Ha0 & Hinit & Hh & Hc2 & Hl2).
    cbn [heap rng cout calls] in Ha0, Hinit, Hh, Hc2, Hl2.
    rewrite lookup_app_r, Nat.sub_diag in Ha0 by lia. injection Ha0 as <-.
    rewrite insert_app_r_alt, Nat.sub_diag in Hh by lia. simpl in Hh.
    apply bind_Ok in H as (rest' & w3 & Hrest & H). apply ret_Ok in H as [<- <-].
    apply IH in Hrest as (Hc3 & Hl3 & new & Hnew & Hlen & Hids).
    split; [congruence |]. split; [congruence |].
    exists (a1 :: new). rewrite Hnew, Hh, <- app_assoc.
    split; [reflexivity |]. split; [simpl; lia |].
    intros [|k] a Hk.
    + injection Hk as <-. pose proof Hinit as Hinit0.
      apply init_Ok in Hinit. simpl in Hinit.
      destruct Hinit as (? & ? & ? & ? & _ & _ & _ & Hid & _ & _ & _ & Hal & _).
      split; [exact Hid |]. split; [exact Hal |].
      apply (init_partners R _ _ _ _ _ _ Hinit0).
    + destruct (Hids k a Hk) as (Hid & Hrest'). rewrite iter_incr_swap in Hid.
      auto.
Qed.

(** X8. [initialize_agents] leaves the agents already in the heap as
    they are and appends one agent per slot of the vector; the vector
    receives the pointers to them, in order and without repetition; the
    agent of the slot [k] has the identifier [k] (modulo [2^32]), is
    alive and has no partner; so with at most [2^32] slots the
    identifiers are pairwise distinct. Nothing is written. *)
Theorem initialize_agents_identifiers (R : RandomSource) (agents agents' : list ptr)
  (parameters : ParameterMap) (w w' : World R) :
  initialize_agents agents parameters w = Ok (agents', w') ->
  agents' = seq (length (heap w)) (length agents) /\
  NoDup agents' /\
  cout w' = cout w /\
  exists new, heap w' = heap w ++ new /\ length new = length agents /\
    (forall (k : nat) (a : Agent),
       new !! k = Some a ->
       id a = to_unsigned (Z.of_nat k) /\ alive a = true /\ partners a = []) /\
    ((Z.of_nat (length agents) <= UINT_MODULUS)%Z ->
     forall (k1 k2 : nat) (a1 a2 : Agent),
       new !! k1 = Some a1 -> new !! k2 = Some a2 -> id a1 = id a2 -> k1 = k2).
Proof.
  intros H. unfold initialize_agents in H.
  pose proof (initialize_agents_from_Ok R (fun _ => True) parameters
                (fun _ _ _ _ _ _ => I) _ _ _ _ _ H) as (Hseq & _).
  apply initialize_agents_from_ids in H as (Hc & _ & new & Hh & Hlen & Hids).
  split; [exact Hseq |]. split; [rewrite Hseq; apply NoDup_seq |].
  split; [exact Hc |]. exists new. split; [exact Hh |]. split; [exact Hlen |].
  assert (Hid : forall k a, new !! k = Some a ->
    id a = to_unsigned (Z.of_nat k) /\ alive a = true /\ partners a = []).
  { intros k a Hk. destruct (Hids k a Hk) as (E & Hrest).
    rewrite iter_incr_unsigned in E. auto. }
  split; [exact Hid |].
  intros Hsmall k1 k2 a1 a2 H1 H2 E.
  destruct (Hid k1 a1 H1) as (E1 & _). destruct (Hid k2 a2 H2) as (E2 & _).
  apply lookup_lt_Some in H1, H2.
  rewrite E1, E2 in E. rewrite !to_unsigned_small in E by lia. lia.
Qed.

Lemma initialize_agents_identifiers_witness :
  initialize_agents [0; 0] (example_parameters d0_5 d0_5) (tape_world example_tape)
    = Ok (example_agents, example_world) /\
  example_agents = seq 0 2 /\ NoDup example_agents /\
  exists new, heap example_world = [] ++ new /\ length new = 2 /\
    forall (k : nat) (a : Agent),
      new !! k = Some a ->
      id a = to_unsigned (Z.of_nat k) /\ alive a = true /\ partners a = [].
Proof.
  split; [exact example_world_initialized |].
  destruct (initialize_agents_identifiers tape _ _ _ _ _ example_world_initialized)
    as (Hseq & HND & _ & new & Hh & Hlen & Hid & _).
  split; [exact Hseq |]. split; [exact HND |].
  exists new. split; [exact Hh |]. split; [exact Hlen | exact Hid].
Defined.

(** * Further properties: [summary], [destroy_agents] and [main] *)

(** ** Integers as doubles *)

(** The integers below [2^53] are doubles: their conversion is exact,
    and so is the difference of two of them. This is what the
    conversions between [unsigned] and [double] in [summary] rest on. *)

Lemma digits2_pos_log2 (p : positive) :
  Zpos (digits2_pos p) = (Z.log2 (Zpos p) + 1)%Z.
Proof.
  induction p as [p IH | p IH |]; cbn [digits2_pos].
  - rewrite Pos2Z.inj_succ, IH. rewrite Pos2Z.inj_xI, Z.log2_succ_double by lia. lia.
  - rewrite Pos2Z.inj_succ, IH. rewrite Pos2Z.inj_xO, Z.log2_double by lia. lia.
  - reflexivity.
Qed.

Lemma iter_xO (p d : positive) :
  Zpos (Pos.iter xO p d) = (Zpos p * 2 ^ Zpos d)%Z.
Proof.
  revert p. induction d as [| d IH] using Pos.peano_ind; intros p.
  - simpl. lia.
  - rewrite Pos.iter_succ, Pos2Z.inj_xO, IH, Pos2Z.inj_succ, Z.pow_succ_r by lia. lia.
Qed.

Lemma shl_align_spec (m : positive) (e e' : Z) :
  snd (shl_align m e e') = Z.min e e' /\
  Zpos (fst (shl_align m e e')) = (Zpos m * 2 ^ (e - Z.min e e'))%Z.
Proof.
  unfold shl_align. destruct (e' - e)%Z as [|d|d] eqn:E; cbn [fst snd].
  - replace (Z.min e e') with e by lia. rewrite Z.sub_diag. simpl. lia.
  - replace (Z.min e e') with e by lia. rewrite Z.sub_diag. simpl. lia.
  - replace (Z.min e e') with e' by lia. rewrite iter_xO.
    replace (e - e')%Z with (Zpos d) by lia. auto.
Qed.

Lemma shr_1_even (m : positive) :
  shr_1 {| shr_m := Zpos m~0; shr_r := false; shr_s := false |}
    = {| shr_m := Zpos m; shr_r := false; shr_s := false |}.
Proof. reflexivity. Qed.

Lemma pow2_xO (n : positive) : (2 ^ Zpos n~0 = 2 ^ Zpos n * 2 ^ Zpos n)%Z.
Proof. rewrite Pos2Z.inj_xO, <- Z.pow_add_r by lia. f_equal. lia. Qed.

Lemma pow2_xI (n : positive) : (2 ^ Zpos n~1 = 2 * (2 ^ Zpos n * 2 ^ Zpos n))%Z.
Proof.
  rewrite Pos2Z.inj_xI, <- Z.pow_add_r, <- Z.pow_succ_r by lia. f_equal. lia.
Qed.

Lemma iter_shr_1_exact (n m : positive) :
  SpecFloat.iter_pos shr_1 n
      {| shr_m := Zpos m * 2 ^ Zpos n; shr_r := false; shr_s := false |}
    = {| shr_m := Zpos m; shr_r := false; shr_s := false |}.
Proof.
  revert m. induction n as [n IH | n IH |]; intros m; cbn [SpecFloat.iter_pos].
  - replace (Zpos m * 2 ^ Zpos n~1)%Z with (Zpos (Pos.iter xO (Pos.iter xO m n) n)~0)
      by (rewrite Pos2Z.inj_xO, !iter_xO, pow2_xI; lia).
    rewrite shr_1_even.
    replace (Zpos (Pos.iter xO (Pos.iter xO m n) n))
      with (Zpos (Pos.iter xO m n) * 2 ^ Zpos n)%Z by (rewrite !iter_xO; reflexivity).
    rewrite IH. replace (Zpos (Pos.iter xO m n)) with (Zpos m * 2 ^ Zpos n)%Z
      by (rewrite iter_xO; reflexivity).
    apply IH.
  - replace (Zpos m * 2 ^ Zpos n~0)%Z with (Zpos (Pos.iter xO m n) * 2 ^ Zpos n)%Z
      by (rewrite iter_xO, pow2_xO; lia).
    rewrite IH. replace (Zpos (Pos.iter xO m n)) with (Zpos m * 2 ^ Zpos n)%Z
      by (rewrite iter_xO; reflexivity).
    apply IH.
  - change (Zpos m * 2 ^ 1)%Z with (Zpos m * 2)%Z.
    replace (Zpos m * 2)%Z with (Zpos m~0) by lia. apply shr_1_even.
Qed.

(** Rounding a mantissa that is a 53-digit mantissa shifted left by [n]
    is exact. *)
Lemma binary_round_aux_exact (m m2 : positive) (n e2 : Z) :
  (0 <= n)%Z -> Z.log2 (Zpos m2) = 52%Z -> (-1074 <= e2 <= 971)%Z ->
  Zpos m = (Zpos m2 * 2 ^ n)%Z ->
  binary_round_aux prec emax false (Zpos m) (e2 - n) loc_Exact
    = S754_finite false m2 e2.
Proof.
  intros Hn Hd He Hm.
  assert (Hdm : Z.log2 (Zpos m) = (52 + n)%Z)
    by (rewrite Hm, Z.log2_mul_pow2 by lia; lia).
  assert (Hshift : shr_fexp prec emax (Zpos m) (e2 - n) loc_Exact
                   = ({| shr_m := Zpos m2; shr_r := false; shr_s := false |}, e2)).
  { unfold shr_fexp, Zdigits2. rewrite digits2_pos_log2, Hdm.
    replace (fexp prec emax (52 + n + 1 + (e2 - n)) - (e2 - n))%Z with n
      by (unfold fexp, emin, prec, emax; lia).
    unfold shr, shr_record_of_loc. destruct n as [|np|np]; [| | lia].
    - f_equal; [| lia]. rewrite Z.pow_0_r, Z.mul_1_r in Hm. rewrite Hm. reflexivity.
    - rewrite Hm, iter_shr_1_exact. f_equal. lia. }
  assert (Hshift2 : shr_fexp prec emax (Zpos m2) e2 loc_Exact
                    = ({| shr_m := Zpos m2; shr_r := false; shr_s := false |}, e2)).
  { unfold shr_fexp, Zdigits2. rewrite digits2_pos_log2, Hd.
    replace (fexp prec emax (52 + 1 + e2) - e2)%Z with 0%Z
      by (unfold fexp, emin, prec, emax; lia).
    reflexivity. }
  unfold binary_round_aux. rewrite Hshift. cbn [shr_m loc_of_shr_record round_nearest_even].
  rewrite Hshift2. cbn [shr_m].
  replace (e2 <=? emax - prec)%Z with true; [reflexivity |].
  symmetry. apply Z.leb_le. unfold emax, prec. lia.
Qed.

Lemma integer_double_mantissa (c : positive) :
  (Z.log2 (Zpos c) <= 52)%Z ->
  Zpos (Z.to_pos (Zpos c * 2 ^ (52 - Z.log2 (Zpos c))))
    = (Zpos c * 2 ^ (52 - Z.log2 (Zpos c)))%Z /\
  Z.log2 (Zpos (Z.to_pos (Zpos c * 2 ^ (52 - Z.log2 (Zpos c))))) = 52%Z.
Proof.
  intros Hc. pose proof (Z.log2_nonneg (Zpos c)) as H0.
  assert (Hpos : (0 < Zpos c * 2 ^ (52 - Z.log2 (Zpos c)))%Z)
    by (apply Z.mul_pos_pos; [lia | apply Z.pow_pos_nonneg; lia]).
  rewrite Z2Pos.id by exact Hpos. split; [reflexivity |].
  rewrite Z.log2_mul_pow2 by lia. lia.
Qed.

(** Rounding the integer [c], given as the mantissa [c * 2^k] with the
    exponent [-k], yields the double of [c]. *)
Lemma binary_round_integer (m c : positive) (k : Z) :
  (0 <= k)%Z -> (Z.log2 (Zpos c) <= 52)%Z -> Zpos m = (Zpos c * 2 ^ k)%Z ->
  binary_round prec emax false m (- k) = integer_double c.
Proof.
  intros Hk Hc Hm. pose proof (Z.log2_nonneg (Zpos c)) as H0.
  destruct (integer_double_mantissa c Hc) as [Hm2 Hd2].
  set (d := Z.log2 (Zpos c)) in *.
  unfold binary_round.
  assert (Hf : fexp prec emax (Zpos (digits2_pos m) + - k) = (d - 52)%Z).
  { rewrite digits2_pos_log2, Hm, Z.log2_mul_pow2 by lia. fold d.
    unfold fexp, emin, prec, emax. lia. }
  rewrite Hf.
  destruct (shl_align_spec m (- k) (d - 52)) as [He Hv].
  destruct (shl_align m (- k) (d - 52)) as [mz ez]. cbn [fst snd] in He, Hv.
  unfold integer_double. fold d.
  replace ez with ((d - 52) - ((d - 52) - ez))%Z by lia.
  apply binary_round_aux_exact.
  - lia.
  - exact Hd2.
  - lia.
  - rewrite Hm2, Hv, Hm, He. rewrite <- Z.mul_assoc, <- Z.pow_add_r by lia.
    rewrite <- Z.mul_assoc, <- Z.pow_add_r by lia. do 2 f_equal. lia.
Qed.

(** [of_Z] on the integers below [2^53]. *)
Lemma of_Z_integer (c : positive) :
  (Z.log2 (Zpos c) <= 52)%Z -> of_Z (Zpos c) = integer_double c.
Proof.
  intros Hc. unfold of_Z, binary_normalize.
  apply (binary_round_integer c c 0); [lia | exact Hc |].
  rewrite Z.pow_0_r. lia.
Qed.

Lemma truncate_integer_double (c : positive) :
  (Z.log2 (Zpos c) <= 52)%Z -> truncate (integer_double c) = Some (Zpos c).
Proof.
  intros Hc. pose proof (Z.log2_nonneg (Zpos c)) as H0.
  destruct (integer_double_mantissa c Hc) as [Hm2 _].
  unfold truncate, integer_double. cbn [cond_Zopp]. f_equal.
  rewrite Z.shiftl_div_pow2 by lia. rewrite Hm2.
  replace (- (Z.log2 (Zpos c) - 52))%Z with (52 - Z.log2 (Zpos c))%Z by lia.
  apply Z.div_mul. apply Z.pow_nonzero; lia.
Qed.

(** The conversion of an [unsigned] to [double] and back is the
    identity. *)
Lemma truncate_of_Z (n : Z) :
  (0 <= n < 2 ^ 53)%Z -> truncate (of_Z n) = Some n.
Proof.
  intros Hn. destruct n as [|c|c]; [reflexivity | | lia].
  assert (Hc : (Z.log2 (Zpos c) <= 52)%Z).
  { assert (Z.log2 (Zpos c) < 53)%Z; [| lia]. apply Z.log2_lt_pow2; lia. }
  rewrite of_Z_integer by exact Hc. apply truncate_integer_double, Hc.
Qed.

Lemma sub_finite (ma mb : positive) (ea eb : Z) :
  sub (S754_finite false ma ea) (S754_finite false mb eb)
    = binary_normalize prec emax
        (Zpos (fst (shl_align ma ea (Z.min ea eb)))
         - Zpos (fst (shl_align mb eb (Z.min ea eb))))
        (Z.min ea eb) false.
Proof. reflexivity. Qed.

(** The difference of two integers below [2^53], the larger first, is
    computed exactly. *)
Lemma sub_of_Z (a b : Z) :
  (0 <= b <= a)%Z -> (a < 2 ^ 53)%Z -> sub (of_Z a) (of_Z b) = of_Z (a - b).
Proof.
  intros Hab Ha.
  destruct b as [|pb|pb]; [| | lia].
  - rewrite Z.sub_0_r. change (of_Z 0) with (S754_zero false).
    destruct (of_Z a) as [[|] | [|] | |]; reflexivity.
  - destruct a as [|pa|pa]; [lia | | lia].
    assert (Hla : (Z.log2 (Zpos pa) <= 52)%Z).
    { assert (Z.log2 (Zpos pa) < 53)%Z; [| lia]. apply Z.log2_lt_pow2; lia. }
    assert (Hlb : (Z.log2 (Zpos pb) <= Z.log2 (Zpos pa))%Z)
      by (apply Z.log2_le_mono; lia).
    pose proof (Z.log2_nonneg (Zpos pb)) as H0.
    rewrite !of_Z_integer by lia.
    destruct (integer_double_mantissa pa Hla) as [Hma _].
    destruct (integer_double_mantissa pb ltac:(lia)) as [Hmb _].
    unfold integer_double. rewrite sub_finite.
    set (ea := (Z.log2 (Zpos pa) - 52)%Z). set (eb := (Z.log2 (Zpos pb) - 52)%Z).
    replace (Z.min ea eb) with eb by lia.
    destruct (shl_align_spec (Z.to_pos (Zpos pa * 2 ^ (52 - Z.log2 (Zpos pa)))) ea eb)
      as [_ Hva].
    destruct (shl_align_spec (Z.to_pos (Zpos pb * 2 ^ (52 - Z.log2 (Zpos pb)))) eb eb)
      as [_ Hvb].
    cbn [cond_Zopp]. rewrite Hva, Hvb, Hma, Hmb.
    replace (Z.min ea eb) with eb by lia. rewrite Z.min_id, Z.sub_diag, Z.pow_0_r, Z.mul_1_r.
    rewrite <- Z.mul_assoc, <- Z.pow_add_r by (unfold ea, eb; lia).
    replace (52 - Z.log2 (Zpos pa) + (ea - eb))%Z with (52 - Z.log2 (Zpos pb))%Z
      by (unfold ea, eb; lia).
    rewrite <- Z.mul_sub_distr_r.
    destruct (Zpos pa - Zpos pb)%Z as [|pc|pc] eqn:Ec; [reflexivity | | lia].
    assert (Hlc : (Z.log2 (Zpos pc) <= 52)%Z).
    { assert (Z.log2 (Zpos pc) <= Z.log2 (Zpos pa))%Z; [apply Z.log2_le_mono |]; lia. }
    rewrite of_Z_integer by exact Hlc.
    assert (Hpos : (0 < Zpos pc * 2 ^ (52 - Z.log2 (Zpos pb)))%Z)
      by (apply Z.mul_pos_pos; [lia | apply Z.pow_pos_nonneg; lia]).
    destruct (Zpos pc * 2 ^ (52 - Z.log2 (Zpos pb)))%Z as [|mz|mz] eqn:Emz; [lia | | lia].
    unfold binary_normalize.
    replace eb with (- (52 - Z.log2 (Zpos pb)))%Z by (unfold eb; lia).
    apply binary_round_integer; [lia | exact Hlc | symmetry; exact Emz].
Qed.

(** ** Comparisons of doubles *)

Lemma ltb_trans (a b c : double) :
  ltb a b = true -> ltb b c = true -> ltb a c = true.
Proof.
  unfold ltb, SFltb.
  destruct a as [sa|sa| |sa ma ea], b as [sb|sb| |sb mb eb], c as [sc|sc| |sc mc ec];
    cbn [SFcompare]; try discriminate;
    repeat match goal with s : bool |- _ => destruct s end;
    try discriminate; try reflexivity;
    change (PosDef.Pos.compare_cont Eq) with Pos.compare;
    destruct (Z.compare_spec ea eb), (Z.compare_spec eb ec), (Z.compare_spec ea ec);
    try lia; try discriminate; try reflexivity;
    destruct (Pos.compare_spec ma mb), (Pos.compare_spec mb mc), (Pos.compare_spec ma mc);
    cbn [CompOpp]; try lia; try discriminate; try reflexivity.
Qed.

Lemma ltb_irrefl (a : double) : ltb a a = false.
Proof.
  unfold ltb, SFltb. destruct a as [s|s| |s m e]; cbn [SFcompare]; try reflexivity.
  - destruct s; reflexivity.
  - rewrite Z.compare_refl. change (PosDef.Pos.compare_cont Eq) with Pos.compare.
    rewrite Pos.compare_refl. destruct s; reflexivity.
Qed.

(** The least of a sequence of ages, as the loop of [summary] finds it:
    it is the starting value or one of the ages, and neither the
    starting value nor an age of the sequence is below it. *)
Lemma foldl_younger (ages : list double) (y : double) :
  foldl younger y ages ∈ y :: ages /\
  ltb y (foldl younger y ages) = false /\
  Forall (fun x => ltb x (foldl younger y ages) = false) ages.
Proof.
  assert (Hkeep : forall ages y z, ltb z y = false -> ltb z (foldl younger y ages) = false).
  { clear. induction ages as [|x ages IH]; intros y z Hz; cbn [foldl]; [exact Hz |].
    apply IH. unfold younger. destruct (ltb x y) eqn:Ex; [| exact Hz].
    destruct (ltb z x) eqn:Ez; [| reflexivity].
    rewrite (ltb_trans _ _ _ Ez Ex) in Hz. discriminate. }
  split; [| split].
  - revert y. induction ages as [|x ages IH]; intros y; cbn [foldl]; [left |].
    pose proof (IH (younger y x)) as Hin. apply elem_of_cons in Hin as [-> | Hin].
    + unfold younger. destruct (ltb x y); [right; left | left].
    + right. right. exact Hin.
  - apply Hkeep, ltb_irrefl.
  - revert y. induction ages as [|x ages IH]; intros y; cbn [foldl]; constructor.
    + apply Hkeep. unfold younger. destruct (ltb x y) eqn:E; [apply ltb_irrefl | exact E].
    + apply IH.
Qed.

(** The greatest, likewise. *)
Lemma foldl_older (ages : list double) (o : double) :
  foldl older o ages ∈ o :: ages /\
  ltb (foldl older o ages) o = false /\
  Forall (fun x => ltb (foldl older o ages) x = false) ages.
Proof.
  assert (Hkeep : forall ages o z, ltb o z = false -> ltb (foldl older o ages) z = false).
  { clear. induction ages as [|x ages IH]; intros o z Hz; cbn [foldl]; [exact Hz |].
    apply IH. unfold older. destruct (ltb o x) eqn:Ex; [| exact Hz].
    destruct (ltb x z) eqn:Ez; [| reflexivity].
    rewrite (ltb_trans _ _ _ Ex Ez) in Hz. discriminate. }
  split; [| split].
  - revert o. induction ages as [|x ages IH]; intros o; cbn [foldl]; [left |].
    pose proof (IH (older o x)) as Hin. apply elem_of_cons in Hin as [-> | Hin].
    + unfold older. destruct (ltb o x); [right; left | left].
    + right. right. exact Hin.
  - apply Hkeep, ltb_irrefl.
  - revert o. induction ages as [|x ages IH]; intros o; cbn [foldl]; constructor.
    + apply Hkeep. unfold older. destruct (ltb o x) eqn:E; [apply ltb_irrefl | exact E].
    + apply IH.
Qed.

(** ** The loop of [summary] *)

Section Tally.

Context {R : RandomSource}.

Lemma tally_agent_Ok (agent : ptr) (t t' : Tally) (w w' : World R) :
  tally_agent agent t w = Ok (t', w') ->
  w' = w /\
  exists a hiv_,
    heap w !! agent = Some a /\
    count_stage agent (tally_hiv t) w = Ok (hiv_, w) /\
    tally_males t' = (if is_sex MALE a then incr (tally_males t) else tally_males t) /\
    tally_hiv_males t'
      = (if infected_of_sex MALE a then incr (tally_hiv_males t)
         else tally_hiv_males t) /\
    tally_hiv_females t'
      = (if infected_of_sex FEMALE a then incr (tally_hiv_females t)
         else tally_hiv_females t) /\
    tally_hiv t' = hiv_ /\
    tally_avg_age t' = add (tally_avg_age t) (age a) /\
    tally_youngest t' = younger (tally_youngest t) (age a) /\
    tally_oldest t' = older (tally_oldest t) (age a).
Proof.
  unfold tally_agent. intros H.
  apply bind_Ok in H as (hiv_ & w1 & Hc & H).
  pose proof (count_stage_Ok R _ _ _ _ _ Hc) as (-> & _).
  apply bind_Ok in H as (a & w2 & Hd & H).
  apply deref_Ok in Hd as (Ha & ->).
  unfold ret in H. injection H as H1 H2. subst w' t'. split; [reflexivity |].
  exists a, hiv_. split; [exact Ha |]. split; [exact Hc |].
  unfold infected_of_sex, is_sex, infected. cbn.
  destruct (sex a), (0 <? hiv a)%Z; repeat split; reflexivity.
Qed.

Lemma entries_cons (h : list Agent) (agent : ptr) (rest : list ptr) (a : Agent) :
  h !! agent = Some a -> entries h (agent :: rest) = a :: entries h rest.
Proof. intros H. unfold entries. cbn. rewrite H. reflexivity. Qed.

Lemma counter_step (b : bool) (n n' c : Z) (k : nat) :
  c = (if b then incr n else n) ->
  to_unsigned n' = to_unsigned (c + Z.of_nat k) ->
  to_unsigned n' = to_unsigned (n + Z.of_nat ((if b then 1 else 0) + k)).
Proof.
  intros -> H. rewrite H. destruct b.
  - rewrite to_unsigned_incr. f_equal. lia.
  - f_equal.
Qed.

Lemma counter_range (b : bool) (n c : Z) :
  c = (if b then incr n else n) ->
  (0 <= n < UINT_MODULUS)%Z -> (0 <= c < UINT_MODULUS)%Z.
Proof. intros -> H. destruct b; [apply to_unsigned_range | exact H]. Qed.

(** The variables at the end of the loop: the counters are the numbers
    of entries of each kind, modulo [2^32]; the array is that of the
    loop of [report]; the ages have been added up in the order of the
    vector, and the least and the greatest of them retained. *)
Lemma tally_agents_Ok (agents : list ptr) (t t' : Tally) (w w' : World R) :
  tally_agents agents t w = Ok (t', w') ->
  w' = w /\
  Forall (fun agent => is_Some (heap w !! agent)) agents /\
  count_stages agents (tally_hiv t) w = Ok (tally_hiv t', w) /\
  (to_unsigned (tally_males t')
     = to_unsigned (tally_males t + Z.of_nat (count_if (is_sex MALE) (heap w) agents)) /\
   to_unsigned (tally_hiv_males t')
     = to_unsigned (tally_hiv_males t
                    + Z.of_nat (count_if (infected_of_sex MALE) (heap w) agents)) /\
   to_unsigned (tally_hiv_females t')
     = to_unsigned (tally_hiv_females t
                    + Z.of_nat (count_if (infected_of_sex FEMALE) (heap w) agents))) /\
  (((0 <= tally_males t < UINT_MODULUS)%Z -> (0 <= tally_males t' < UINT_MODULUS)%Z) /\
   ((0 <= tally_hiv_males t < UINT_MODULUS)%Z ->
    (0 <= tally_hiv_males t' < UINT_MODULUS)%Z) /\
   ((0 <= tally_hiv_females t < UINT_MODULUS)%Z ->
    (0 <= tally_hiv_females t' < UINT_MODULUS)%Z)) /\
  tally_avg_age t' = foldl add (tally_avg_age t) (age <$> entries (heap w) agents) /\
  tally_youngest t' = foldl younger (tally_youngest t) (age <$> entries (heap w) agents) /\
  tally_oldest t' = foldl older (tally_oldest t) (age <$> entries (heap w) agents).
Proof.
  revert t. induction agents as [|agent rest IH]; intros t H;
    cbn [tally_agents count_stages count_if] in *.
  - unfold ret in H. injection H as -> ->. rewrite !Z.add_0_r.
    repeat split; auto; lia.
  - apply bind_Ok in H as (t1 & w1 & H1 & H).
    apply tally_agent_Ok in H1
      as (-> & a & hiv_ & Ha & Hc & Hm & Hhm & Hhf & Hh & Havg & Hy & Ho).
    apply IH in H as (-> & Hall & Hcs & (Em & Ehm & Ehf) & (Rm & Rhm & Rhf) & Eavg & Ey & Eo).
    rewrite Ha, (entries_cons _ _ _ _ Ha), fmap_cons. cbn [foldl].
    rewrite <- Havg, <- Hy, <- Ho.
    split; [reflexivity |].
    split; [constructor; [rewrite Ha; eauto | exact Hall] |].
    split; [rewrite (bind_Ok_intro _ _ _ _ _ Hc), <- Hh; exact Hcs |].
    split; [| split; [| auto]].
    + split; [| split]; eapply counter_step; eauto.
    + split; [| split]; intros Hr;
        [apply Rm | apply Rhm | apply Rhf]; eapply counter_range; eauto.
Qed.

End Tally.

(** ** [summary] *)

Section SummaryFacts.

Context {R : RandomSource}.

Lemma at_Ok {S : Type} (m : ParameterMap) (key : string) (v : double) (s s' : S) :
  at_ m key s = Ok (v, s') <-> m !! key = Some v /\ s' = s.
Proof.
  unfold at_. destruct (m !! key) as [x|]; unfold ret, throw; split.
  - intros [= -> ->]. auto.
  - intros [[= ->] ->]. reflexivity.
  - discriminate.
  - intros [[=] _].
Qed.

Lemma double_to_unsigned_Ok {S : Type} (x : double) (n : Z) (s s' : S) :
  double_to_unsigned x s = Ok (n, s') <->
  truncate x = Some n /\ (0 <= n < UINT_MODULUS)%Z /\ s' = s.
Proof.
  unfold double_to_unsigned. destruct (truncate x) as [k|]; unfold ret, throw.
  - destruct (Z.leb_spec 0 k), (Z.ltb_spec k UINT_MODULUS); cbn [andb]; split;
      try discriminate; try (intros [[= ->] [? _]]; lia).
    + intros [= -> ->]. auto.
    + intros [[= ->] [_ ->]]. reflexivity.
  - split; [discriminate | intros [[=] _]].
Qed.

Lemma double_to_unsigned_of_Z {S : Type} (n : Z) (s : S) :
  (0 <= n < UINT_MODULUS)%Z -> double_to_unsigned (of_Z n) s = Ok (n, s).
Proof.
  intros Hn. apply double_to_unsigned_Ok. split; [| auto].
  apply truncate_of_Z. unfold UINT_MODULUS in Hn. lia.
Qed.

Lemma count_stage_total (agent : ptr) (a : Agent) (l : list Z) (w : World R) :
  heap w !! agent = Some a -> hiv_in_range a -> length l = 6 ->
  exists l', count_stage agent l w = Ok (l', w) /\ length l' = 6.
Proof.
  intros Ha Hr Hl. unfold count_stage, bind, deref. rewrite Ha.
  unfold hiv_in_range in Hr.
  destruct (lookup_lt_is_Some_2 l (Z.to_nat (hiv a))) as [k Hk]; [lia |].
  rewrite Hk. destruct (Z.leb_spec 0 (hiv a)); [| lia].
  unfold ret. eexists. split; [reflexivity |]. rewrite length_insert. exact Hl.
Qed.

Lemma tally_agent_total (agent : ptr) (a : Agent) (t : Tally) (w : World R) :
  heap w !! agent = Some a -> hiv_in_range a -> length (tally_hiv t) = 6 ->
  exists t', tally_agent agent t w = Ok (t', w) /\ length (tally_hiv t') = 6.
Proof.
  intros Ha Hr Hl.
  destruct (count_stage_total agent a _ w Ha Hr Hl) as (l' & Hc & Hl').
  unfold tally_agent. rewrite (bind_Ok_intro _ _ _ _ _ Hc).
  unfold bind, deref. rewrite Ha. unfold ret.
  eexists. split; [reflexivity |]. exact Hl'.
Qed.

Lemma tally_agents_total (agents : list ptr) (t : Tally) (w : World R) :
  Forall (fun agent => exists a, heap w !! agent = Some a /\ hiv_in_range a) agents ->
  length (tally_hiv t) = 6 ->
  exists t', tally_agents agents t w = Ok (t', w).
Proof.
  intros Hv. revert t.
  induction Hv as [|agent rest (a & Ha & Hr) _ IH]; intros t Hl; cbn [tally_agents].
  - unfold ret. eauto.
  - destruct (tally_agent_total agent a t w Ha Hr Hl) as (t1 & H1 & Hl1).
    rewrite (bind_Ok_intro _ _ _ _ _ H1). apply IH. exact Hl1.
Qed.

(** The loop fails only by undefined behaviour. *)
Lemma tally_agents_Err (agents : list ptr) (t : Tally) (w : World R) (e : error) :
  tally_agents agents t w = Err e -> e = undefined_behaviour.
Proof.
  revert t. induction agents as [|agent rest IH]; intros t; cbn [tally_agents].
  - discriminate.
  - unfold bind at 1. destruct (tally_agent agent t w) as [[t1 w1]|e1] eqn:E.
    + pose proof (tally_agent_Ok _ _ _ _ _ E) as (-> & _). apply IH.
    + intros [= <-]. revert E. unfold tally_agent, count_stage, bind, deref.
      destruct (heap w !! agent) as [a|] eqn:Ea; [| congruence].
      destruct (tally_hiv t !! Z.to_nat (hiv a)); [| unfold throw; congruence].
      destruct (0 <=? hiv a)%Z; unfold ret, throw; [| congruence].
      rewrite Ea. discriminate.
Qed.

End SummaryFacts.

Section SummaryRuns.

Context {R : RandomSource}.

Lemma incidence_Ok (t : Tally) (females size : Z) (outputs : ParameterMap)
  (inc : option (double * double * double)) (w w' : World R) :
  incidence t females size outputs w = Ok (inc, w') ->
  w' = w /\
  match outputs !! "HIV_MALES" with
  | None => inc = None
  | Some stored_males =>
      exists (stored_females : double) (dm df : Z),
        outputs !! "HIV_FEMALES" = Some stored_females /\
        truncate (sub (of_Z (tally_hiv_males t)) stored_males) = Some dm /\
        (0 <= dm < UINT_MODULUS)%Z /\
        truncate (sub (of_Z (tally_hiv_females t)) stored_females) = Some df /\
        (0 <= df < UINT_MODULUS)%Z /\
        inc = Some (div (of_Z dm) (of_Z (tally_males t)),
                    div (of_Z df) (of_Z females),
                    div (of_Z (to_unsigned (dm + df))) (of_Z size))
  end.
Proof.
  unfold incidence. destruct (outputs !! "HIV_MALES") as [sm|] eqn:Em.
  - intros H.
    apply bind_Ok in H as (sm' & w1 & H1 & H). apply at_Ok in H1 as (E1 & ->).
    apply bind_Ok in H as (dm & w2 & H2 & H).
    apply double_to_unsigned_Ok in H2 as (Tm & Rm & ->).
    apply bind_Ok in H as (sf & w3 & H3 & H). apply at_Ok in H3 as (E3 & ->).
    apply bind_Ok in H as (df & w4 & H4 & H).
    apply double_to_unsigned_Ok in H4 as (Tf & Rf & ->).
    apply ret_Ok in H as (<- & <-). split; [reflexivity |].
    assert (sm' = sm) as -> by congruence.
    exists sf, dm, df. auto 10.
  - intros H. apply ret_Ok in H as (<- & <-). auto.
Qed.

(** With the counts of an earlier call stored, none above the present
    one, the differences are the numbers of new infections. *)
Lemma incidence_exact (t : Tally) (females size m0 f0 : Z) (outputs : ParameterMap)
  (w : World R) :
  outputs !! "HIV_MALES" = Some (of_Z m0) ->
  outputs !! "HIV_FEMALES" = Some (of_Z f0) ->
  (0 <= m0 <= tally_hiv_males t)%Z -> (tally_hiv_males t < UINT_MODULUS)%Z ->
  (0 <= f0 <= tally_hiv_females t)%Z -> (tally_hiv_females t < UINT_MODULUS)%Z ->
  incidence t females size outputs w
    = Ok (Some (div (of_Z (tally_hiv_males t - m0)) (of_Z (tally_males t)),
                div (of_Z (tally_hiv_females t - f0)) (of_Z females),
                div (of_Z (to_unsigned
                             ((tally_hiv_males t - m0) + (tally_hiv_females t - f0))))
                    (of_Z size)), w).
Proof.
  intros Em Ef Hm Hm' Hf Hf'. unfold incidence, at_. rewrite Em, Ef.
  unfold UINT_MODULUS in *.
  unfold bind at 1, ret at 1.
  rewrite sub_of_Z by lia.
  erewrite bind_Ok_intro by (apply double_to_unsigned_of_Z; unfold UINT_MODULUS; lia).
  unfold bind at 1, ret at 1.
  rewrite sub_of_Z by lia.
  erewrite bind_Ok_intro by (apply double_to_unsigned_of_Z; unfold UINT_MODULUS; lia).
  reflexivity.
Qed.

Lemma summary_Ok (sim_no : Z) (description : string) (agents : list ptr)
  (outputs outputs' : ParameterMap) (s : Summary) (w w' : World R) :
  summary sim_no description agents outputs w = Ok ((s, outputs'), w') ->
  w' = w /\
  exists (agent : ptr) (rest : list ptr) (first : Agent) (t : Tally)
         (inc : option (double * double * double)),
    agents = agent :: rest /\
    heap w !! agent = Some first /\
    tally_agents agents (tally_start first) w = Ok (t, w) /\
    incidence t (females_of (Z.of_nat (length agents)) t) (Z.of_nat (length agents))
      outputs w = Ok (inc, w) /\
    s = summary_lines sim_no description (Z.of_nat (length agents)) t inc /\
    outputs' = <["HIV_FEMALES" := of_Z (tally_hiv_females t)]>
                 (<["HIV_MALES" := of_Z (tally_hiv_males t)]> outputs).
Proof.
  unfold summary. intros H.
  apply bind_Ok in H as (first & w1 & H1 & H).
  destruct agents as [|agent rest]; [discriminate |].
  apply deref_Ok in H1 as (Ha & ->).
  apply bind_Ok in H as (t & w2 & H2 & H).
  pose proof (tally_agents_Ok _ _ _ _ _ H2) as (-> & _).
  cbv zeta in H.
  apply bind_Ok in H as (inc & w3 & H3 & H).
  pose proof (incidence_Ok _ _ _ _ _ _ _ H3) as (-> & _).
  apply ret_Ok in H as (H & <-). injection H as <- <-.
  split; [reflexivity |]. exists agent, rest, first, t, inc. auto 10.
Qed.

Lemma summary_total (sim_no : Z) (description : string) (agents : list ptr)
  (outputs : ParameterMap) (w : World R) :
  agents <> [] ->
  Forall (fun agent => exists a, heap w !! agent = Some a /\ hiv_in_range a) agents ->
  exists (first : Agent) (t : Tally),
    tally_agents agents (tally_start first) w = Ok (t, w) /\
    summary sim_no description agents outputs w
      = (do inc <- incidence t (females_of (Z.of_nat (length agents)) t)
                     (Z.of_nat (length agents)) outputs ;;
         ret (summary_lines sim_no description (Z.of_nat (length agents)) t inc,
              <["HIV_FEMALES" := of_Z (tally_hiv_females t)]>
                (<["HIV_MALES" := of_Z (tally_hiv_males t)]> outputs))) w.
Proof.
  intros Hne Hv. destruct agents as [|agent rest]; [congruence |].
  pose proof (Forall_inv Hv) as (first & Ha & _).
  destruct (tally_agents_total (agent :: rest) (tally_start first) w Hv eq_refl)
    as (t & Ht).
  exists first, t. split; [exact Ht |].
  unfold summary.
  erewrite bind_Ok_intro by (unfold deref; rewrite Ha; reflexivity).
  erewrite bind_Ok_intro by exact Ht. reflexivity.
Qed.

End SummaryRuns.

(** ** Counting the entries of a vector *)

Lemma count_if_le_length (f : Agent -> bool) (h : list Agent) (agents : list ptr) :
  count_if f h agents <= length agents.
Proof.
  induction agents as [|agent rest IH]; cbn [count_if length]; [lia |].
  destruct (h !! agent) as [a|]; [destruct (f a) |]; lia.
Qed.

Lemma count_if_Permutation (f : Agent -> bool) (h : list Agent) (agents agents' : list ptr) :
  agents ≡ₚ agents' -> count_if f h agents = count_if f h agents'.
Proof.
  induction 1 as [|agent l l' _ IH|x y l|l l' l'' _ IH1 _ IH2]; cbn [count_if].
  - reflexivity.
  - rewrite IH. reflexivity.
  - destruct (h !! x), (h !! y); lia.
  - congruence.
Qed.

(** Two kinds of agents that exclude each other are counted apart. *)
Lemma count_if_disjoint (f g : Agent -> bool) (h : list Agent) (agents : list ptr) :
  (forall a, f a = true -> g a = false) ->
  count_if f h agents + count_if g h agents <= length agents.
Proof.
  intros Hfg. induction agents as [|agent rest IH]; cbn [count_if length]; [lia |].
  destruct (h !! agent) as [a|]; [| lia].
  destruct (f a) eqn:Ef; [rewrite (Hfg a Ef) | destruct (g a)]; lia.
Qed.

(** Every entry that points to an agent is a male or a female. *)
Lemma count_if_sexes (h : list Agent) (agents : list ptr) :
  Forall (fun agent => is_Some (h !! agent)) agents ->
  count_if (is_sex MALE) h agents + count_if (is_sex FEMALE) h agents = length agents.
Proof.
  induction 1 as [|agent rest [a Ha] _ IH]; cbn [count_if length]; [reflexivity |].
  rewrite Ha. unfold is_sex at 1 3. destruct (sex a); lia.
Qed.

(** From a heap to one related to it agent by agent, a count does not
    decrease when the relation keeps what is counted. *)
Lemma count_if_Forall2 (Q : Agent -> Agent -> Prop) (f g : Agent -> bool)
  (h h' : list Agent) (agents : list ptr) :
  Forall2 Q h h' ->
  (forall a a', Q a a' -> f a = true -> g a' = true) ->
  count_if f h agents <= count_if g h' agents.
Proof.
  intros HQ Hfg. induction agents as [|agent rest IH]; cbn [count_if]; [lia |].
  destruct (h !! agent) as [a|] eqn:Ha.
  - destruct (Forall2_lookup_l _ _ _ _ _ HQ Ha) as (a' & Ha' & Haa').
    rewrite Ha'. destruct (f a) eqn:Ef; [rewrite (Hfg _ _ Haa' Ef) | destruct (g a')]; lia.
  - destruct (h' !! agent) as [a'|]; [destruct (g a') |]; lia.
Qed.

Lemma entries_length (h : list Agent) (agents : list ptr) :
  Forall (fun agent => is_Some (h !! agent)) agents ->
  length (entries h agents) = length agents.
Proof.
  induction 1 as [|agent rest [a Ha] _ IH]; [reflexivity |].
  rewrite (entries_cons _ _ _ _ Ha). cbn [length]. rewrite IH. reflexivity.
Qed.

(** The array [hiv[6]] after the loop over the vector. *)
Lemma count_stages_array (R : RandomSource) (agents : list ptr) (l : list Z)
  (w w' : World R) :
  count_stages agents [0; 0; 0; 0; 0; 0]%Z w = Ok (l, w') ->
  length l = 6 /\
  (forall j, j < 6 ->
     l !! j = Some (to_unsigned (Z.of_nat (stage_count (Z.of_nat j) (heap w) agents)))) /\
  Forall (fun agent => exists a, heap w !! agent = Some a /\ hiv_in_range a) agents.
Proof.
  intros Hs.
  pose proof (count_stages_counts R _ _ _ _ _ Hs) as [Hlen Hcount].
  pose proof (count_stages_in_range R _ _ _ _ _ Hs) as Hrange.
  cbn [length] in Hlen, Hrange.
  split; [exact Hlen |]. split.
  - intros j Hj.
    destruct (lookup_lt_is_Some_2 [0; 0; 0; 0; 0; 0]%Z j) as [n Hn]; [simpl; lia |].
    assert (n = 0%Z) as ->.
    { do 6 (destruct j as [|j]; [injection Hn as <-; reflexivity |]). simpl in Hj. lia. }
    destruct (Hcount j 0%Z Hn) as (n' & Hn' & E & Hr).
    rewrite Hn'. f_equal. rewrite Z.add_0_l in E. rewrite <- E.
    symmetry. apply to_unsigned_small. apply Hr. unfold UINT_MODULUS. lia.
  - eapply Forall_impl; [exact Hrange |].
    intros agent (a & Ha & Hr). exists a. split; [exact Ha |].
    unfold hiv_in_range. lia.
Qed.

(** ** What [summary] writes *)

Section SummaryLines.

Context {R : RandomSource}.

(** The variables after the loop, started as [summary] starts it. *)
Lemma tally_agents_start (agents : list ptr) (first : Agent) (t : Tally) (w : World R) :
  tally_agents agents (tally_start first) w = Ok (t, w) ->
  let h := heap w in
  let ages := age <$> entries h agents in
  Forall (fun agent => exists a, h !! agent = Some a /\ hiv_in_range a) agents /\
  tally_males t = to_unsigned (Z.of_nat (count_if (is_sex MALE) h agents)) /\
  tally_hiv_males t = to_unsigned (Z.of_nat (count_if (infected_of_sex MALE) h agents)) /\
  tally_hiv_females t
    = to_unsigned (Z.of_nat (count_if (infected_of_sex FEMALE) h agents)) /\
  length (tally_hiv t) = 6 /\
  (forall j, j < 6 ->
     tally_hiv t !! j = Some (to_unsigned (Z.of_nat (stage_count (Z.of_nat j) h agents)))) /\
  tally_avg_age t = foldl add zero ages /\
  tally_youngest t = foldl younger (age first) ages /\
  tally_oldest t = foldl older (age first) ages.
Proof.
  intros H h ages.
  apply tally_agents_Ok in H
    as (_ & _ & Hcs & (Em & Ehm & Ehf) & (Rm & Rhm & Rhf) & Eavg & Ey & Eo).
  cbn [tally_start tally_males tally_hiv_males tally_hiv_females tally_hiv
       tally_avg_age tally_youngest tally_oldest] in *.
  destruct (count_stages_array R _ _ _ _ Hcs) as (Hlen & Harr & Hok).
  assert (H0 : (0 <= 0 < UINT_MODULUS)%Z) by (unfold UINT_MODULUS; lia).
  rewrite Z.add_0_l in Em, Ehm, Ehf.
  rewrite to_unsigned_small in Em by auto.
  rewrite to_unsigned_small in Ehm by auto.
  rewrite to_unsigned_small in Ehf by auto.
  auto 10.
Qed.

(** Below [2^32] entries no counter wraps, and the females are the
    entries that are not males. *)
Lemma females_of_count (h : list Agent) (agents : list ptr) (t : Tally) :
  Forall (fun agent => is_Some (h !! agent)) agents ->
  (Z.of_nat (length agents) < UINT_MODULUS)%Z ->
  tally_males t = to_unsigned (Z.of_nat (count_if (is_sex MALE) h agents)) ->
  tally_males t = Z.of_nat (count_if (is_sex MALE) h agents) /\
  to_size_t (Z.of_nat (length agents) - tally_males t)
    = Z.of_nat (count_if (is_sex FEMALE) h agents) /\
  females_of (Z.of_nat (length agents)) t
    = Z.of_nat (count_if (is_sex FEMALE) h agents).
Proof.
  intros Hv Hlen Hm.
  pose proof (count_if_sexes h agents Hv) as Hs.
  pose proof (count_if_le_length (is_sex MALE) h agents) as Hle.
  rewrite to_unsigned_small in Hm by lia.
  unfold females_of. rewrite Hm.
  replace (Z.of_nat (length agents) - Z.of_nat (count_if (is_sex MALE) h agents))%Z
    with (Z.of_nat (count_if (is_sex FEMALE) h agents)) by lia.
  assert (Hf : (0 <= Z.of_nat (count_if (is_sex FEMALE) h agents) < UINT_MODULUS)%Z) by lia.
  assert (Hsz : to_size_t (Z.of_nat (count_if (is_sex FEMALE) h agents))
                = Z.of_nat (count_if (is_sex FEMALE) h agents)).
  { unfold to_size_t, SIZE_MODULUS. apply Z.mod_small.
    unfold UINT_MODULUS in Hf. lia. }
  rewrite Hsz, to_unsigned_small by exact Hf. auto.
Qed.

Lemma ok_is_Some (h : list Agent) (agents : list ptr) :
  Forall (fun agent => exists a, h !! agent = Some a /\ hiv_in_range a) agents ->
  Forall (fun agent => is_Some (h !! agent)) agents.
Proof.
  intros H. eapply Forall_impl; [exact H |].
  intros agent (a & Ha & _). rewrite Ha. eauto.
Qed.

End SummaryLines.

(** X9. A [summary] that returns has left the agents and the engine as
    they were. The males written are the entries of the vector that
    point to a male, the females the [size_t] difference with the size
    of the vector, the two prevalences the quotients of the infected by
    them, the six stage entries the numbers of entries at the stages 0
    to 5, every counter modulo [2^32]; the outputs receive the two
    numbers of infected under [HIV_MALES] and [HIV_FEMALES]. Below
    [2^32] entries no counter wraps, and the females written are the
    entries that point to a female. *)
Theorem summary_counts (R : RandomSource) (sim_no : Z) (description : string)
  (agents : list ptr) (outputs outputs' : ParameterMap) (s : Summary) (w w' : World R) :
  summary sim_no description agents outputs w = Ok ((s, outputs'), w') ->
  let h := heap w in
  let size := Z.of_nat (length agents) in
  let males := to_unsigned (Z.of_nat (count_if (is_sex MALE) h agents)) in
  let hiv_males := to_unsigned (Z.of_nat (count_if (infected_of_sex MALE) h agents)) in
  let hiv_females := to_unsigned (Z.of_nat (count_if (infected_of_sex FEMALE) h agents)) in
  w' = w /\
  summary_sim_no s = sim_no /\ summary_description s = description /\
  summary_males s = males /\
  summary_females s = to_size_t (size - males) /\
  summary_male_prevalence s = div (of_Z hiv_males) (of_Z males) /\
  summary_female_prevalence s
    = div (of_Z hiv_females) (of_Z (to_unsigned (to_size_t (size - males)))) /\
  length (summary_hiv s) = 6 /\
  (forall j, j < 6 ->
     summary_hiv s !! j
       = Some (to_unsigned (Z.of_nat (stage_count (Z.of_nat j) h agents)))) /\
  outputs' = <["HIV_FEMALES" := of_Z hiv_females]>
               (<["HIV_MALES" := of_Z hiv_males]> outputs) /\
  ((size < UINT_MODULUS)%Z ->
   summary_males s = Z.of_nat (count_if (is_sex MALE) h agents) /\
   summary_females s = Z.of_nat (count_if (is_sex FEMALE) h agents) /\
   summary_male_prevalence s
     = div (of_Z (Z.of_nat (count_if (infected_of_sex MALE) h agents)))
           (of_Z (Z.of_nat (count_if (is_sex MALE) h agents))) /\
   summary_female_prevalence s
     = div (of_Z (Z.of_nat (count_if (infected_of_sex FEMALE) h agents)))
           (of_Z (Z.of_nat (count_if (is_sex FEMALE) h agents)))).
Proof.
  intros H h size males hiv_males hiv_females.
  apply summary_Ok in H
    as (-> & agent & rest & first & t & inc & -> & Ha & Ht & Hinc & -> & ->).
  apply tally_agents_start in Ht
    as (Hok & Em & Ehm & Ehf & Hlen & Harr & _).
  fold h in Hok, Em, Ehm, Ehf, Harr. fold males in Em.
  fold hiv_males in Ehm. fold hiv_females in Ehf.
  cbn [summary_lines summary_sim_no summary_description summary_males summary_females
       summary_male_prevalence summary_female_prevalence summary_hiv].
  unfold females_of. rewrite Em, Ehm, Ehf. fold size.
  repeat (split; [first [reflexivity | assumption] |]).
  intros Hsize.
  destruct (females_of_count h (agent :: rest) t (ok_is_Some _ _ Hok) Hsize Em)
    as (Em' & Ef' & Ef'').
  unfold females_of in Ef''. fold size in Ef', Ef''. rewrite Em in Em', Ef', Ef''.
  pose proof (count_if_le_length (infected_of_sex MALE) h (agent :: rest)) as Lm.
  pose proof (count_if_le_length (infected_of_sex FEMALE) h (agent :: rest)) as Lf.
  fold size in Lm, Lf.
  rewrite Ef''. unfold hiv_males, hiv_females.
  rewrite !(to_unsigned_small (Z.of_nat (count_if (infected_of_sex _) _ _)))
    by (unfold size in *; lia).
  rewrite <- Em'. auto.
Qed.

(** X10. The ages that a [summary] that returns has written: the
    youngest and the oldest are ages of agents of the vector, no agent
    of the vector has an age below the youngest or above the oldest, and
    the average is the sum of the ages, added up from [0.0] in the order
    of the vector, divided by the size of the vector. *)
Theorem summary_ages (R : RandomSource) (sim_no : Z) (description : string)
  (agents : list ptr) (outputs outputs' : ParameterMap) (s : Summary) (w w' : World R) :
  summary sim_no description agents outputs w = Ok ((s, outputs'), w') ->
  let ages := age <$> entries (heap w) agents in
  length ages = length agents /\
  summary_youngest s ∈ ages /\
  Forall (fun x => ltb x (summary_youngest s) = false) ages /\
  summary_oldest s ∈ ages /\
  Forall (fun x => ltb (summary_oldest s) x = false) ages /\
  summary_average_age s = div (foldl add zero ages) (of_Z (Z.of_nat (length agents))).
Proof.
  intros H ages.
  apply summary_Ok in H
    as (-> & agent & rest & first & t & inc & -> & Ha & Ht & Hinc & -> & ->).
  apply tally_agents_start in Ht
    as (Hok & _ & _ & _ & _ & _ & Eavg & Ey & Eo).
  fold ages in Eavg, Ey, Eo.
  cbn [summary_lines summary_youngest summary_oldest summary_average_age].
  rewrite Eavg, Ey, Eo.
  assert (Hages : ages = age first :: (age <$> entries (heap w) rest)).
  { unfold ages. rewrite (entries_cons _ _ _ _ Ha). reflexivity. }
  destruct (foldl_younger ages (age first)) as (Hyin & _ & Hyall).
  destruct (foldl_older ages (age first)) as (Hoin & _ & Hoall).
  split; [unfold ages; rewrite length_fmap; apply entries_length, ok_is_Some, Hok |].
  split.
  { apply elem_of_cons in Hyin as [E | Hyin]; [| exact Hyin].
    rewrite E, Hages. left. }
  split; [exact Hyall |]. split.
  { apply elem_of_cons in Hoin as [E | Hoin]; [| exact Hoin].
    rewrite E, Hages. left. }
  split; [exact Hoall | reflexivity].
Qed.

(** X11. When [summary] is undefined and when it returns: it is
    undefined on an empty vector, whose first entry it reads, and on a
    vector with an entry that points to no agent or to an agent whose
    stage is outside the array [hiv[6]]; on any other vector, with
    outputs that do not hold [HIV_MALES], it returns, having written no
    incidence. *)
Theorem summary_outcome (R : RandomSource) (sim_no : Z) (description : string)
  (agents : list ptr) (outputs : ParameterMap) (w : World R) :
  (agents = [] ->
   summary sim_no description agents outputs w = Err undefined_behaviour) /\
  (Exists (fun agent => match heap w !! agent with
                        | Some a => ~ hiv_in_range a
                        | None => True
                        end) agents ->
   summary sim_no description agents outputs w = Err undefined_behaviour) /\
  (agents <> [] ->
   Forall (fun agent => exists a, heap w !! agent = Some a /\ hiv_in_range a) agents ->
   outputs !! "HIV_MALES" = None ->
   exists s outputs',
     summary sim_no description agents outputs w = Ok ((s, outputs'), w) /\
     summary_incidence s = None).
Proof.
  split; [| split].
  - intros ->. reflexivity.
  - intros Hbad. unfold summary.
    destruct agents as [|agent rest]; [inversion Hbad |].
    unfold bind at 1, deref.
    destruct (heap w !! agent) as [first|] eqn:Ha; [| reflexivity].
    unfold bind at 1.
    destruct (tally_agents (agent :: rest) (tally_start first) w) as [[t w1]|e] eqn:Ht.
    + exfalso.
      pose proof (tally_agents_Ok _ _ _ _ _ Ht) as (-> & _).
      apply tally_agents_start in Ht as (Hok & _).
      apply Exists_exists in Hbad as (p & Hp & Hpbad).
      rewrite Forall_forall in Hok. destruct (Hok p Hp) as (a & Hpa & Hr).
      rewrite Hpa in Hpbad. contradiction.
    + rewrite (tally_agents_Err _ _ _ _ Ht). reflexivity.
  - intros Hne Hok Hnone.
    destruct (summary_total sim_no description agents outputs w Hne Hok)
      as (first & t & _ & ->).
    unfold incidence. rewrite Hnone. unfold bind, ret.
    eexists _, _. split; reflexivity.
Qed.

(** ** [summary] after [simulate] *)

Lemma count_if_Forall2_eq (Q : Agent -> Agent -> Prop) (f g : Agent -> bool)
  (h h' : list Agent) (agents : list ptr) :
  Forall2 Q h h' ->
  (forall a a', Q a a' -> f a = g a') ->
  count_if f h agents = count_if g h' agents.
Proof.
  intros HQ Hfg. induction agents as [|agent rest IH]; cbn [count_if]; [lia |].
  destruct (h !! agent) as [a|] eqn:Ha.
  - destruct (Forall2_lookup_l _ _ _ _ _ HQ Ha) as (a' & Ha' & Haa').
    rewrite Ha', (Hfg _ _ Haa'), IH. reflexivity.
  - assert (h' !! agent = None) as ->; [| exact IH].
    apply lookup_ge_None. rewrite <- (Forall2_length _ _ _ HQ).
    apply lookup_ge_None. exact Ha.
Qed.

Lemma Forall2_both {A B : Type} (P Q : A -> B -> Prop) (l : list A) (k : list B) :
  Forall2 P l k -> Forall2 Q l k -> Forall2 (fun x y => P x y /\ Q x y) l k.
Proof.
  intros HP. induction HP as [|x y l k Hxy _ IH]; intros HQ.
  - constructor.
  - apply Forall2_cons_1 in HQ as [Hq HQ]. constructor; auto.
Qed.

(** What a run of stage progressions that keeps the sexes does to the
    counts of [summary] on a permutation of the vector: the males and
    the females stay as many, the infected of either sex do not become
    fewer, and the stages stay within the array. *)
Lemma progress_counts (h h' : list Agent) (agents agents' : list ptr) :
  Forall2 stage_progress h h' -> Forall2 same_identity h h' ->
  agents' ≡ₚ agents ->
  Forall (fun agent => exists a, h !! agent = Some a /\ hiv_in_range a) agents ->
  Forall (fun agent => exists a, h' !! agent = Some a /\ hiv_in_range a) agents' /\
  (forall x, count_if (is_sex x) h' agents' = count_if (is_sex x) h agents) /\
  (forall x, count_if (infected_of_sex x) h agents
             <= count_if (infected_of_sex x) h' agents').
Proof.
  intros Hp Hi Hperm Hok.
  pose proof (Forall2_both _ _ _ _ Hp Hi) as HQ.
  split; [| split].
  - rewrite Forall_forall in *. intros agent Hin.
    rewrite Hperm in Hin. destruct (Hok agent Hin) as (a & Ha & Hr).
    destruct (Forall2_lookup_l _ _ _ _ _ Hp Ha) as (a' & Ha' & Haa').
    exists a'. split; [exact Ha' |].
    unfold stage_progress in Haa'. unfold hiv_in_range in *. lia.
  - intros x. rewrite (count_if_Permutation _ _ _ _ Hperm). symmetry.
    apply (count_if_Forall2_eq _ _ _ _ _ _ Hi).
    intros a a' (_ & Hs & _). unfold is_sex. rewrite Hs. reflexivity.
  - intros x. rewrite (count_if_Permutation _ h' _ _ Hperm).
    apply (count_if_Forall2 _ _ _ _ _ _ HQ).
    intros a a' (Hsp & _ & Hs & _). unfold infected_of_sex, is_sex, infected.
    rewrite Hs. unfold stage_progress in Hsp.
    destruct (sex a), x; cbn [andb]; try discriminate;
      intros H%Z.ltb_lt; apply Z.ltb_lt; lia.
Qed.

Section SummaryTwice.

Context {R : RandomSource}.

(** A [summary] on outputs that hold the counts of an earlier one, none
    above the present count: it returns, and the incidences written are
    the numbers of new infections over the males, the females and the
    size of the vector. *)
Lemma summary_with_counts (sim_no : Z) (description : string) (agents : list ptr)
  (outputs : ParameterMap) (m0 f0 : nat) (w : World R) :
  agents <> [] ->
  Forall (fun agent => exists a, heap w !! agent = Some a /\ hiv_in_range a) agents ->
  (Z.of_nat (length agents) < UINT_MODULUS)%Z ->
  outputs !! "HIV_MALES" = Some (of_Z (Z.of_nat m0)) ->
  outputs !! "HIV_FEMALES" = Some (of_Z (Z.of_nat f0)) ->
  m0 <= count_if (infected_of_sex MALE) (heap w) agents ->
  f0 <= count_if (infected_of_sex FEMALE) (heap w) agents ->
  let males := Z.of_nat (count_if (is_sex MALE) (heap w) agents) in
  let females := Z.of_nat (count_if (is_sex FEMALE) (heap w) agents) in
  let new_males :=
    (Z.of_nat (count_if (infected_of_sex MALE) (heap w) agents) - Z.of_nat m0)%Z in
  let new_females :=
    (Z.of_nat (count_if (infected_of_sex FEMALE) (heap w) agents) - Z.of_nat f0)%Z in
  exists s outputs',
    summary sim_no description agents outputs w = Ok ((s, outputs'), w) /\
    summary_males s = males /\ summary_females s = females /\
    summary_incidence s
      = Some (div (of_Z new_males) (of_Z males),
              div (of_Z new_females) (of_Z females),
              div (of_Z (new_males + new_females)) (of_Z (Z.of_nat (length agents)))).
Proof.
  intros Hne Hok Hsize Em Ef Hm Hf males females new_males new_females.
  destruct (summary_total sim_no description agents outputs w Hne Hok)
    as (first & t & Ht & ->).
  apply tally_agents_start in Ht as (_ & Tm & Thm & Thf & _).
  destruct (females_of_count _ _ t (ok_is_Some _ _ Hok) Hsize Tm) as (Tm' & Tf' & Tf'').
  pose proof (count_if_le_length (infected_of_sex MALE) (heap w) agents) as Lm.
  pose proof (count_if_le_length (infected_of_sex FEMALE) (heap w) agents) as Lf.
  pose proof (count_if_disjoint (infected_of_sex MALE) (infected_of_sex FEMALE)
                (heap w) agents) as Ld.
  rewrite to_unsigned_small in Thm by lia.
  rewrite to_unsigned_small in Thf by lia.
  erewrite bind_Ok_intro
    by (apply (incidence_exact t _ _ (Z.of_nat m0) (Z.of_nat f0)); auto; lia).
  unfold ret. eexists _, _. split; [reflexivity |].
  cbn [summary_lines summary_males summary_females summary_incidence].
  rewrite Tf', Tf'', Tm', Thm, Thf.
  split; [reflexivity |]. split; [reflexivity |].
  fold males females new_males new_females.
  rewrite to_unsigned_small; [reflexivity |].
  assert (count_if (infected_of_sex MALE) (heap w) agents
          + count_if (infected_of_sex FEMALE) (heap w) agents <= length agents).
  { apply Ld. intros a. unfold infected_of_sex, is_sex. destruct (sex a); cbn [andb]; [reflexivity | discriminate]. }
  unfold new_males, new_females. lia.
Qed.

End SummaryTwice.

(** The two assignments at the end of [summary]. *)
Lemma outputs_lookup (outputs : gmap string double) (x y : double) :
  (<["HIV_FEMALES" := y]> (<["HIV_MALES" := x]> outputs)) !! "HIV_MALES" = Some x /\
  (<["HIV_FEMALES" := y]> (<["HIV_MALES" := x]> outputs)) !! "HIV_FEMALES" = Some y.
Proof.
  split.
  - rewrite lookup_insert_ne by discriminate. apply lookup_insert_eq.
  - apply lookup_insert_eq.
Qed.

Section SummaryThenSimulate.

Context {R : RandomSource}.

(** What a [summary] that has returned leaves for the next one. *)
Lemma summary_leaves (sim_no : Z) (description : string) (agents : list ptr)
  (outputs outputs' : ParameterMap) (s : Summary) (w w' : World R) :
  summary sim_no description agents outputs w = Ok ((s, outputs'), w') ->
  (Z.of_nat (length agents) < UINT_MODULUS)%Z ->
  w' = w /\ agents <> [] /\
  Forall (fun agent => exists a, heap w !! agent = Some a /\ hiv_in_range a) agents /\
  summary_males s = Z.of_nat (count_if (is_sex MALE) (heap w) agents) /\
  summary_females s = Z.of_nat (count_if (is_sex FEMALE) (heap w) agents) /\
  outputs' !! "HIV_MALES"
    = Some (of_Z (Z.of_nat (count_if (infected_of_sex MALE) (heap w) agents))) /\
  outputs' !! "HIV_FEMALES"
    = Some (of_Z (Z.of_nat (count_if (infected_of_sex FEMALE) (heap w) agents))).
Proof.
  intros H Hsize.
  apply summary_Ok in H
    as (-> & agent & rest & first & t & inc & -> & Ha & Ht & Hinc & -> & ->).
  apply tally_agents_start in Ht as (Hok & Tm & Thm & Thf & _).
  destruct (females_of_count _ _ t (ok_is_Some _ _ Hok) Hsize Tm) as (Tm' & Tf' & _).
  pose proof (count_if_le_length (infected_of_sex MALE) (heap w) (agent :: rest)) as Lm.
  pose proof (count_if_le_length (infected_of_sex FEMALE) (heap w) (agent :: rest)) as Lf.
  rewrite to_unsigned_small in Thm by lia.
  rewrite to_unsigned_small in Thf by lia.
  cbn [summary_lines summary_males summary_females].
  split; [reflexivity |]. split; [discriminate |]. split; [exact Hok |].
  split; [exact Tm' |]. split; [exact Tf' |]. split.
  - rewrite <- Thm. apply (outputs_lookup outputs).
  - rewrite <- Thf. apply (outputs_lookup outputs).
Qed.

Lemma simulate_progress (agents agents' : list ptr) (parameters : ParameterMap)
  (w w' : World R) :
  shuffle_permutes R ->
  simulate agents parameters w = Ok (agents', w') ->
  Forall2 stage_progress (heap w) (heap w') /\
  Forall2 same_identity (heap w) (heap w') /\
  agents' ≡ₚ agents.
Proof.
  intros Hsh H. apply simulate_Ok in H as (n & ts & sd & prob & _ & _ & _ & H).
  split; [exact (simulate_loop_stage_progress R _ _ _ _ _ _ _ _ _ H) |].
  split; [exact (simulate_loop_same_identity R _ _ _ _ _ _ _ _ _ H) |].
  exact (simulate_loop_Permutation R _ _ _ _ _ _ _ _ _ Hsh H).
Qed.

End SummaryThenSimulate.

(** X12. The incidence is defined because nobody recovers. With
    [std::shuffle] permuting a vector of fewer than [2^32] entries:
    after a [summary] that has returned and a [simulate] that has
    returned, the infected males and the infected females of the vector
    are not fewer than before, so the two differences with the stored
    counts convert to [unsigned]; a second [summary] returns, writes as
    many males and females as the first, and writes as incidences the
    numbers of new infections over the males, the females and the size
    of the vector. *)
Theorem incidence_after_simulate (R : RandomSource) (sim_no sim_no' : Z)
  (description description' : string) (agents agents' : list ptr)
  (parameters outputs outputs0 : ParameterMap) (s0 : Summary) (w w0 w' : World R) :
  shuffle_permutes R ->
  (Z.of_nat (length agents) < UINT_MODULUS)%Z ->
  summary sim_no description agents outputs w = Ok ((s0, outputs0), w0) ->
  simulate agents parameters w0 = Ok (agents', w') ->
  let new_infections x :=
    (Z.of_nat (count_if (infected_of_sex x) (heap w') agents')
     - Z.of_nat (count_if (infected_of_sex x) (heap w) agents))%Z in
  (forall x, 0 <= new_infections x)%Z /\
  exists s1 outputs1,
    summary sim_no' description' agents' outputs0 w' = Ok ((s1, outputs1), w') /\
    summary_males s1 = summary_males s0 /\
    summary_females s1 = summary_females s0 /\
    summary_incidence s1
      = Some (div (of_Z (new_infections MALE)) (of_Z (summary_males s0)),
              div (of_Z (new_infections FEMALE)) (of_Z (summary_females s0)),
              div (of_Z (new_infections MALE + new_infections FEMALE))
                  (of_Z (Z.of_nat (length agents)))).
Proof.
  intros Hsh Hsize H0 Hsim new_infections.
  apply summary_leaves in H0 as (-> & Hne & Hok & Em & Ef & Om & Of); [| exact Hsize].
  destruct (simulate_progress _ _ _ _ _ Hsh Hsim) as (Hp & Hi & Hperm).
  destruct (progress_counts _ _ _ _ Hp Hi Hperm Hok) as (Hok' & Hsex & Hinf).
  assert (Hlen : length agents' = length agents) by (rewrite Hperm; reflexivity).
  split; [intros x; unfold new_infections; pose proof (Hinf x); lia |].
  assert (Hne' : agents' <> []).
  { intros ->. apply Hne. apply Permutation_nil. exact Hperm. }
  rewrite <- Hlen in Hsize.
  destruct (summary_with_counts sim_no' description' agents' outputs0 _ _ w'
              Hne' Hok' Hsize Om Of (Hinf MALE) (Hinf FEMALE))
    as (s1 & outputs1 & H1 & Hm1 & Hf1 & Hinc).
  exists s1, outputs1. split; [exact H1 |].
  rewrite Hm1, Hf1, Hinc, !Hsex, Em, Ef, Hlen. auto.
Qed.

(** ** [destroy_agents] *)

Section Destroy.

Context {R : RandomSource}.

Lemma non_null_Some (agents : list ptr) : non_null (Some <$> agents) = agents.
Proof.
  induction agents as [|agent rest IH]; [reflexivity |].
  unfold non_null in *. cbn. rewrite IH. reflexivity.
Qed.

Lemma non_null_replicate (n : nat) : non_null (replicate n None) = [].
Proof. induction n as [|n IH]; [reflexivity | exact IH]. Qed.

Lemma destroy_agents_Ok (agents : list (option ptr)) (deleted r : list ptr)
  (w w' : World R) :
  destroy_agents agents deleted w = Ok (r, w') <->
  w' = w /\ r = rev (non_null agents) ++ deleted /\
  NoDup (non_null agents) /\
  Forall (fun agent => is_Some (heap w !! agent)) (non_null agents) /\
  Forall (fun agent => agent ∉ deleted) (non_null agents).
Proof.
  revert deleted. induction agents as [|[agent|] rest IH]; intros deleted;
    cbn [destroy_agents].
  - rewrite ret_Ok. split.
    + intros [-> ->]. repeat split; constructor.
    + intros (-> & -> & _). auto.
  - change (non_null (Some agent :: rest)) with (agent :: non_null rest).
    unfold bind, deref. destruct (heap w !! agent) as [a|] eqn:Ha.
    + case_bool_decide as Hd.
      * split; [discriminate |]. intros (_ & _ & _ & _ & Hnd).
        apply Forall_cons in Hnd as [Hnd _]. contradiction.
      * rewrite IH. cbn [rev]. rewrite <- app_assoc. cbn [app].
        rewrite NoDup_cons, !Forall_cons.
        split.
        -- intros (-> & -> & Hnd & Hv & Hdel).
           split; [reflexivity |]. split; [reflexivity |].
           split; [split; [| exact Hnd] |].
           { intros Hin. rewrite Forall_forall in Hdel.
             apply (Hdel agent Hin). left. }
           split; [split; [rewrite Ha; eauto | exact Hv] |].
           split; [exact Hd |].
           eapply Forall_impl; [exact Hdel |]. cbn. intros x Hx Hin.
           apply Hx. right. exact Hin.
        -- intros (-> & -> & (Hni & Hnd) & (_ & Hv) & (_ & Hdel)).
           split; [reflexivity |]. split; [reflexivity |].
           split; [exact Hnd |]. split; [exact Hv |].
           rewrite Forall_forall in *. intros x Hx Hin.
           apply elem_of_cons in Hin as [-> | Hin]; [contradiction |].
           exact (Hdel x Hx Hin).
    + split; [discriminate |]. intros (_ & _ & _ & Hv & _).
      apply Forall_cons in Hv as [[a Hv] _]. congruence.
  - change (non_null (None :: rest)) with (non_null rest). apply IH.
Qed.

Lemma destroy_agents_Err (agents : list (option ptr)) (deleted : list ptr)
  (w : World R) (e : error) :
  destroy_agents agents deleted w = Err e -> e = undefined_behaviour.
Proof.
  revert deleted. induction agents as [|[agent|] rest IH]; intros deleted;
    cbn [destroy_agents].
  - discriminate.
  - unfold bind, deref. destruct (heap w !! agent); [| congruence].
    case_bool_decide; [unfold throw; congruence | apply IH].
  - apply IH.
Qed.

End Destroy.

(** X13. [destroy_agents] skips the null entries of the vector, [delete]
    of a null pointer doing nothing, and returns exactly when the
    entries that are not null are pairwise distinct, each points to an
    agent, and none has been deleted before; each of them has then been
    deleted once, the pointers deleted being those entries in reverse
    before the ones deleted earlier. Otherwise an entry is deleted that
    is no agent or is deleted a second time, and the failure is
    undefined behaviour. In particular [destroy_agents] returns on a
    vector of null entries, having deleted nothing. *)
Theorem destroy_agents_outcome (R : RandomSource) (agents : list (option ptr))
  (deleted : list ptr) (w : World R) :
  (forall r w',
     destroy_agents agents deleted w = Ok (r, w') <->
     w' = w /\ r = rev (non_null agents) ++ deleted /\
     NoDup (non_null agents) /\
     Forall (fun agent => is_Some (heap w !! agent)) (non_null agents) /\
     Forall (fun agent => agent ∉ deleted) (non_null agents)) /\
  (forall e, destroy_agents agents deleted w = Err e -> e = undefined_behaviour) /\
  (forall n, destroy_agents (replicate n None) deleted w = Ok (deleted, w)).
Proof.
  split; [| split].
  - intros r w'. apply destroy_agents_Ok.
  - intros e. apply destroy_agents_Err.
  - intros n. apply destroy_agents_Ok. rewrite non_null_replicate.
    repeat split; constructor.
Qed.

(** ** [main] *)

Lemma initialize_agents_from_total (R : RandomSource) (parameters : ParameterMap) :
  (forall x, Forall (fun key => is_Some (parameters !! key)) (init_keys x)) ->
  forall (agents : list ptr) (i : Z) (w : World R),
    exists agents' w', initialize_agents_from i agents parameters w = Ok (agents', w').
Proof.
  intros Hkeys. induction agents as [|slot rest IH]; intros i w;
    cbn [initialize_agents_from].
  - unfold ret. eauto.
  - unfold bind at 1, new_.
    set (w1 := {| heap := heap w ++ [new_Agent]; rng := rng w;
                  cout := cout w; calls := calls w |}).
    destruct (init_outcome_cases R i parameters new_Agent (rng w1))
      as [(_ & a' & s' & Hinit) | (Hmiss & _)].
    + assert (Ha : heap w1 !! length (heap w) = Some new_Agent)
        by (cbn [w1 heap]; apply list_lookup_middle; reflexivity).
      rewrite (bind_Ok_intro _ _ _ _ _ (invoke_total R _ _ _ _ _ Ha Hinit)).
      match goal with
      | |- context [initialize_agents_from (incr i) rest parameters] =>
          match goal with |- exists _ _, bind _ _ ?w2 = _ =>
            destruct (IH (incr i) w2) as (rest' & w' & Hrest)
          end
      end.
      rewrite (bind_Ok_intro _ _ _ _ _ Hrest). unfold ret. eauto.
    + exfalso. apply Exists_exists in Hmiss as (key & Hin & Hnone).
      pose proof (Hkeys (if (bernoulli_distribution d0_5 (rng w1)).1
                         then FEMALE else MALE)) as HF.
      rewrite Forall_forall in HF. destruct (HF key Hin) as [v Hv]. congruence.
Qed.

Lemma main_num_iterations : num_iterations main_parameters = Ok 730%Z.
Proof. reflexivity. Qed.

Lemma main_start_date : index main_parameters "START_DATE" = (of_Z 2015, main_parameters).
Proof. reflexivity. Qed.

Lemma main_time_step :
  main_parameters !! "TIME_STEP" = Some DAY /\
  main_parameters !! "START_DATE" = Some (of_Z 2015).
Proof. split; reflexivity. Qed.

Lemma main_init_keys (x : Sex) :
  Forall (fun key => is_Some (main_parameters !! key)) (init_keys x).
Proof. destruct x; repeat constructor; eexists; reflexivity. Qed.

(** X14. [main] runs to its end. For every state in which the seeding
    leaves the engine, with [std::geometric_distribution] drawing
    non-negative values and [std::shuffle] permuting the vector, [main]
    returns without an exception and without undefined behaviour. It
    writes the summary of the 10000 agents without incidence, the
    header, the row of the start date and 730 rows, one per day, and a
    second summary with as many males and females and with the
    incidence; and it deletes each of the 10000 agents once. *)
Theorem main_returns (R : RandomSource) (seeded : rng_state) :
  geometric_range R -> shuffle_permutes R ->
  exists out : Output,
    main seeded = Ok out /\
    (summary_males (output_begin out) + summary_females (output_begin out) = 10000)%Z /\
    summary_incidence (output_begin out) = None /\
    summary_males (output_end out) = summary_males (output_begin out) /\
    summary_females (output_end out) = summary_females (output_begin out) /\
    is_Some (summary_incidence (output_end out)) /\
    output_header out = header /\
    length (output_rows out) = 731 /\
    (exists row, output_rows out !! 0 = Some row /\
       row_date row = of_Z 2015 /\ row_agents row = 10000%Z) /\
    (forall k row, output_rows out !! S k = Some row ->
       row_date row = add (of_Z 2015) (mul DAY (of_Z (Z.of_nat k)))) /\
    output_deleted out ≡ₚ seq 0 (Z.to_nat 10000).
Proof.
  intros Hg Hsh. unfold main. cbv zeta.
  set (w0 := {| heap := []; rng := seeded; cout := []; calls := [] |}).
  set (slots := replicate (Z.to_nat 10000) 0).
  assert (Hslots : Z.of_nat (length slots) = 10000%Z)
    by (unfold slots; rewrite length_replicate; apply Z2Nat.id; lia).
  (* initialize_agents *)
  destruct (initialize_agents_from_total R main_parameters main_init_keys slots 0%Z w0)
    as (agents1 & w1 & H1).
  change (initialize_agents_from 0 slots main_parameters)
    with (initialize_agents slots main_parameters) in H1.
  rewrite (bind_Ok_intro _ _ _ _ _ H1).
  destruct (initialize_agents_population R hiv_in_range _ _ _ _ _
              (fun i this s a' s' H => proj2 (init_hiv R i _ this a' s s' Hg H)) H1)
    as (Hpop1 & Hlen1 & _ & Hrange1).
  specialize (Hrange1 (Forall_nil_2 _)).
  pose proof (initialize_agents_from_Ok R (fun _ => True) main_parameters
                (fun _ _ _ _ _ _ => I) _ _ _ _ _ H1) as (Hseq & _).
  pose proof (initialize_agents_from_ids R _ _ _ _ _ _ H1) as (Hcout1 & _).
  cbn [w0 heap cout length] in Hseq, Hcout1.
  pose proof (population_in_range _ _ Hpop1 Hrange1) as Hok1.
  assert (Hsize1 : (Z.of_nat (length agents1) < UINT_MODULUS)%Z)
    by (rewrite Hlen1, Hslots; unfold UINT_MODULUS; lia).
  assert (Hne1 : agents1 <> [])
    by (intros E; rewrite E in Hlen1; cbn [length] in Hlen1; lia).
  (* the first summary *)
  destruct (summary_total 0 "begin" agents1 ∅ w1 Hne1 Hok1) as (first & t0 & _ & Hs0).
  unfold incidence in Hs0.
  change ((∅ : ParameterMap) !! "HIV_MALES") with (@None double) in Hs0.
  unfold bind at 1, ret at 1 in Hs0. unfold ret in Hs0.
  rewrite (bind_Ok_intro _ _ _ _ _ Hs0).
  destruct (summary_leaves _ _ _ _ _ _ _ _ Hs0 Hsize1)
    as (_ & _ & _ & Em0 & Ef0 & Om & Of).
  cbn [fst snd].
  (* the first row *)
  rewrite main_start_date.
  destruct (report_total R (of_Z 2015) agents1 w1 Hok1) as (w2 & H2).
  rewrite (bind_Ok_intro _ _ _ _ _ H2).
  destruct (report_Ok_row R _ _ _ _ _ H2)
    as (Hheap2 & _ & row0 & p0 & Hcout2 & _ & Hdate0 & Hagents0 & _).
  (* simulate *)
  pose proof (simulate_num_iterations R agents1 main_parameters w2) as Hn.
  rewrite main_num_iterations in Hn.
  destruct Hn as (_ & ts & sd & prob & Ets & Esd & _ & Hsim).
  destruct main_time_step as (Ets' & Esd').
  assert (ts = DAY) as -> by congruence.
  assert (sd = of_Z 2015) as -> by congruence.
  rewrite <- Hheap2 in Hpop1, Hrange1.
  destruct (simulate_loop_total R (Z.to_nat 730) DAY (of_Z 2015) prob 0 agents1 w2
              Hsh Hpop1 Hrange1) as (agents2 & w3 & Hloop & Hpop3 & Hrange3).
  rewrite Hloop in Hsim. rewrite (bind_Ok_intro _ _ _ _ _ Hsim).
  pose proof (simulate_loop_stage_progress R _ _ _ _ _ _ _ _ _ Hloop) as Hp.
  pose proof (simulate_loop_same_identity R _ _ _ _ _ _ _ _ _ Hloop) as Hi.
  pose proof (simulate_loop_Permutation R _ _ _ _ _ _ _ _ _ Hsh Hloop) as Hperm.
  destruct (simulate_loop_rows R _ _ _ _ _ _ _ _ _ Hloop) as (rows & Hcout3 & Hrows & Hdates).
  (* the second summary *)
  rewrite Hheap2 in Hp, Hi.
  destruct (progress_counts _ _ _ _ Hp Hi Hperm Hok1) as (Hok3 & Hsex & Hinf).
  assert (Hlen2 : length agents2 = length agents1) by (rewrite Hperm; reflexivity).
  assert (Hne2 : agents2 <> []).
  { intros ->. apply Hne1. apply Permutation_nil. exact Hperm. }
  assert (Hsize2 : (Z.of_nat (length agents2) < UINT_MODULUS)%Z)
    by (rewrite Hlen2; exact Hsize1).
  destruct (summary_with_counts 0 "end" agents2 _ _ _ w3
              Hne2 Hok3 Hsize2 Om Of (Hinf MALE) (Hinf FEMALE))
    as (s1 & outputs1 & Hs1 & Em1 & Ef1 & Hinc1).
  rewrite (bind_Ok_intro _ _ _ _ _ Hs1).
  (* destroy_agents *)
  assert (Hd : destroy_agents (Some <$> agents2) [] w3 = Ok (rev agents2 ++ [], w3)).
  { apply destroy_agents_Ok. rewrite non_null_Some. destruct Hpop3 as (Hnd & Hv).
    split; [reflexivity |]. split; [reflexivity |]. split; [exact Hnd |].
    split; rewrite Forall_forall; intros agent Hin.
    - destruct (Hv agent Hin) as (a & Ha & _). rewrite Ha. eauto.
    - apply not_elem_of_nil. }
  rewrite (bind_Ok_intro _ _ _ _ _ Hd).
  eexists. split; [reflexivity |].
  cbn [output_begin output_end output_rows output_header output_deleted fst snd].
  pose proof (count_if_sexes _ _ (ok_is_Some _ _ Hok1)) as Hsum.
  split; [rewrite Em0, Ef0; lia |].
  split; [reflexivity |].
  split; [rewrite Em1, Em0, Hsex; reflexivity |].
  split; [rewrite Ef1, Ef0, Hsex; reflexivity |].
  split; [rewrite Hinc1; eauto |].
  split; [reflexivity |].
  rewrite Hcout3, Hcout2, Hcout1. cbn [app].
  split; [cbn [length]; rewrite Hrows; reflexivity |].
  split; [exists row0; split; [reflexivity |]; split; [exact Hdate0 | lia] |].
  split.
  - intros k row Hk. cbn [lookup list_lookup] in Hk.
    rewrite (Hdates k row Hk). rewrite iter_incr; [reflexivity |].
    apply lookup_lt_Some in Hk. rewrite Hrows in Hk. unfold UINT_MODULUS. lia.
  - rewrite app_nil_r, <- (Permutation_rev agents2), Hperm, Hseq. unfold slots.
    rewrite length_replicate. reflexivity.
Qed.

(** ** [summary] and [calc_prevalence] *)

Lemma alive_count_count_if (x : Sex) (h : list Agent) (agents : list ptr) :
  (forall agent a, agent ∈ agents -> h !! agent = Some a -> alive a = true) ->
  alive_count x h agents = count_if (is_sex x) h agents /\
  infected_alive_count x h agents = count_if (infected_of_sex x) h agents.
Proof.
  induction agents as [|agent rest IH]; intros Halive;
    cbn [alive_count infected_alive_count count_if]; [auto |].
  destruct IH as [IH1 IH2].
  { intros p a Hin. apply Halive. right. exact Hin. }
  destruct (h !! agent) as [a|] eqn:Ha; [| auto].
  assert (Hc : counted x a = is_sex x a).
  { unfold counted, is_sex. rewrite (Halive agent a); [reflexivity | left | exact Ha]. }
  unfold infected_of_sex. rewrite Hc, IH1, IH2. auto.
Qed.

Lemma to_unsigned_to_size_t (n : Z) : to_unsigned (to_size_t n) = to_unsigned n.
Proof.
  unfold to_unsigned, to_size_t, UINT_MODULUS, SIZE_MODULUS.
  apply Z.mod_mod_divide. exists (2 ^ 32)%Z. reflexivity.
Qed.

(** The females of [summary], as an [unsigned], are the entries that
    are not males, modulo [2^32]. *)
Lemma females_of_unsigned (h : list Agent) (agents : list ptr) (t : Tally) :
  Forall (fun agent => is_Some (h !! agent)) agents ->
  tally_males t = to_unsigned (Z.of_nat (count_if (is_sex MALE) h agents)) ->
  females_of (Z.of_nat (length agents)) t
    = to_unsigned (Z.of_nat (count_if (is_sex FEMALE) h agents)).
Proof.
  intros Hv Hm. pose proof (count_if_sexes h agents Hv) as Hs.
  unfold females_of. rewrite to_unsigned_to_size_t, Hm.
  unfold to_unsigned. rewrite Zminus_mod_idemp_r. f_equal. lia.
Qed.

(** X15. [summary] and [report] agree on a vector of agents that are all
    alive, as the agents of a run are: when [summary] returns,
    [calc_prevalence] returns on the same vector, the males of the one
    are the males alive of the other, the females likewise (as
    [unsigned] values), and the two prevalences written by [summary] are
    those of [calc_prevalence]. *)
Theorem summary_agrees_with_calc_prevalence (R : RandomSource) (sim_no : Z)
  (description : string) (agents : list ptr) (outputs outputs' : ParameterMap)
  (s : Summary) (w w' : World R) :
  summary sim_no description agents outputs w = Ok ((s, outputs'), w') ->
  (forall agent a, agent ∈ agents -> heap w !! agent = Some a -> alive a = true) ->
  exists p,
    calc_prevalence (heap w) agents = Ok p /\
    summary_males s = males_alive p /\
    to_unsigned (summary_females s) = females_alive p /\
    summary_male_prevalence s = male_prevalence p /\
    summary_female_prevalence s = female_prevalence p.
Proof.
  intros H Halive.
  apply summary_Ok in H
    as (-> & agent & rest & first & t & inc & -> & Ha & Ht & Hinc & -> & ->).
  apply tally_agents_start in Ht as (Hok & Tm & Thm & Thf & _).
  pose proof (females_of_unsigned _ _ t (ok_is_Some _ _ Hok) Tm) as Tf.
  destruct (calc_prevalence_total (heap w) (agent :: rest)) as (p & Hp).
  { eapply Forall_impl; [exact Hok |]. intros x (a & Hx & _).
    eapply lookup_lt_Some. exact Hx. }
  destruct (alive_count_count_if MALE _ _ Halive) as (Am & Aim).
  destruct (alive_count_count_if FEMALE _ _ Halive) as (Af & Aif).
  destruct (calc_prevalence_counts MALE _ _ _ Hp) as (Pm & Pim & Ppm).
  destruct (calc_prevalence_counts FEMALE _ _ _ Hp) as (Pf & Pif & Ppf).
  cbn [alive_of infected_of prevalence_of] in *.
  rewrite Am in Pm. rewrite Aim in Pim. rewrite Af in Pf. rewrite Aif in Pif.
  exists p. split; [exact Hp |].
  cbn [summary_lines summary_males summary_females summary_male_prevalence
       summary_female_prevalence].
  fold (females_of (Z.of_nat (length (agent :: rest))) t).
  rewrite Ppm, Ppf, Pm, Pim, Pf, Pif, Tf, Tm, Thm, Thf. auto.
Qed.

(** X16. An [unsigned] survives the conversion to [double] and back, and
    the difference of two [unsigned] values, the greater first, taken on
    their [double] values and converted back, is their difference: the
    counts that [summary] stores in the outputs and subtracts at its
    next call lose nothing. *)
Theorem unsigned_double_round_trip (S : Type) (n m : Z) (s : S) :
  (0 <= m <= n)%Z -> (n < UINT_MODULUS)%Z ->
  double_to_unsigned (of_Z n) s = Ok (n, s) /\
  double_to_unsigned (sub (of_Z n) (of_Z m)) s = Ok ((n - m)%Z, s).
Proof.
  intros Hm Hn. split.
  - apply double_to_unsigned_of_Z. lia.
  - rewrite sub_of_Z by (unfold UINT_MODULUS in Hn; lia).
    apply double_to_unsigned_of_Z. lia.
Qed.

(** ** The properties on the example run *)

Lemma example_begin_run :
  summary 0 "begin" example_agents ∅ example_world
    = Ok ((example_begin.1, example_begin.2), example_world).
Proof. reflexivity. Qed.

Lemma example_end_run :
  summary 0 "end" [1; 0] example_begin.2 example_end_world
    = Ok ((example_end.1, example_end.2), example_end_world).
Proof. reflexivity. Qed.

Lemma example_world_alive (agent : ptr) (a : Agent) :
  agent ∈ example_agents -> heap example_world !! agent = Some a -> alive a = true.
Proof.
  intros Hin Ha.
  destruct (initialize_agents_population tape (fun _ => True) _ _ _ _ _
              (fun _ _ _ _ _ _ => I) example_world_initialized) as ((_ & Hpop) & _).
  destruct (Hpop agent Hin) as (a' & Ha' & Halive). congruence.
Qed.

Lemma summary_counts_witness :
  summary 0 "begin" example_agents ∅ example_world
    = Ok ((example_begin.1, example_begin.2), example_world) /\
  summary_males example_begin.1
    = to_unsigned (Z.of_nat (count_if (is_sex MALE) (heap example_world) example_agents)) /\
  example_begin.2 !! "HIV_MALES" = Some d1.
Proof.
  split; [exact example_begin_run |].
  pose proof (summary_counts tape _ _ _ _ _ _ _ _ example_begin_run) as H.
  cbv zeta in H. destruct H as (_ & _ & _ & Hm & _).
  split; [exact Hm | reflexivity].
Defined.

Lemma summary_ages_witness :
  summary 0 "begin" example_agents ∅ example_world
    = Ok ((example_begin.1, example_begin.2), example_world) /\
  summary_youngest example_begin.1 ∈ age <$> entries (heap example_world) example_agents /\
  Forall (fun x => ltb x (summary_youngest example_begin.1) = false)
    (age <$> entries (heap example_world) example_agents).
Proof.
  split; [exact example_begin_run |].
  pose proof (summary_ages tape _ _ _ _ _ _ _ _ example_begin_run) as H.
  cbv zeta in H. destruct H as (_ & Hy & Hall & _).
  split; [exact Hy | exact Hall].
Defined.

Lemma summary_outcome_witness :
  summary 0 "begin" [] ∅ example_world = Err undefined_behaviour /\
  summary 0 "begin" [0; 7] ∅ example_world = Err undefined_behaviour /\
  exists s outputs',
    summary 0 "begin" example_agents ∅ example_world = Ok ((s, outputs'), example_world) /\
    summary_incidence s = None.
Proof.
  split; [apply (proj1 (summary_outcome tape 0 "begin" [] ∅ example_world)); reflexivity |].
  split.
  - apply (proj1 (proj2 (summary_outcome tape 0 "begin" [0; 7] ∅ example_world))).
    right. left. exact I.
  - apply (proj2 (proj2 (summary_outcome tape 0 "begin" example_agents ∅ example_world))).
    + discriminate.
    + repeat constructor; eexists; (split; [reflexivity |]);
        unfold hiv_in_range; simpl; lia.
    + reflexivity.
Defined.

Lemma incidence_after_simulate_witness :
  shuffle_permutes tape /\
  summary 0 "begin" example_agents ∅ example_world
    = Ok ((example_begin.1, example_begin.2), example_world) /\
  simulate example_agents (example_parameters d0_5 d0_5) example_world
    = Ok ([1; 0], example_end_world) /\
  exists s1 outputs1,
    summary 0 "end" [1; 0] example_begin.2 example_end_world
      = Ok ((s1, outputs1), example_end_world) /\
    summary_males s1 = summary_males example_begin.1 /\
    summary_females s1 = summary_females example_begin.1.
Proof.
  split; [exact tape_shuffle_permutes |].
  split; [exact example_begin_run |]. split; [exact example_simulate |].
  assert (Hsize : (Z.of_nat (length example_agents) < UINT_MODULUS)%Z) by reflexivity.
  destruct (incidence_after_simulate tape 0 0 "begin" "end" _ _ _ _ _ _ _ _ _
              tape_shuffle_permutes Hsize example_begin_run example_simulate)
    as (_ & s1 & outputs1 & H1 & Hm & Hf & _).
  exists s1, outputs1. auto.
Defined.

Lemma main_returns_witness :
  geometric_range tape /\ shuffle_permutes tape /\
  exists out : Output,
    main (R := tape) ([] : list nat) = Ok out /\
    length (output_rows out) = 731 /\
    output_deleted out ≡ₚ seq 0 (Z.to_nat 10000).
Proof.
  split; [exact tape_geometric_range |]. split; [exact tape_shuffle_permutes |].
  destruct (main_returns tape ([] : list nat) tape_geometric_range tape_shuffle_permutes)
    as (out & H & _ & _ & _ & _ & _ & _ & Hlen & _ & _ & Hdel).
  exists out. auto.
Defined.

Lemma summary_agrees_with_calc_prevalence_witness :
  summary 0 "begin" example_agents ∅ example_world
    = Ok ((example_begin.1, example_begin.2), example_world) /\
  exists p,
    calc_prevalence (heap example_world) example_agents = Ok p /\
    summary_male_prevalence example_begin.1 = male_prevalence p /\
    summary_female_prevalence example_begin.1 = female_prevalence p.
Proof.
  split; [exact example_begin_run |].
  destruct (summary_agrees_with_calc_prevalence tape _ _ _ _ _ _ _ _
              example_begin_run example_world_alive) as (p & Hp & _ & _ & Hm & Hf).
  exists p. auto.
Defined.

Lemma unsigned_double_round_trip_witness :
  double_to_unsigned (of_Z 5) tt = Ok (5%Z, tt) /\
  double_to_unsigned (sub (of_Z 5) (of_Z 3)) tt = Ok (2%Z, tt).
Proof.
  apply (unsigned_double_round_trip unit 5 3 tt); unfold UINT_MODULUS; lia.
Defined.
